(** * AI_Recommender_System: retrieval, ranking and evaluation core

  A shallow embedding of the scoring code of the repository
  (services/api/app/services/cf_inference.py, hybrid_ranker.py,
  embedding_store.py, eval.py and common/rank_blender.py, with the parts
  of items_repo.py, lexical_store.py, common/metrics.py and the indexer
  they work with) together with the properties its design document
  states about it and further properties of the code.

  Conventions of the embedding.
  - A Python [dict] is an association list in insertion order whose keys
    are pairwise distinct ([Dict.wfb]); [Dict.set] overwrites in place or
    appends, as CPython does.
  - A Python [set] of strings is a duplicate-free list; no result below
    depends on the order in which such a list is traversed.
  - A Python [int] is a [Z].
  - A Python [float] the code computes with and then ranks or tests by
    (the fallback scores of cf_inference.py, the weights and scores of
    blend_scores) is a binary64 number with every operation rounded
    ([F64], [RankBlender64]).  A float the code only stores and compares
    (the entries of the score matrix, BM25 scores, distances, ratings) is
    the rational it denotes, extended with the infinities and NaN
    ([Float]); comparisons do not round.  The metrics, and [RankBlender]
    for the properties stated in exact arithmetic, compute with
    rationals.
  - numpy fixes the result of [argsort] and [argpartition] only up to the
    order of equal entries; the statements about their callers hold for
    every such order.
  - A raised exception is the [Raise] case of [Py.result]. *)

From Stdlib Require Import List ZArith QArith Qminmax String Ascii Bool Lia.
From Stdlib Require Import Permutation Sorted Arith DecimalString OrderedTypeEx.
From Stdlib Require Import SpecFloat.
Import ListNotations.

Set Implicit Arguments.
Local Open Scope string_scope.
Local Open Scope list_scope.

(* ================================================================== *)
(** ** Python built-ins used by the sources *)
(* ================================================================== *)

Module Py.

Inductive exn : Type :=
| ValueError
| TypeError
| IndexError
| KeyError
| AttributeError
| OverflowError.

Inductive result (A : Type) : Type :=
| Ok (a : A)
| Raise (e : exn).

Arguments Ok {A} a.
Arguments Raise {A} e.

Definition bind {A B : Type} (r : result A) (f : A -> result B) : result B :=
  match r with
  | Ok a => f a
  | Raise e => Raise e
  end.

(** [l[:k]] for a non-negative [k]. *)
Definition take {A : Type} (k : nat) (l : list A) : list A := firstn k l.

(** [l[-k:]] for a non-negative [k]: the last [k] elements, all of [l]
    when it is shorter, and all of [l] for [k = 0], as [-0] is [0]. *)
Definition last_n {A : Type} (k : nat) (l : list A) : list A :=
  match k with
  | O => l
  | S _ => skipn (List.length l - k) l
  end.

(** [enumerate(l)]. *)
Definition enumerate {A : Type} (l : list A) : list (nat * A) :=
  combine (seq 0 (List.length l)) l.

Section Sorting.
Variable A : Type.
Variable leb : A -> A -> bool.

(** Insertion in front of the first element that is not smaller:
    an element inserted later (it stood earlier in the input) stays in
    front of its equals, which makes [sorted] stable. *)
Fixpoint insort (x : A) (l : list A) : list A :=
  match l with
  | [] => [x]
  | y :: t => if leb x y then x :: y :: t else y :: insort x t
  end.

(** [sorted(l, key=...)]: a stable sort. *)
Fixpoint sorted (l : list A) : list A :=
  match l with
  | [] => []
  | x :: t => insort x (sorted t)
  end.
End Sorting.

(** Python's [max(a, b)] on floats: [b] when [b > a], else [a]. *)
Definition max (a b : Q) : Q := if Qle_bool b a then a else b.

(** [sum(xs)] on floats. *)
Definition sum (xs : list Q) : Q := fold_left Qplus xs 0%Q.

(** [set(l)] of strings, and [x in s]. *)
Definition mem (x : string) (s : list string) : bool :=
  existsb (String.eqb x) s.

Fixpoint set_of (l : list string) : list string :=
  match l with
  | [] => []
  | x :: t => if mem x t then set_of t else x :: set_of t
  end.

End Py.

Notation "x <- r ;; k" := (Py.bind r (fun x => k))
(at level 61, r at next level, right associativity).

(** Insertion-ordered dictionaries with string keys. *)
Module Dict.

Definition t (V : Type) : Type := list (string * V).

Definition keys {V : Type} (d : t V) : list string := map fst d.
Definition values {V : Type} (d : t V) : list V := map snd d.

Fixpoint get {V : Type} (d : t V) (k : string) : option V :=
  match d with
  | [] => None
  | (k', v) :: r => if String.eqb k k' then Some v else get r k
  end.

(** [d.get(k, dflt)]. *)
Definition get_or {V : Type} (d : t V) (k : string) (dflt : V) : V :=
  match get d k with
  | Some v => v
  | None => dflt
  end.

(** [d[k] = v]. *)
Fixpoint set {V : Type} (d : t V) (k : string) (v : V) : t V :=
  match d with
  | [] => [(k, v)]
  | (k', v') :: r =>
      if String.eqb k k' then (k', v) :: r else (k', v') :: set r k v
  end.

(** [d.setdefault(k, v)] as far as the dictionary is concerned. *)
Definition setdefault {V : Type} (d : t V) (k : string) (v : V) : t V :=
  match get d k with
  | Some _ => d
  | None => set d k v
  end.

(** [k in d]. *)
Definition has {V : Type} (d : t V) (k : string) : bool :=
  match get d k with
  | Some _ => true
  | None => false
  end.

(** The keys of a dictionary are pairwise distinct. *)
Fixpoint wfb {V : Type} (d : t V) : bool :=
  match d with
  | [] => true
  | (k, _) :: r => negb (Py.mem k (keys r)) && wfb r
  end.

(** The shape shared by the counting loops of the sources:
    [d[key x] = upd(d.get(key x, zero), x)] for every [x] that is not
    skipped, and what such a loop does to the entry of one key. *)
Section Accumulate.
Variables V X : Type.
Variable key : X -> string.
Variable upd : V -> X -> V.
Variable zero : V.
Variable skip : X -> bool.

Definition acc_step (d : t V) (x : X) : t V :=
  if skip x then d
  else set d (key x) (upd (get_or d (key x) zero) x).

Definition acc_value (k : string) (v : V) (x : X) : V :=
  if skip x then v else if String.eqb k (key x) then upd v x else v.

End Accumulate.

(** [dict(items)] for a list of (key, value) pairs. *)
Definition of_items {V : Type} (items : list (string * V)) : t V :=
  fold_left (fun d kv => set d (fst kv) (snd kv)) items [].

End Dict.

(* ================================================================== *)
(** ** Python floats: IEEE 754 binary64 *)
(* ================================================================== *)

(** A Python [float] with the arithmetic the interpreter performs: the
    binary64 format ([prec] = 53 bits of mantissa, exponents below
    [emax] = 1024) with every operation rounded to the nearest
    representable number, ties to even, as the Standard Library
    specifies it ([SpecFloat]). *)
Module F64.

Definition t : Type := spec_float.

Definition prec : Z := 53.
Definition emax : Z := 1024.

Definition add (x y : t) : t := SFadd prec emax x y.
Definition mul (x y : t) : t := SFmul prec emax x y.

(** [x / y] for [y] other than zero, on which Python raises
    ZeroDivisionError. *)
Definition div (x y : t) : t := SFdiv prec emax x y.

(** [-x]. *)
Definition neg (x : t) : t := SFopp x.

(** The comparisons; all of them are false on NaN. *)
Definition compare (x y : t) : option comparison := SFcompare x y.
Definition eqb (x y : t) : bool := SFeqb x y.
Definition ltb (x y : t) : bool := SFltb x y.
Definition leb (x y : t) : bool := SFleb x y.

(** [float(z)] for a Python [int]: the nearest binary64 number.  (An
    [int] of 2^1024 or more, on which [float] raises OverflowError, is
    not a number of table rows.) *)
Definition of_int (z : Z) : t := binary_normalize prec emax z 0 false.

Definition zero : t := S754_zero false.
Definition one : t := of_int 1.

(** The value of a decimal literal that denotes [p / q]: the binary64
    number nearest to the quotient, which the correctly rounded division
    of two integers below 2^53 gives. *)
Definition literal (p q : Z) : t := div (of_int p) (of_int q).

(** [0.01], that is 0x1.47ae147ae147bp-7. *)
Definition c_0_01 : t := literal 1 100.

(** [0 <= x]: [x] is neither NaN nor negative. *)
Definition nonneg (x : t) : bool := leb zero x.

(** [n] times the bit 0 appended to a mantissa. *)
Definition shift (n : positive) (j : nat) : positive := Nat.iter j xO n.

Definition sub (x y : t) : t := SFsub prec emax x y.

(** [fabs(x)] and [isfinite(x)]. *)
Definition abs (x : t) : t := SFabs x.

Definition is_finite (x : t) : bool :=
  match x with
  | S754_zero _ | S754_finite _ _ _ => true
  | _ => false
  end.

(** The built-in [sum] on floats, from the start value [0].  CPython up
    to 3.11 adds the items from left to right; CPython 3.12 and later
    carries the rounding errors of the partial sums in a compensation
    term (Neumaier's summation) and adds it at the end. *)
Inductive summation : Type :=
| left_to_right
| compensated.

Definition sum_left_to_right (xs : list t) : t := fold_left add xs zero.

(** One item of the compensated loop:
    [t = f + x; c += (f - t) + x if fabs(f) >= fabs(x) else (x - t) + f;
    f = t]. *)
Definition neumaier (fc : t * t) (x : t) : t * t :=
  let f := fst fc in
  let c := snd fc in
  let t := add f x in
  (t, add c (if leb (abs x) (abs f) then add (sub f t) x
             else add (sub x t) f)).

(** The first item is added to the integer 0; the compensation is added
    at the end when it is finite and not zero. *)
Definition sum_compensated (xs : list t) : t :=
  match xs with
  | [] => zero
  | x :: rest =>
      let fc := fold_left neumaier rest (add zero x, zero) in
      if negb (eqb (snd fc) zero) && is_finite (snd fc)
      then add (fst fc) (snd fc)
      else fst fc
  end.

Definition sum (v : summation) (xs : list t) : t :=
  match v with
  | left_to_right => sum_left_to_right xs
  | compensated => sum_compensated xs
  end.

End F64.

(* ================================================================== *)
(** ** common/rank_blender.py *)
(* ================================================================== *)

(** [blend_scores] and [topk] read in exact arithmetic: a float is the
    rational it denotes and no operation rounds, overflows or
    underflows. *)
Module RankBlender.

(** [total_w = sum(max(0.0, w) for w in weights.values())], replaced by
    [1.0] when it is not positive. *)
Definition raw_total (weights : Dict.t Q) : Q :=
  Py.sum (map (Py.max 0) (Dict.values weights)).

Definition total_w (weights : Dict.t Q) : Q :=
  let t := raw_total weights in
  if Qle_bool t 0 then 1%Q else t.

(** [norm_w = {k: max(0.0, v) / total_w for k, v in weights.items()}]. *)
Definition norm_w (weights : Dict.t Q) : Dict.t Q :=
  let tw := total_w weights in
  fold_left (fun d kv => Dict.set d (fst kv) (Py.max 0 (snd kv) / tw)%Q)
            weights [].

Definition add_source (w : Q) (combined : Dict.t Q) (scores : Dict.t Q)
  : Dict.t Q :=
  fold_left
    (fun c kv =>
       Dict.set c (fst kv) (Dict.get_or c (fst kv) 0 + w * snd kv)%Q)
    scores combined.

Definition blend_scores (score_dicts : Dict.t (Dict.t Q))
           (weights : Dict.t Q) : Dict.t Q :=
  let nw := norm_w weights in
  fold_left
    (fun combined src =>
       let w := Dict.get_or nw (fst src) 0%Q in
       if Qeq_bool w 0 then combined
       else add_source w combined (snd src))
    score_dicts [].

(** [topk]: [dict(sorted(d.items(), key=lambda x: x[1], reverse=True)[:k])]
    for a non-negative [k].  A reversed [sorted] keeps entries of equal
    value in the order they had in [d]. *)
Definition topk (d : Dict.t Q) (k : nat) : Dict.t Q :=
  Dict.of_items
    (Py.take k (Py.sorted (fun x y => Qle_bool (snd y) (snd x)) d)).

End RankBlender.

(** [blend_scores] as the interpreter runs it, on binary64 floats.  The
    argument [py] says which summation the built-in [sum] of the
    interpreter performs. *)
Module RankBlender64.

(** [max(0.0, w)]: [w] when [w > 0.0], else [0.0] (also for NaN). *)
Definition max0 (w : F64.t) : F64.t :=
  if F64.ltb F64.zero w then w else F64.zero.

(** [total_w]: the sum of the clamped weights, replaced by [1.0] when it
    is [<= 0]. *)
Definition total_w (py : F64.summation) (weights : Dict.t F64.t) : F64.t :=
  let t := F64.sum py (map max0 (Dict.values weights)) in
  if F64.leb t F64.zero then F64.one else t.

(** [norm_w = {k: max(0.0, v) / total_w for k, v in weights.items()}];
    [total_w] is never zero, so the division does not raise. *)
Definition norm_w (py : F64.summation) (weights : Dict.t F64.t)
  : Dict.t F64.t :=
  let tw := total_w py weights in
  fold_left (fun d kv => Dict.set d (fst kv) (F64.div (max0 (snd kv)) tw))
            weights [].

(** The inner loop: [combined[item_id] = combined.get(item_id, 0.0) + w * s]. *)
Definition add_source (w : F64.t) (combined : Dict.t F64.t)
           (scores : Dict.t F64.t) : Dict.t F64.t :=
  fold_left
    (fun c kv =>
       Dict.set c (fst kv)
                (F64.add (Dict.get_or c (fst kv) F64.zero) (F64.mul w (snd kv))))
    scores combined.


Definition blend_scores (py : F64.summation)
           (score_dicts : Dict.t (Dict.t F64.t))
           (weights : Dict.t F64.t) : Dict.t F64.t :=
  let nw := norm_w py weights in
  fold_left
    (fun combined src =>
       let w := Dict.get_or nw (fst src) F64.zero in
       if F64.eqb w F64.zero then combined
       else add_source w combined (snd src))
    score_dicts [].



End RankBlender64.

(* ================================================================== *)
(** ** numpy: floats with infinities and NaN, sorting of arrays *)
(* ================================================================== *)

Module Float.

Inductive t : Type :=
| NegInf
| Fin (q : Q)
| PosInf
| NaN.

(** [np.isfinite]. *)
Definition isfinite (x : t) : bool :=
  match x with
  | Fin _ => true
  | _ => false
  end.

(** The order numpy sorts by: the usual order of the extended reals,
    with NaN after everything else. *)
Definition leb (a b : t) : bool :=
  match a, b with
  | _, NaN => true
  | NaN, _ => false
  | NegInf, _ => true
  | _, NegInf => false
  | _, PosInf => true
  | PosInf, _ => false
  | Fin x, Fin y => Qle_bool x y
  end.

Definition ltb (a b : t) : bool := negb (leb b a).

End Float.

Module Np.

(** The kind of the entries of an array, as far as the code depends on
    it: an array of a floating dtype stores [-np.inf], an array of an
    integer dtype raises OverflowError on it.  (Arrays of other kinds are
    outside the model.) *)
Inductive kind : Type :=
| floating
| integer.

(** An array as [np.load] returns it: the kind of its dtype, its shape
    and, when it is a matrix, the entry in row [i] and column [j]. *)
Record ndarray : Type := {
  dtype : kind;
  shape : list nat;
  at2 : nat -> nat -> Float.t
}.

Definition ndim (a : ndarray) : nat := List.length (shape a).

(** [a[i].copy()] for a matrix [a]: row [i], or IndexError when [i] is not
    a row.  (The loader admits matrices only.) *)
Definition row (a : ndarray) (i : nat) : Py.result (list Float.t) :=
  match shape a with
  | [n; m] =>
      if (i <? n)%nat then Py.Ok (map (at2 a i) (seq 0 m))
      else Py.Raise Py.IndexError
  | _ => Py.Raise Py.IndexError
  end.

(** [r[j] = v] on a one-dimensional array. *)
Fixpoint set_at (r : list Float.t) (j : nat) (v : Float.t)
  : Py.result (list Float.t) :=
  match r, j with
  | [], _ => Py.Raise Py.IndexError
  | _ :: t, O => Py.Ok (v :: t)
  | x :: t, S j' =>
      match set_at t j' v with
      | Py.Ok t' => Py.Ok (x :: t')
      | Py.Raise e => Py.Raise e
      end
  end.

(** [r[j] = -np.inf] on a row of an array of kind [k]: IndexError
    outside the row, and OverflowError on an integer array, which cannot
    hold an infinity. *)
Definition mask_at (k : kind) (r : list Float.t) (j : nat)
  : Py.result (list Float.t) :=
  r' <- set_at r j Float.NegInf ;;
  match k with
  | floating => Py.Ok r'
  | integer => Py.Raise Py.OverflowError
  end.

(** [np.argsort(a)]: indices that list the entries of [a] in ascending
    order, NaN last.  That is all numpy promises: its default sort is not
    stable, and the order in which it leaves equal entries depends on the
    length of the array and on the build (on the row 1, 1, 0, 0 a build
    with vectorized sorting returns 3, 2, 1, 0).  The definition takes
    the arrangement of an insertion sort, which is the one numpy returns
    for an array of two entries; the statements about the callers rely on
    the promise only and say nothing on the order of equal entries. *)
Definition argsort (a : list Float.t) : list nat :=
  map fst
    (Py.sorted (fun x y => Float.leb (snd x) (snd y)) (Py.enumerate a)).

(** [np.argpartition(a, kth)]: ValueError when [kth] is out of bounds for
    the array; otherwise indices arranged so that position [kth] holds
    what a sort would put there, no larger entry before it and no smaller
    one after it; numpy fixes neither the order within the two parts nor
    which of several equal entries go where.  A full ascending sort is
    such an arrangement, and is the one taken here. *)
Definition argpartition (a : list Float.t) (kth : Z)
  : Py.result (list nat) :=
  let n := Z.of_nat (List.length a) in
  if ((- n <=? kth) && (kth <? n))%Z then Py.Ok (argsort a)
  else Py.Raise Py.ValueError.

(** Indexing with an array of indices, [a[idx]], for indices in range. *)
Definition fancy {A : Type} (d : A) (a : list A) (idx : list nat) : list A :=
  map (fun j => nth j a d) idx.

End Np.

(* ================================================================== *)
(** ** Interaction table (ratings.csv after column normalization) *)
(* ================================================================== *)

Module Ratings.

(** One row of the table read with [dtype=str]: a missing cell is [None]
    (pandas' NaN).  [rating] holds what [pd.to_numeric(errors="coerce")]
    makes of the cell, [None] standing for NaN. *)
Record row : Type := {
  user_id : option string;
  item_id : option string;
  rating : option Q;
  timestamp : option string
}.

(** [str(x)] of a cell. *)
Definition str (c : option string) : string :=
  match c with
  | Some s => s
  | None => "nan"
  end.

(** The table with the optional columns it carries. *)
Record frame : Type := {
  has_rating : bool;
  has_timestamp : bool;
  rows : list row
}.

Definition row_of_user (u : string) (r : row) : bool :=
  match user_id r with
  | Some u' => String.eqb u u'
  | None => false
  end.

(** [df.groupby("user_id")]: the distinct user ids in sorted order, each
    with its rows in table order; rows without a user id are dropped. *)
Definition user_keys (rs : list row) : list string :=
  Py.sorted String.leb
    (Py.set_of (flat_map (fun r => match user_id r with
                                   | Some u => [u]
                                   | None => []
                                   end) rs)).

Definition groupby_user (rs : list row) : list (string * list row) :=
  map (fun u => (u, filter (row_of_user u) rs)) (user_keys rs).

End Ratings.

(* ================================================================== *)
(** ** services/api/app/services/cf_inference.py *)
(* ================================================================== *)

Module CF.

Import Ratings.

(** The three artifact files; [None] for a path that does not exist (or
    a file that cannot be read: the loader answers both alike).  The JSON
    lists hold the ids as [str] reads them. *)
Record cf_files : Type := {
  scores_npy : option Np.ndarray;
  user_ids_json : option (list string);
  item_ids_json : option (list string)
}.

Fixpoint shape_eqb (s1 s2 : list nat) : bool :=
  match s1, s2 with
  | [], [] => true
  | a :: r1, b :: r2 => (a =? b)%nat && shape_eqb r1 r2
  | _, _ => false
  end.

(** [{str(u): i for i, u in enumerate(user_ids)}], and likewise the
    reverse map [{v: k for k, v in idx_to_item.items()}]. *)
Definition index_of_ids (ids : list string) : Dict.t nat :=
  fold_left (fun d iu => Dict.set d (snd iu) (fst iu)) (Py.enumerate ids) [].

(** [_try_load_artifacts].  [idx_to_item], a dictionary keyed by
    [0 .. n-1], is the list of item ids itself. *)
Definition _try_load_artifacts (f : cf_files)
  : option (Np.ndarray * Dict.t nat * list string) :=
  match scores_npy f, user_ids_json f, item_ids_json f with
  | Some scores, Some user_ids, Some item_ids =>
      let user_to_idx := index_of_ids user_ids in
      let idx_to_item := item_ids in
      if negb (Np.ndim scores =? 2)%nat
         || negb (shape_eqb (Np.shape scores)
                            [List.length user_to_idx; List.length idx_to_item])
      then None
      else Some (scores, user_to_idx, idx_to_item)
  | _, _, _ => None
  end.

Record CFInference : Type := {
  scores : option Np.ndarray;
  user_to_idx : option (Dict.t nat);
  idx_to_item : option (list string);
  has_artifacts : bool;
  user_items : Dict.t (list string);
  item_pop : Dict.t Z;
  co_counts : Dict.t (Dict.t Z);
  item_to_idx : option (Dict.t nat)
}.

(** [user_items[str(uid)] = set(map(str, g["item_id"].tolist()))] for
    every group. *)
Definition build_user_items (rs : list row) : Dict.t (list string) :=
  fold_left
    (fun d g =>
       Dict.set d (fst g) (Py.set_of (map (fun r => str (item_id r)) (snd g))))
    (groupby_user rs) [].

(** [Series.value_counts().to_dict()]: occurrences per value, most
    frequent first. *)
Definition value_counts (xs : list string) : Dict.t Z :=
  Py.sorted (fun a b => (snd b <=? snd a)%Z)
    (fold_left (fun d x => Dict.set d x (Dict.get_or d x 0 + 1)%Z) xs []).

(** The inner loop over [j] for a fixed [i], [a = items_list[i]]. *)
Definition co_inner (a : string) (i : nat) (items_list : list string)
           (co : Dict.t (Dict.t Z)) : Dict.t (Dict.t Z) :=
  fold_left
    (fun co jb =>
       if (i =? fst jb)%nat then co
       else
         let acc := Dict.get_or co a [] in
         Dict.set co a
           (Dict.set acc (snd jb) (Dict.get_or acc (snd jb) 0 + 1)%Z))
    (Py.enumerate items_list) co.

(** The loop body for one user's item set. *)
Definition co_user (co : Dict.t (Dict.t Z)) (items_list : list string)
  : Dict.t (Dict.t Z) :=
  fold_left
    (fun co ia =>
       co_inner (snd ia) (fst ia) items_list (Dict.setdefault co (snd ia) []))
    (Py.enumerate items_list) co.

Definition build_co_counts (user_items : Dict.t (list string))
  : Dict.t (Dict.t Z) :=
  fold_left co_user (Dict.values user_items) [].

Definition option_bool {A : Type} (o : option A) : bool :=
  match o with
  | Some _ => true
  | None => false
  end.

(** [CFInference.__init__]. *)
Definition __init__ (f : cf_files) (ratings : list row) : CFInference :=
  let art := _try_load_artifacts f in
  let has := option_bool art in
  let ui := build_user_items ratings in
  {| scores := option_map (fun a => fst (fst a)) art;
     user_to_idx := option_map (fun a => snd (fst a)) art;
     idx_to_item := option_map snd art;
     has_artifacts := has;
     user_items := ui;
     item_pop := value_counts (map (fun r => str (item_id r)) ratings);
     co_counts := build_co_counts ui;
     item_to_idx := option_map (fun a => index_of_ids (snd a)) art |}.

(** The sort key [(-x[1], x[0])] on (item, count) pairs. *)
Definition pop_key_leb (x y : string * Z) : bool :=
  if (- snd x <? - snd y)%Z then true
  else if (- snd x =? - snd y)%Z then String.leb (fst x) (fst y)
       else false.

(** [_popular_only]. *)
Definition _popular_only (self : CFInference) (k : nat) : list string :=
  map fst (Py.take k (Py.sorted pop_key_leb (item_pop self))).

(** The sort key [(-x[1], x[0])] on (item, score) pairs: the key of [x]
    is smaller than the key of [y] when the first components differ and
    that of [x] is the smaller one, or they are equal and the item id of
    [x] is the smaller one.  [sorted] puts [x], which stands before [y]
    in the list, before [y] unless the key of [y] is the smaller one. *)
Definition score_key_lt (x y : string * F64.t) : bool :=
  match F64.compare (F64.neg (snd x)) (F64.neg (snd y)) with
  | Some Lt => true
  | Some Eq => String.ltb (fst x) (fst y)
  | _ => false
  end.

Definition score_key_leb (x y : string * F64.t) : bool :=
  negb (score_key_lt y x).

(** [scores[b] = scores.get(b, 0.0) + float(c)] for the unseen
    neighbours [b] of one seen item. *)
Definition add_neighbours (seen : list string) (scores : Dict.t F64.t)
           (neigh : Dict.t Z) : Dict.t F64.t :=
  fold_left
    (fun sc bc =>
       if Py.mem (fst bc) seen then sc
       else Dict.set sc (fst bc)
                     (F64.add (Dict.get_or sc (fst bc) F64.zero)
                              (F64.of_int (snd bc))))
    neigh scores.

(** [scores[it] = scores.get(it, 0.0) + 0.01 * float(pop)] for the unseen
    items. *)
Definition add_prior (seen : list string) (scores : Dict.t F64.t)
           (pop : Dict.t Z) : Dict.t F64.t :=
  fold_left
    (fun sc ip =>
       if Py.mem (fst ip) seen then sc
       else Dict.set sc (fst ip)
                     (F64.add (Dict.get_or sc (fst ip) F64.zero)
                              (F64.mul F64.c_0_01 (F64.of_int (snd ip)))))
    pop scores.

(** The score dictionary [_cooccurrence_recs] ranks. *)
Definition cooccurrence_scores (self : CFInference) (seen : list string)
  : Dict.t F64.t :=
  let scores :=
    fold_left
      (fun sc a => add_neighbours seen sc (Dict.get_or (co_counts self) a []))
      seen [] in
  add_prior seen scores (item_pop self).

(** [_cooccurrence_recs]. *)
Definition _cooccurrence_recs (self : CFInference) (user_id : string)
           (k : nat) : list string :=
  let seen := Dict.get_or (user_items self) user_id [] in
  match seen with
  | [] => _popular_only self k
  | _ :: _ =>
      map fst
        (Py.take k (Py.sorted score_key_leb (cooccurrence_scores self seen)))
  end.

(** Use of an attribute that [__init__] left at [None]. *)
Definition attr {A : Type} (o : option A) : Py.result A :=
  match o with
  | Some a => Py.Ok a
  | None => Py.Raise Py.TypeError
  end.

(** The masking loop: [row[j] = -np.inf] for the column of every seen
    item that has one; [dt] is the kind of the score matrix, which its
    rows share. *)
Fixpoint mask_seen (dt : Np.kind) (i2i : Dict.t nat) (seen : list string)
         (row : list Float.t) : Py.result (list Float.t) :=
  match seen with
  | [] => Py.Ok row
  | it :: rest =>
      match Dict.get i2i it with
      | Some j => row' <- Np.mask_at dt row j ;; mask_seen dt i2i rest row'
      | None => mask_seen dt i2i rest row
      end
  end.

(** [[idx_to_item[int(j)] for j in topk_idx if np.isfinite(row[int(j)])]]. *)
Fixpoint collect (i2item : list string) (row : list Float.t)
         (idx : list nat) : Py.result (list string) :=
  match idx with
  | [] => Py.Ok []
  | j :: rest =>
      if Float.isfinite (nth j row Float.NaN) then
        match nth_error i2item j with
        | Some it => r <- collect i2item row rest ;; Py.Ok (it :: r)
        | None => Py.Raise Py.KeyError
        end
      else collect i2item row rest
  end.

(** [_recs_from_artifacts]. *)
Definition _recs_from_artifacts (self : CFInference) (user_id : string)
           (k : nat) : Py.result (list string) :=
  u2i <- attr (user_to_idx self) ;;
  match Dict.get u2i user_id with
  | None => Py.Ok (_popular_only self k)
  | Some uidx =>
      sc <- attr (scores self) ;;
      row <- Np.row sc uidx ;;
      let seen := Dict.get_or (user_items self) user_id [] in
      row <- match seen with
             | [] => Py.Ok row
             | _ :: _ =>
                 i2i <- attr (item_to_idx self) ;;
                 mask_seen (Np.dtype sc) i2i seen row
             end ;;
      part <- Np.argpartition row (- Z.of_nat k) ;;
      let topk_idx := Py.last_n k part in
      let topk_idx :=
        Np.fancy 0%nat topk_idx
                 (rev (Np.argsort (Np.fancy Float.NaN row topk_idx))) in
      i2item <- attr (idx_to_item self) ;;
      collect i2item row topk_idx
  end.

(** [CFInference.recommend_for_user]; each result is the dictionary
    [{"item_id": it}]. *)
Definition recommend_for_user (self : CFInference) (user_id : string)
           (k : nat) : list (Dict.t string) :=
  let recs :=
    if has_artifacts self then
      match _recs_from_artifacts self user_id k with
      | Py.Ok r => r
      | Py.Raise _ => _cooccurrence_recs self user_id k
      end
    else _cooccurrence_recs self user_id k in
  map (fun it => [("item_id", it)]) (Py.take k recs).

(** The item ids of a result list. *)
Definition item_ids_of (recs : list (Dict.t string)) : list string :=
  map (fun d => Dict.get_or d "item_id" "") recs.

End CF.

(* ------------------------------------------------------------------ *)
(** *** The module-level entry point of cf_inference.py *)

(** How Python binds the arguments of a call to the parameters of a
    function: positional arguments in order, then keywords, then
    defaults; TypeError for a surplus, an unknown or repeated name, or a
    parameter left without a value. *)
Module PyCall.

Inductive value : Type :=
| VStr (s : string)
| VInt (z : Z)
| VObj (o : CF.CFInference).

Record param : Type := {
  pname : string;
  pdefault : option value
}.

Fixpoint bind_pos (ps : list param) (pos : list value) (acc : Dict.t value)
  : Py.result (Dict.t value) :=
  match pos, ps with
  | [], _ => Py.Ok acc
  | _ :: _, [] => Py.Raise Py.TypeError
  | v :: pos', p :: ps' => bind_pos ps' pos' (Dict.set acc (pname p) v)
  end.

Fixpoint bind_kw (ps : list param) (kw : list (string * value))
         (acc : Dict.t value) : Py.result (Dict.t value) :=
  match kw with
  | [] => Py.Ok acc
  | (n, v) :: kw' =>
      if negb (existsb (fun p => String.eqb n (pname p)) ps)
      then Py.Raise Py.TypeError
      else if Dict.has acc n then Py.Raise Py.TypeError
           else bind_kw ps kw' (Dict.set acc n v)
  end.

Fixpoint fill_defaults (ps : list param) (acc : Dict.t value)
  : Py.result (Dict.t value) :=
  match ps with
  | [] => Py.Ok acc
  | p :: ps' =>
      if Dict.has acc (pname p) then fill_defaults ps' acc
      else match pdefault p with
           | Some d => fill_defaults ps' (Dict.set acc (pname p) d)
           | None => Py.Raise Py.TypeError
           end
  end.

Definition bind_args (ps : list param) (pos : list value)
           (kw : list (string * value)) : Py.result (Dict.t value) :=
  acc <- bind_pos ps pos [] ;;
  acc <- bind_kw ps kw acc ;;
  fill_defaults ps acc.

End PyCall.

Module CFModule.

Import PyCall.

(** [def recommend_for_user(self, user_id: str, k: int = 10)]. *)
Definition method_params : list param :=
  [ {| pname := "self"; pdefault := None |};
    {| pname := "user_id"; pdefault := None |};
    {| pname := "k"; pdefault := Some (VInt 10) |} ].

(** [str(user_id)]; the text Python prints for an object carries its
    address and is not modelled beyond a fixed placeholder. *)
Definition str_of (v : value) : string :=
  match v with
  | VStr s => s
  | VInt z => DecimalString.NilZero.string_of_int (Z.to_int z)
  | VObj _ => "<CFInference object>"
  end.

(** A call of the function object [CFInference.recommend_for_user]; its
    body uses the attributes of [self]. *)
Definition call_method (pos : list value) (kw : list (string * value))
  : Py.result (list (Dict.t string)) :=
  args <- bind_args method_params pos kw ;;
  match Dict.get args "self", Dict.get args "user_id", Dict.get args "k" with
  | Some (VObj self), Some u, Some (VInt k) =>
      Py.Ok (CF.recommend_for_user self (str_of u) (Z.to_nat k))
  | Some (VObj _), _, _ => Py.Raise Py.TypeError
  | _, _, _ => Py.Raise Py.AttributeError
  end.

(** [obj.recommend_for_user(user_id, k=k)] on an instance: the bound
    method passes [obj] as the first positional argument. *)
Definition bound_recommend_for_user (obj : CF.CFInference) (user_id : string)
           (k : Z) : Py.result (list (Dict.t string)) :=
  call_method [VObj obj; VStr user_id] [("k", VInt k)].

(** The module-level [recommend_for_user]: [CFRecommender] is bound to the
    class [CFInference], so [CFRecommender.recommend_for_user] is the
    plain function and nothing is passed for [self]. *)
Definition recommend_for_user (user_id : string) (k : Z)
  : Py.result (list (Dict.t string)) :=
  call_method [VStr user_id] [("k", VInt k)].

End CFModule.

(* ================================================================== *)
(** ** services/api/app/services/embedding_store.py *)
(* ================================================================== *)

Module Embedding.

(** The loaded store.  [emb] is the number of rows of the vector table;
    [id_map] is keyed by row index (the keys the indexer writes are the
    row numbers 0, 1, ...); [nn], the fitted sklearn index, is
    represented by the order in which it ranks all rows by cosine
    distance from the vector of a given row. *)
Record EmbeddingStore : Type := {
  emb : option nat;
  id_map : list (nat * string);
  nn : option (nat -> list nat)
}.

Fixpoint id_map_get (m : list (nat * string)) (i : nat) : option string :=
  match m with
  | [] => None
  | (i', v) :: r => if (i =? i')%nat then Some v else id_map_get r i
  end.

(** [rev = {v: k for k, v in self.id_map.items()}]. *)
Definition rev_map (m : list (nat * string)) : Dict.t nat :=
  fold_left (fun d kv => Dict.set d (snd kv) (fst kv)) m [].

(** [NearestNeighbors.kneighbors(vec, n_neighbors=m)] for the vector of row
    [idx]: ValueError unless [0 < m <= n_samples]. *)
Definition kneighbors (order : nat -> list nat) (n_samples idx m : nat)
  : Py.result (list nat) :=
  if ((0 <? m) && (m <=? n_samples))%nat then Py.Ok (firstn m (order idx))
  else Py.Raise Py.ValueError.

(** The loop over [indices[0]]. *)
Fixpoint skip_self (m : list (nat * string)) (idx k : nat)
         (indices : list nat) (out : list string) : Py.result (list string) :=
  match indices with
  | [] => Py.Ok out
  | i :: rest =>
      if (i =? idx)%nat then skip_self m idx k rest out
      else match id_map_get m i with
           | None => Py.Raise Py.KeyError
           | Some v =>
               let out' := out ++ [v] in
               if (k <=? List.length out')%nat then Py.Ok out'
               else skip_self m idx k rest out'
           end
  end.

(** [EmbeddingStore.similar]. *)
Definition similar (self : EmbeddingStore) (item_id : string) (k : nat)
  : Py.result (list string) :=
  match emb self, nn self with
  | Some n_rows, Some order =>
      match Dict.get (rev_map (id_map self)) item_id with
      | None => Py.Ok []
      | Some idx =>
          if (idx <? n_rows)%nat then
            indices <- kneighbors order n_rows idx (Nat.min (k + 1) n_rows) ;;
            skip_self (id_map self) idx k indices []
          else Py.Raise Py.IndexError
      end
  | _, _ => Py.Ok []
  end.

(** [_load]: both files present, or similarity is disabled. *)
Definition _load (vectors : option (nat * (nat -> list nat)))
           (mapping : option (list (nat * string))) : EmbeddingStore :=
  match vectors, mapping with
  | Some (n, order), Some m =>
      {| emb := Some n; id_map := m; nn := Some order |}
  | _, _ => {| emb := None; id_map := []; nn := None |}
  end.

End Embedding.

(* ================================================================== *)
(** ** services/api/app/services/hybrid_ranker.py *)
(* ================================================================== *)

Module Hybrid.

(** A row of [ItemsRepo.df]. *)
Record item_row : Type := {
  item_id : string;
  title : string;
  description : string;
  text : string
}.

(** A result dictionary; [score] is [None] for neighbour lists. *)
Record hit : Type := {
  hit_item_id : string;
  hit_title : string;
  hit_description : string;
  hit_score : option Float.t
}.

Definition is_alnum (c : ascii) : bool :=
  let n := nat_of_ascii c in
  ((48 <=? n) && (n <=? 57) || (65 <=? n) && (n <=? 90)
   || (97 <=? n) && (n <=? 122))%nat.

Definition lower_char (c : ascii) : ascii :=
  let n := nat_of_ascii c in
  if ((65 <=? n) && (n <=? 90))%nat then ascii_of_nat (n + 32) else c.

(** [str.lower] as it acts on ASCII text: the letters A-Z are lowered,
    every other character is kept.  (On other text Python lowers the
    non-ASCII letters as well, and two of them, U+0130 and U+212A, lower
    to text with an ASCII letter; statements that depend on it are made
    for ASCII text, [is_ascii].) *)
Fixpoint lower (s : string) : string :=
  match s with
  | EmptyString => EmptyString
  | String c r => String (lower_char c) (lower r)
  end.

(** The text holds ASCII characters only. *)
Fixpoint is_ascii (s : string) : bool :=
  match s with
  | EmptyString => true
  | String c r => (nat_of_ascii c <? 128)%nat && is_ascii r
  end.

(** [TOKENIZER.findall(text)] for the pattern [[A-Za-z0-9]+]: the maximal
    runs of letters and digits; [cur] is the run being read. *)
Fixpoint findall (s : string) (cur : string) : list string :=
  match s with
  | EmptyString =>
      match cur with
      | EmptyString => []
      | _ => [cur]
      end
  | String c r =>
      if is_alnum c then findall r (cur ++ String c EmptyString)
      else match cur with
           | EmptyString => findall r EmptyString
           | _ => cur :: findall r EmptyString
           end
  end.

(** [_tokenize]. *)
Definition _tokenize (text : string) : list string :=
  map lower (findall text EmptyString).

(** [" ".join(tokens)]. *)
Fixpoint join (sep : string) (l : list string) : string :=
  match l with
  | [] => EmptyString
  | [x] => x
  | x :: r => x ++ sep ++ join sep r
  end.

(** [pat in s]. *)
Fixpoint contains (pat s : string) : bool :=
  if String.prefix pat s then true
  else match s with
       | EmptyString => false
       | String _ r => contains pat r
       end.

(** The scoring function of rank_bm25's [BM25Okapi]: for an indexed
    corpus and a query, the score of the document at a given position. *)
Definition okapi : Type := list (list string) -> list string -> nat -> Float.t.

Record HybridRanker : Type := {
  items_df : list item_row;
  items_by_id : Dict.t item_row;
  bm25 : option (list string -> list Float.t);
  embed : Embedding.EmbeddingStore
}.

(** [ItemsRepo._by_id]. *)
Definition _by_id (df : list item_row) : Dict.t item_row :=
  fold_left (fun d r => Dict.set d (item_id r) r) df [].

(** [HybridRanker.__init__]; [get_scores] returns one score per indexed
    document.  (On a catalog none of whose rows has a token the
    constructor of BM25Okapi divides by zero and no ranker is built; the
    record describes a ranker that was built.) *)
Definition __init__ (bm : okapi) (df : list item_row)
           (store : Embedding.EmbeddingStore) : HybridRanker :=
  let tokenized_corpus := map (fun r => _tokenize (text r)) df in
  {| items_df := df;
     items_by_id := _by_id df;
     bm25 := match tokenized_corpus with
             | [] => None
             | _ :: _ =>
                 Some (fun q => map (bm tokenized_corpus q)
                                    (seq 0 (List.length tokenized_corpus)))
             end;
     embed := store |}.

Definition hit_of (r : item_row) (s : option Float.t) : hit :=
  {| hit_item_id := item_id r; hit_title := title r;
     hit_description := description r; hit_score := s |}.

(** The result loop of [search]: [df.iloc[i]] raises IndexError outside
    the table. *)
Fixpoint results_of (df : list item_row) (scores : list Float.t)
         (top_idx : list nat) : Py.result (list hit) :=
  match top_idx with
  | [] => Py.Ok []
  | i :: rest =>
      match nth_error df i with
      | None => Py.Raise Py.IndexError
      | Some r =>
          out <- results_of df scores rest ;;
          Py.Ok (hit_of r (Some (nth i scores Float.NaN)) :: out)
      end
  end.

(** [HybridRanker.search]. *)
Definition search (self : HybridRanker) (query : string) (k : nat)
  : Py.result (list hit) :=
  let q_tokens := _tokenize query in
  match q_tokens with
  | [] => Py.Ok []
  | _ :: _ =>
      match bm25 self with
      | None =>
          let sub :=
            Py.take k (filter (fun r => contains (join " " q_tokens) (text r))
                              (items_df self)) in
          Py.Ok (map (fun r => hit_of r (Some (Float.Fin 0))) sub)
      | Some get_scores =>
          let scores := get_scores q_tokens in
          match scores with
          | [] => Py.Ok []
          | _ :: _ =>
              let top_idx := Py.take k (rev (Np.argsort scores)) in
              results_of (items_df self) scores top_idx
          end
      end
  end.

(** [HybridRanker.similar]. *)
Definition similar (self : HybridRanker) (item_id : string) (k : nat)
  : Py.result (list hit) :=
  neigh_ids <- Embedding.similar (embed self) item_id k ;;
  Py.Ok (flat_map (fun nid => match Dict.get (items_by_id self) nid with
                              | Some r => [hit_of r None]
                              | None => []
                              end) neigh_ids).

End Hybrid.

(* ================================================================== *)
(** ** services/api/app/services/eval.py: the hold-out split *)
(* ================================================================== *)

Module Eval.

Import Ratings.

(** The order [sort_values("timestamp")] puts the rows in: the column
    holds strings (the table is read with [dtype=str] and only [rating]
    is converted), missing values last. *)
Definition ts_leb (a b : row) : bool :=
  match timestamp a, timestamp b with
  | _, None => true
  | None, Some _ => false
  | Some x, Some y => String.leb x y
  end.

Definition rating_notna (r : row) : bool :=
  match rating r with
  | Some _ => true
  | None => false
  end.

(** [rating >= 4.0]; false on NaN. *)
Definition rating_ge4 (r : row) : bool :=
  match rating r with
  | Some q => Qle_bool 4 q
  | None => false
  end.

(** The test row of one group.  [pick n] is the position that
    [sample(1, random_state=42)] draws in a frame of [n] rows.
    [sort_values("timestamp")] is taken as a stable sort; pandas' default
    sort can leave another of several rows with the same last timestamp
    at the end, and the statements on the hold-out ask only for a row
    whose timestamp is maximal. *)
Definition test_row (pick : nat -> nat) (df : frame) (g : list row)
  : option row :=
  if has_timestamp df then last (map Some (Py.sorted ts_leb g)) None
  else if has_rating df && existsb rating_notna g then
         let pos := if existsb rating_ge4 g then filter rating_ge4 g else g in
         nth_error pos (pick (List.length pos))
       else nth_error g (pick (List.length g)).

(** [_choose_holdout]. *)
Definition _choose_holdout (pick : nat -> nat) (df : frame)
  : list (string * string) :=
  flat_map
    (fun ug =>
       if (List.length (snd ug) <? 2)%nat then []
       else match test_row pick df (snd ug) with
            | Some r => [(fst ug, str (item_id r))]
            | None => []
            end)
    (groupby_user (rows df)).

(** [evaluate_cf] up to the hold-out set it goes on to score
    ([users_limit] not given): ValueError when the set is empty. *)
Definition evaluate_cf_holdout (pick : nat -> nat) (df : frame)
  : Py.result (list (string * string)) :=
  match _choose_holdout pick df with
  | [] => Py.Raise Py.ValueError
  | h :: t => Py.Ok (h :: t)
  end.

End Eval.

(* ================================================================== *)
(** ** What the design document says, in the document's own terms *)
(* ================================================================== *)

Module Design.

Import Ratings.

(** Global popularity of an item: the number of interactions with it. *)
Definition popularity (rs : list row) (it : string) : Z :=
  Z.of_nat (List.length (filter (fun r => String.eqb it (str (item_id r))) rs)).

(** The item occurs in the interaction set of the user. *)
Definition interacted (rs : list row) (u it : string) : bool :=
  existsb (fun r => row_of_user u r && String.eqb it (str (item_id r))) rs.

(** The items of a user's interaction set, each once. *)
Definition seen_items (rs : list row) (u : string) : list string :=
  Py.set_of (map (fun r => str (item_id r)) (filter (row_of_user u) rs)).

(** Co-occurrence of two items: the number of users whose interaction
    set holds both. *)
Definition co_occurrence (rs : list row) (a b : string) : Z :=
  Z.of_nat (List.length (filter (fun u => interacted rs u a && interacted rs u b)
                                (user_keys rs))).

(** Total co-occurrence count of an item with the seen items of a
    user. *)
Definition co_total (rs : list row) (u b : string) : Z :=
  fold_right Z.add 0%Z (map (fun a => co_occurrence rs a b) (seen_items rs u)).

(** Fallback score of an unseen item for a user, as the design document
    writes it: co-occurrence count + 0.01 x popularity, in exact
    arithmetic. *)
Definition exact_score (rs : list row) (u b : string) : Q :=
  inject_Z (co_total rs u b) + (1 # 100) * inject_Z (popularity rs b).

(** The same score as binary64 arithmetic gives it:
    [float(count) + 0.01 * float(popularity)], the product and the sum
    rounded. *)
Definition fallback_score (rs : list row) (u b : string) : F64.t :=
  F64.add (F64.of_int (co_total rs u b))
          (F64.mul F64.c_0_01 (F64.of_int (popularity rs b))).

(** [x] is ranked before [y]: higher score, or equal score and smaller
    item id. *)
Definition ranked_before (score : string -> F64.t) (x y : string) : Prop :=
  F64.ltb (score y) (score x) = true
  \/ (F64.eqb (score x) (score y) = true /\ String.ltb x y = true).

(** The order of the keys of a dictionary that an order [R] on its
    entries induces. *)
Definition key_order {V : Type} (d : Dict.t V)
           (R : string * V -> string * V -> Prop) (a b : string) : Prop :=
  exists va vb, In (a, va) d /\ In (b, vb) d /\ R (a, va) (b, vb).

(** [x] is more popular than [y], ties by item id ascending. *)
Definition more_popular (rs : list row) (x y : string) : Prop :=
  (popularity rs y < popularity rs x)%Z
  \/ (popularity rs x = popularity rs y /\ String.ltb x y = true).

(** The number of distinct items of the interaction table. *)
Definition n_items (rs : list row) : nat :=
  List.length (Py.set_of (map (fun r => str (item_id r)) rs)).

(** The order [sorted(..., key=lambda x: (-x[1], x[0]))] puts the
    entries of a dictionary in when its keys are distinct: larger value
    first, then smaller key; for integer and for float values. *)
Definition count_order (x y : string * Z) : Prop :=
  (snd y < snd x)%Z \/ (snd x = snd y /\ String.ltb (fst x) (fst y) = true).

Definition score_order (x y : string * F64.t) : Prop :=
  F64.ltb (snd y) (snd x) = true
  \/ (F64.eqb (snd x) (snd y) = true /\ String.ltb (fst x) (fst y) = true).

(** A user is eligible for the hold-out when it has two interactions or
    more. *)
Definition eligible (rs : list row) (u : string) : bool :=
  (2 <=? List.length (filter (row_of_user u) rs))%nat.

(** Decimal reading of a timestamp. *)
Fixpoint parse_dec (s : string) (acc : N) : option N :=
  match s with
  | EmptyString => Some acc
  | String c r =>
      let n := N_of_ascii c in
      if ((48 <=? n) && (n <=? 57))%N then parse_dec r (acc * 10 + (n - 48))%N
      else None
  end.

Definition epoch (r : row) : N :=
  match timestamp r with
  | Some s => match parse_dec s 0 with
              | Some n => n
              | None => 0
              end
  | None => 0%N
  end.

(** The chronologically latest interaction of a group. *)
Fixpoint latest (g : list row) : option row :=
  match g with
  | [] => None
  | r :: t =>
      match latest t with
      | Some r' => if (epoch r <? epoch r')%N then Some r' else Some r
      | None => Some r
      end
  end.

End Design.

(** What the design document's data model asks of a loaded embedding
    table: no item id under two rows, every key of the id map a row of
    the vector table, every row with an id, and a neighbour index that
    answers with rows of the table. *)
Module EmbeddingModel.

Fixpoint distinct (l : list string) : bool :=
  match l with
  | [] => true
  | x :: t => negb (Py.mem x t) && distinct t
  end.

Definition table_ok (st : Embedding.EmbeddingStore) : bool :=
  match Embedding.emb st, Embedding.nn st with
  | Some n, Some order =>
      distinct (map snd (Embedding.id_map st))
      && forallb (fun kv => (fst kv <? n)%nat) (Embedding.id_map st)
      && forallb (fun i => match Embedding.id_map_get (Embedding.id_map st) i with
                           | Some _ => true
                           | None => false
                           end) (seq 0 n)
      && forallb (fun idx => forallb (fun j => (j <? n)%nat) (order idx))
                 (seq 0 n)
  | _, _ => true
  end.

End EmbeddingModel.

(** Readings of the co-occurrence table and of its update. *)
Module CoTable.

(** [co_counts[a][b]], 0 when there is no such entry. *)
Definition count (co : Dict.t (Dict.t Z)) (a b : string) : Z :=
  Dict.get_or (Dict.get_or co a []) b 0%Z.

(** [acc = co.setdefault(a, {}); acc[b] = acc.get(b, 0) + 1]. *)
Definition bump (a b : string) (co : Dict.t (Dict.t Z)) : Dict.t (Dict.t Z) :=
  let acc := Dict.get_or co a [] in
  Dict.set co a (Dict.set acc b (Dict.get_or acc b 0 + 1)%Z).

(** Every inner dictionary has distinct keys, all of them items that
    [P] admits. *)
Definition inner_ok (P : string -> Prop) (co : Dict.t (Dict.t Z)) : Prop :=
  forall a, NoDup (Dict.keys (Dict.get_or co a []))
            /\ forall x, In x (Dict.keys (Dict.get_or co a [])) -> P x.

(** The number of items of the table the user has not seen. *)
Definition n_unseen (rs : list Ratings.row) (u : string) : nat :=
  List.length
    (filter (fun it => negb (Py.mem it (Design.seen_items rs u)))
            (Py.set_of (map (fun r => Ratings.str (Ratings.item_id r)) rs))).

End CoTable.

(** The masked score row of artifact mode, read off the artifact. *)
Module Masking.

(** Column [j] is masked for a user: the item id of the column is one the
    user has seen, and the column is the one the reverse map keeps for
    that id (the last one carrying it). *)
Definition masked (item_ids seen : list string) (j : nat) : bool :=
  match nth_error item_ids j with
  | Some it => Py.mem it seen && negb (Py.mem it (skipn (S j) item_ids))
  | None => false
  end.

(** The score of column [j] after masking. *)
Definition score (sc : Np.ndarray) (uidx : nat) (item_ids seen : list string)
           (j : nat) : Float.t :=
  if masked item_ids seen j then Float.NegInf else Np.at2 sc uidx j.

(** The user has seen an item of the artifact's item list, so that there
    is a column to mask. *)
Definition any_masked (item_ids seen : list string) : bool :=
  existsb (fun it => Py.mem it item_ids) seen.

(** Whether the masking loop writes any column: the user has seen an
    item that the reverse map knows. *)
Definition writes (i2i : Dict.t nat) (seen : list string) : bool :=
  existsb (fun it => Dict.has i2i it) seen.

(** Whether the masking loop writes column [j], read off the reverse
    map. *)
Definition hit (i2i : Dict.t nat) (seen : list string) (j : nat) : bool :=
  existsb (fun it => match Dict.get i2i it with
                     | Some j' => (j' =? j)%nat
                     | None => false
                     end) seen.

End Masking.

(* ================================================================== *)
(** ** Sample data for the statements about concrete inputs *)
(* ================================================================== *)

Module Sample.

Import Ratings.

Definition interaction (u it : string) : row :=
  {| user_id := Some u; item_id := Some it; rating := None;
     timestamp := None |}.

Definition stamped (u it ts : string) : row :=
  {| user_id := Some u; item_id := Some it; rating := None;
     timestamp := Some ts |}.

(** A matrix of floats, and a matrix of integers. *)
Definition matrix (entries : list (list Q)) : Np.ndarray :=
  {| Np.dtype := Np.floating;
     Np.shape := [List.length entries; List.length (hd [] entries)];
     Np.at2 := fun i j => Float.Fin (nth j (nth i entries []) 0%Q) |}.

Definition int_matrix (entries : list (list Z)) : Np.ndarray :=
  {| Np.dtype := Np.integer;
     Np.shape := [List.length entries; List.length (hd [] entries)];
     Np.at2 := fun i j => Float.Fin (inject_Z (nth j (nth i entries []) 0%Z)) |}.

Definition no_files : CF.cf_files :=
  {| CF.scores_npy := None; CF.user_ids_json := None;
     CF.item_ids_json := None |}.

(** One user row over the items A and B, B scored higher. *)
Definition files_u_AB : CF.cf_files :=
  {| CF.scores_npy := Some (matrix [[1; 2]]);
     CF.user_ids_json := Some ["u"];
     CF.item_ids_json := Some ["A"; "B"] |}.

(** A is the more popular item; the user "u" has no interaction. *)
Definition ratings_A_popular : list row :=
  [interaction "v" "A"; interaction "w" "A"; interaction "v" "B"].

End Sample.

Module SampleCatalog.

(** The two-item catalog of the design document's search scenario. *)
Definition catalog_AB : list Hybrid.item_row :=
  [ {| Hybrid.item_id := "A"; Hybrid.title := "Space Opera";
       Hybrid.description := "a galaxy far away";
       Hybrid.text := "space opera a galaxy far away" |};
    {| Hybrid.item_id := "B"; Hybrid.title := "Romance";
       Hybrid.description := "a love story";
       Hybrid.text := "romance a love story" |} ].

(** BM25Okapi scores every document 0.0 for a query none of whose tokens
    occurs in the corpus; this stands for it on such queries. *)
Definition okapi_no_match : Hybrid.okapi := fun _ _ _ => Float.Fin 0.

Definition no_embeddings : Embedding.EmbeddingStore :=
  Embedding._load None None.

(** An id map that lists the item A under both rows of a two-row vector
    table, as the indexer writes it for a catalog file in which the row
    of A is repeated; row 1 is nearest to itself, then row 0. *)
Definition store_A_twice : Embedding.EmbeddingStore :=
  Embedding._load (Some (2%nat, fun i => [i; (1 - i)%nat]))
                 (Some [(0%nat, "A"); (1%nat, "A")]).

(** Three rows with distinct ids; every row is nearest to itself, the
    others follow in index order. *)
Definition store_ABC : Embedding.EmbeddingStore :=
  Embedding._load
    (Some (3%nat, fun i => i :: filter (fun j => negb (j =? i)%nat) [0; 1; 2]%nat))
    (Some [(0%nat, "A"); (1%nat, "B"); (2%nat, "C")]).

End SampleCatalog.

Module SampleRatings.

Import Ratings.

(** Two interactions of one user, stamped with epoch seconds of the
    years 2000 and 2009 as they stand in the MovieLens tables. *)
Definition stamped_frame : frame :=
  {| has_rating := false;
     has_timestamp := true;
     rows := [ Sample.stamped "u1" "A" "964982703";
               Sample.stamped "u1" "B" "1260759144" ] |}.

End SampleRatings.

Module SampleArtifacts.


(** One user row of integer scores over A and B, for the user "v". *)
Definition files_int : CF.cf_files :=
  {| CF.scores_npy := Some (Sample.int_matrix [[1; 2]]%Z);
     CF.user_ids_json := Some ["v"];
     CF.item_ids_json := Some ["A"; "B"] |}.

(** An item list that names A under both columns of a 1 x 2 matrix. *)
Definition files_A_twice : CF.cf_files :=
  {| CF.scores_npy := Some (Sample.matrix [[1; 2]]);
     CF.user_ids_json := Some ["u"];
     CF.item_ids_json := Some ["A"; "A"] |}.

(** Three users and four items; "u1" has seen A and B. *)
Definition ratings_co : list Ratings.row :=
  [ Sample.interaction "u1" "A"; Sample.interaction "u1" "B";
    Sample.interaction "u2" "A"; Sample.interaction "u2" "C";
    Sample.interaction "u3" "B"; Sample.interaction "u3" "C";
    Sample.interaction "u3" "D" ].

(** The user "t" has seen A.  B occurs once together with A and has
    thirteen interactions, C never occurs with A and has a hundred and
    thirteen: count + 0.01 x popularity is 1.13 for both. *)
Definition ratings_prior : list Ratings.row :=
  [ Sample.interaction "t" "A"; Sample.interaction "y" "A";
    Sample.interaction "y" "B" ]
  ++ repeat (Sample.interaction "yy" "B") 12
  ++ repeat (Sample.interaction "z" "C") 113.

End SampleArtifacts.

Module SampleBlend.


(** A lexical, a CF and a vector weight, the last one negative. *)
Definition weights : Dict.t F64.t :=
  [("lex", F64.literal 1 10); ("cf", F64.literal 3 10);
   ("vec", F64.neg F64.one)].


End SampleBlend.

(* ================================================================== *)
(** ** Column normalization of ratings.csv (eval.py and cf_inference.py) *)
(* ================================================================== *)

(** The header of the table is the list of its column names; the
    normalizers only rename columns, so they are given by what they do to
    the header.  [str.lower] is the ASCII lowering of [Hybrid.lower]. *)
Module Columns.

(** [lower_to_orig = {c.lower(): c for c in df.columns}]. *)
Definition lower_to_orig (columns : list string) : Dict.t string :=
  fold_left (fun d c => Dict.set d (Hybrid.lower c) c) columns [].

(** The local function [pick]: the column of the first candidate whose
    lowered name is a key of the map. *)
Fixpoint pick (m : Dict.t string) (cands : list string) : option string :=
  match cands with
  | [] => None
  | c :: rest =>
      match Dict.get m (Hybrid.lower c) with
      | Some orig => Some orig
      | None => pick m rest
      end
  end.

Definition user_cands : list string :=
  ["user_id"; "userid"; "userId"; "userID"; "UserId"; "UserID"; "user"].

Definition item_cands : list string :=
  ["item_id"; "itemid"; "itemId"; "itemID"; "movieId"; "movie_id"; "book_id";
   "productId"; "product_id"; "item"].

Definition rating_cands : list string :=
  ["rating"; "Rating"; "score"; "Score"; "stars"].

Definition ts_cands : list string := ["timestamp"; "Timestamp"; "time"; "ts"].

(** [if col: rename_map[col] = name]. *)
Definition set_found (rename_map : Dict.t string) (col : option string)
           (name : string) : Dict.t string :=
  match col with
  | Some c => Dict.set rename_map c name
  | None => rename_map
  end.

(** [df.rename(columns=rename_map)], on the header. *)
Definition rename (rename_map : Dict.t string) (columns : list string)
  : list string :=
  map (fun c => Dict.get_or rename_map c c) columns.

End Columns.

(** [_normalize_ratings_columns] of eval.py. *)
Module EvalColumns.

Import Columns.

Definition _normalize_ratings_columns (columns : list string)
  : Py.result (list string) :=
  let m := lower_to_orig columns in
  let user_col := pick m user_cands in
  let item_col := pick m item_cands in
  let rating_col := pick m rating_cands in
  let ts_col := pick m ts_cands in
  match user_col, item_col with
  | Some u, Some i =>
      let rename_map := Dict.set (Dict.set [] u "user_id") i "item_id" in
      let rename_map := set_found rename_map rating_col "rating" in
      let rename_map := set_found rename_map ts_col "timestamp" in
      Py.Ok (rename rename_map columns)
  | _, _ => Py.Raise Py.ValueError
  end.

End EvalColumns.

(** [_normalize_ratings_columns] of cf_inference.py. *)
Module CFColumns.

Import Columns.

Definition _normalize_ratings_columns (columns : list string)
  : Py.result (list string) :=
  let m := lower_to_orig columns in
  let user_col := pick m user_cands in
  let item_col := pick m item_cands in
  let rating_col := pick m rating_cands in
  match user_col, item_col with
  | Some u, Some i =>
      let rename_map := Dict.set (Dict.set [] u "user_id") i "item_id" in
      let rename_map := set_found rename_map rating_col "rating" in
      Py.Ok (rename rename_map columns)
  | _, _ => Py.Raise Py.ValueError
  end.

End CFColumns.

(* ================================================================== *)
(** ** services/api/app/repositories/items_repo.py *)
(* ================================================================== *)

Module ItemsRepo.

(** The characters [str.strip] removes, among the ASCII ones. *)
Definition is_space (c : ascii) : bool :=
  let n := nat_of_ascii c in
  ((n =? 32) || (9 <=? n) && (n <=? 13) || (28 <=? n) && (n <=? 31))%nat.

Fixpoint lstrip (s : string) : string :=
  match s with
  | EmptyString => EmptyString
  | String c r => if is_space c then lstrip r else s
  end.

Fixpoint rstrip (s : string) : string :=
  match s with
  | EmptyString => EmptyString
  | String c r =>
      match rstrip r with
      | EmptyString => if is_space c then EmptyString else String c EmptyString
      | r' => String c r'
      end
  end.

(** [s.strip()]. *)
Definition strip (s : string) : string := rstrip (lstrip s).

(** The [text] cell [__init__] adds to a row:
    [(title + " " + description).strip().lower()]. *)
Definition text_of (title description : string) : string :=
  Hybrid.lower (strip (title ++ " " ++ description)).

(** The row of the normalized table for a title and a description. *)
Definition row_of (item_id title description : string) : Hybrid.item_row :=
  {| Hybrid.item_id := item_id; Hybrid.title := title;
     Hybrid.description := description;
     Hybrid.text := text_of title description |}.

(** A value of [_by_id]. *)
Record item : Type := {
  item_id : string;
  title : string;
  description : string
}.

Definition item_of (r : Hybrid.item_row) : item :=
  {| item_id := Hybrid.item_id r; title := Hybrid.title r;
     description := Hybrid.description r |}.

(** [get_item]. *)
Definition get_item (df : list Hybrid.item_row) (item_id : string)
  : option item :=
  option_map item_of (Dict.get (Hybrid._by_id df) item_id).

(** [all_items]. *)
Definition all_items (df : list Hybrid.item_row) : list item :=
  map item_of (Dict.values (Hybrid._by_id df)).

End ItemsRepo.

(* ================================================================== *)
(** ** services/api/app/services/lexical_store.py and the tokenizer of
       the indexer (main.py) *)
(* ================================================================== *)

Module Lexical.

Definition is_lower_alnum (c : ascii) : bool :=
  let n := nat_of_ascii c in
  ((48 <=? n) && (n <=? 57) || (97 <=? n) && (n <=? 122))%nat.

(** [re.findall(r"[a-z0-9]+", s)]; [cur] is the run being read. *)
Fixpoint findall (s : string) (cur : string) : list string :=
  match s with
  | EmptyString =>
      match cur with
      | EmptyString => []
      | _ => [cur]
      end
  | String c r =>
      if is_lower_alnum c then findall r (cur ++ String c EmptyString)
      else match cur with
           | EmptyString => findall r EmptyString
           | _ => cur :: findall r EmptyString
           end
  end.

(** [simple_tokenize]. *)
Definition simple_tokenize (text : string) : list string :=
  findall (Hybrid.lower text) EmptyString.

(** The document [build_lexical] indexes for a row:
    [simple_tokenize(f"{r['title']} {r['description']}")]. *)
Definition doc_of (title description : string) : list string :=
  simple_tokenize (title ++ " " ++ description).

(** The loaded index of lexical_store.py: the scoring function of the
    pickled BM25 object, which gives one score per indexed document, and
    the ids of the documents. *)
Record LexicalStore : Type := {
  bm25 : option (list string -> list Q);
  id_list : list string
}.

(** The dictionary comprehension of [search],
    [{id_list[i]: float(scores[i]) for i in top_idx if scores[i] > 0}]. *)
Fixpoint collect (ids : list string) (scores : list Q) (top_idx : list nat)
         (d : Dict.t Q) : Py.result (Dict.t Q) :=
  match top_idx with
  | [] => Py.Ok d
  | i :: rest =>
      if Qle_bool (nth i scores 0) 0 then collect ids scores rest d
      else match nth_error ids i with
           | Some id => collect ids scores rest (Dict.set d id (nth i scores 0))
           | None => Py.Raise Py.IndexError
           end
  end.

(** [LexicalStore.search]; [scores.min()] raises ValueError on an empty
    array. *)
Definition search (self : LexicalStore) (query : string) (k : nat)
  : Py.result (Dict.t Q) :=
  match bm25 self with
  | None => Py.Ok []
  | Some get_scores =>
      match get_scores (simple_tokenize query) with
      | [] => Py.Raise Py.ValueError
      | s0 :: rest =>
          let lo := fold_left Qmin rest s0 in
          let hi := fold_left Qmax rest s0 in
          let scores :=
            map (fun s => (s - lo) / (hi - lo + (1 # 1000000000)))
                (s0 :: rest) in
          let top_idx :=
            Py.take (k * 2) (rev (Np.argsort (map Float.Fin scores))) in
          collect (id_list self) scores top_idx []
      end
  end.

End Lexical.

(* ================================================================== *)
(** ** common/metrics.py *)
(* ================================================================== *)

Module Metrics.

(** [precision_at_k]; [relevant] is a set. *)
Definition precision_at_k (recommended relevant : list string) (k : nat) : Q :=
  let rec := Py.take k recommended in
  let hits := List.length (filter (fun x => Py.mem x relevant) rec) in
  inject_Z (Z.of_nat hits)
  / inject_Z (Z.of_nat (Nat.max 1 (List.length rec))).

End Metrics.

(* ================================================================== *)
(** ** eval.py: average precision of one user's list *)
(* ================================================================== *)

Module EvalMetrics.

(** The loop of [_ap_at_k] over [enumerate(recs[:k], start=1)]; [i] is
    the position of the head of [recs]. *)
Fixpoint ap_loop (true_item : string) (recs : list string) (i : Z)
         (score : Q) (hit_count : Z) : Q * Z :=
  match recs with
  | [] => (score, hit_count)
  | r :: rest =>
      if String.eqb r true_item then
        let hit_count := (hit_count + 1)%Z in
        ap_loop true_item rest (i + 1)%Z
                (score + inject_Z hit_count / inject_Z i)%Q hit_count
      else ap_loop true_item rest (i + 1)%Z score hit_count
  end.

(** [_ap_at_k]. *)
Definition _ap_at_k (true_item : string) (recs : list string) (k : nat) : Q :=
  let (score, hit_count) := ap_loop true_item (Py.take k recs) 1 0 0 in
  if (hit_count =? 0)%Z then 0%Q else (score / inject_Z hit_count)%Q.

End EvalMetrics.

(* ################################################################## *)
(** * Properties *)
(* ################################################################## *)

(* ================================================================== *)
(** ** Orders *)
(* ================================================================== *)

Module OrderFacts.

Lemma string_ltb_lt (x y : string) :
  String.ltb x y = true <-> String_as_OT.lt x y.
Proof.
  unfold String.ltb. rewrite <- String_as_OT.cmp_lt.
  unfold String_as_OT.cmp.
  destruct (String.compare x y); split; intro H; congruence.
Qed.

Lemma string_ltb_trans (x y z : string) :
  String.ltb x y = true -> String.ltb y z = true -> String.ltb x z = true.
Proof.
  rewrite !string_ltb_lt. apply String_as_OT.lt_trans.
Qed.

Lemma string_leb_neq_ltb (x y : string) :
  String.leb x y = true -> x <> y -> String.ltb x y = true.
Proof.
  unfold String.leb, String.ltb. intros H Hne.
  destruct (String.compare x y) eqn:E; try reflexivity; try discriminate.
  apply String.compare_eq_iff in E. contradiction.
Qed.

Lemma string_leb_false_ltb (x y : string) :
  String.leb x y = false -> String.ltb y x = true.
Proof.
  unfold String.leb, String.ltb. rewrite (String.compare_antisym x y).
  destruct (String.compare y x); simpl; congruence.
Qed.

Lemma string_ltb_leb (x y : string) :
  String.ltb x y = true -> String.leb x y = true.
Proof.
  unfold String.leb, String.ltb. destruct (String.compare x y); congruence.
Qed.

Lemma float_leb_total (a b : Float.t) :
  Float.leb a b = true \/ Float.leb b a = true.
Proof.
  destruct a as [|x| |], b as [|y| |]; simpl; auto.
  rewrite !Qle_bool_iff. destruct (Qlt_le_dec x y) as [H|H]; auto.
  left. now apply Qlt_le_weak.
Qed.

Lemma float_leb_trans (a b c : Float.t) :
  Float.leb a b = true -> Float.leb b c = true -> Float.leb a c = true.
Proof.
  destruct a as [|x| |], b as [|y| |], c as [|z| |]; simpl;
    try reflexivity; try discriminate.
  rewrite !Qle_bool_iff. apply Qle_trans.
Qed.

End OrderFacts.

(* ================================================================== *)
(** ** binary64: order, signs and the addition of counts *)
(* ================================================================== *)

Module F64Facts.

Import F64.

Local Open Scope Z_scope.

(** *** The order *)

Ltac pos_compare :=
  repeat match goal with
         | |- context [PosDef.Pos.compare_cont Eq ?a ?b] =>
             change (PosDef.Pos.compare_cont Eq a b) with (Pos.compare a b)
         | H : context [PosDef.Pos.compare_cont Eq ?a ?b] |- _ =>
             change (PosDef.Pos.compare_cont Eq a b) with (Pos.compare a b) in H
         end.

Ltac cmp_cases :=
  repeat match goal with
         | |- context [Z.compare ?a ?b] => destruct (Z.compare_spec a b)
         | H : context [Z.compare ?a ?b] |- _ => destruct (Z.compare_spec a b)
         | |- context [Pos.compare ?a ?b] => destruct (Pos.compare_spec a b)
         | H : context [Pos.compare ?a ?b] |- _ =>
             destruct (Pos.compare_spec a b)
         end.

Ltac float_cases a := destruct a as [[|]|[|]| |[|] ? ?].

Ltac order_cases :=
  pos_compare; cmp_cases; simpl in *; subst;
  try reflexivity; try discriminate; try lia.

Lemma compare_neg (a b : t) : compare (neg a) (neg b) = compare b a.
Proof.
  unfold compare, neg.
  float_cases a; float_cases b; simpl; try reflexivity; order_cases.
Qed.

(** Two numbers are comparable unless one of them is NaN. *)
Lemma compare_some (a b : t) :
  a <> S754_nan -> b <> S754_nan ->
  exists c, compare a b = Some c /\ compare b a = Some (CompOpp c).
Proof.
  unfold compare. intros Ha Hb.
  float_cases a; float_cases b; try congruence; simpl; eexists;
    (split; [reflexivity|]); order_cases.
Qed.

Lemma ltb_trans (a b c : t) :
  ltb a b = true -> ltb b c = true -> ltb a c = true.
Proof.
  unfold ltb, SFltb.
  float_cases a; float_cases b; simpl; try discriminate;
    float_cases c; simpl; try discriminate; try reflexivity;
    intros H1 H2; order_cases.
Qed.

Lemma eqb_ltb (a b c : t) :
  eqb a b = true -> ltb b c = true -> ltb a c = true.
Proof.
  unfold ltb, eqb, SFltb, SFeqb.
  float_cases a; float_cases b; simpl; try discriminate;
    float_cases c; simpl; try discriminate; try reflexivity;
    intros H1 H2; order_cases.
Qed.

Lemma ltb_eqb (a b c : t) :
  ltb a b = true -> eqb b c = true -> ltb a c = true.
Proof.
  unfold ltb, eqb, SFltb, SFeqb.
  float_cases a; float_cases b; simpl; try discriminate;
    float_cases c; simpl; try discriminate; try reflexivity;
    intros H1 H2; order_cases.
Qed.

Lemma eqb_trans (a b c : t) :
  eqb a b = true -> eqb b c = true -> eqb a c = true.
Proof.
  unfold eqb, SFeqb.
  float_cases a; float_cases b; simpl; try discriminate;
    float_cases c; simpl; try discriminate; try reflexivity;
    intros H1 H2; order_cases.
Qed.

(** *** Numbers that are neither NaN nor negative *)

Lemma nonneg_cases (x : t) :
  nonneg x = true ->
  (exists s, x = S754_zero s) \/ x = S754_infinity false
  \/ exists m e, x = S754_finite false m e.
Proof.
  destruct x as [s|[|]| |[|] m e]; try discriminate; intros _; eauto.
Qed.

Lemma nonneg_not_nan (x : t) : nonneg x = true -> x <> S754_nan.
Proof. intros H ->. discriminate. Qed.

Lemma iter_pos_nat (A : Type) (f : A -> A) (p : positive) (x : A) :
  iter_pos f p x = Nat.iter (Pos.to_nat p) f x.
Proof.
  revert x. induction p as [p IH|p IH|]; intro x; simpl iter_pos.
  - rewrite !IH, Pos2Nat.inj_xI.
    replace (S (2 * Pos.to_nat p))%nat
      with (Pos.to_nat p + (Pos.to_nat p + 1))%nat by lia.
    rewrite !Nat.iter_add. reflexivity.
  - rewrite !IH, Pos2Nat.inj_xO.
    replace (2 * Pos.to_nat p)%nat
      with (Pos.to_nat p + Pos.to_nat p)%nat by lia.
    rewrite Nat.iter_add. reflexivity.
  - reflexivity.
Qed.

Lemma shr_1_nonneg (mrs : shr_record) :
  0 <= shr_m mrs -> 0 <= shr_m (shr_1 mrs).
Proof.
  destruct mrs as [m r s]. simpl. intro H.
  destruct m as [|[p|p|]|p]; simpl; lia.
Qed.

Lemma shr_nonneg (mrs : shr_record) (e n : Z) :
  0 <= shr_m mrs -> 0 <= shr_m (fst (shr mrs e n)).
Proof.
  intro H. unfold shr. destruct n as [|p|p]; simpl; try assumption.
  rewrite iter_pos_nat.
  induction (Pos.to_nat p) as [|j IH]; simpl; [assumption|].
  now apply shr_1_nonneg.
Qed.

Lemma record_of_loc_m (m : Z) (l : location) :
  shr_m (shr_record_of_loc m l) = m.
Proof. destruct l as [|[]]; reflexivity. Qed.

Lemma round_even_nonneg (m : Z) (l : location) :
  0 <= m -> 0 <= round_nearest_even m l.
Proof.
  intro H. destruct l as [|[]]; simpl; try lia.
  destruct (Z.even m); lia.
Qed.

(** Rounding a number that is not negative gives one that is not
    negative (and not NaN). *)
Lemma round_aux_nonneg (m e : Z) (l : location) :
  0 <= m -> nonneg (binary_round_aux prec emax false m e l) = true.
Proof.
  intro Hm. unfold binary_round_aux.
  destruct (shr_fexp prec emax m e l) as [mrs' e'] eqn:E1.
  assert (H1 : 0 <= shr_m mrs').
  { replace mrs' with (fst (shr_fexp prec emax m e l)) by now rewrite E1.
    unfold shr_fexp. apply shr_nonneg. now rewrite record_of_loc_m. }
  destruct (shr_fexp prec emax
              (round_nearest_even (shr_m mrs') (loc_of_shr_record mrs'))
              e' loc_Exact) as [mrs'' e''] eqn:E2.
  assert (H2 : 0 <= shr_m mrs'').
  { replace mrs''
      with (fst (shr_fexp prec emax
                   (round_nearest_even (shr_m mrs') (loc_of_shr_record mrs'))
                   e' loc_Exact)) by now rewrite E2.
    unfold shr_fexp. apply shr_nonneg. rewrite record_of_loc_m.
    now apply round_even_nonneg. }
  destruct (shr_m mrs'') as [|p|p]; [reflexivity| |lia].
  destruct (e'' <=? emax - prec); reflexivity.
Qed.

Lemma round_nonneg (m : positive) (e : Z) :
  nonneg (binary_round prec emax false m e) = true.
Proof.
  unfold binary_round.
  destruct (shl_align m e _) as [mz ez]. apply round_aux_nonneg. lia.
Qed.

Lemma of_int_nonneg (z : Z) : 0 <= z -> nonneg (of_int z) = true.
Proof.
  intro H. unfold of_int. destruct z as [|p|p]; [reflexivity| |lia].
  apply round_nonneg.
Qed.

Lemma add_nonneg (x y : t) :
  nonneg x = true -> nonneg y = true -> nonneg (add x y) = true.
Proof.
  intros Hx Hy.
  destruct (nonneg_cases _ Hx) as [[sx ->]|[->|(mx & ex & ->)]];
    destruct (nonneg_cases _ Hy) as [[sy ->]|[->|(my & ey & ->)]];
    try reflexivity.
  - destruct sx, sy; reflexivity.
  - unfold add, SFadd. cbn [cond_Zopp].
    destruct (shl_align mx ex (Z.min ex ey)) as [a ea].
    destruct (shl_align my ey (Z.min ex ey)) as [b eb]. cbn [fst].
    change (Z.pos a + Z.pos b) with (Z.pos (a + b)).
    apply round_nonneg.
Qed.




(** The product of a positive number with a count. *)
Lemma mul_count_nonneg (m : positive) (e z : Z) :
  0 <= z -> nonneg (mul (S754_finite false m e) (of_int z)) = true.
Proof.
  intro Hz. pose proof (of_int_nonneg Hz) as H.
  destruct (nonneg_cases _ H) as [[s Hs]|[Hs|(my & ey & Hs)]]; rewrite Hs.
  - destruct s; reflexivity.
  - reflexivity.
  - unfold mul, SFmul. cbn [xorb]. apply round_aux_nonneg. lia.
Qed.

Lemma c_0_01_value : c_0_01 = S754_finite false 5764607523034235 (-59).
Proof. vm_compute. reflexivity. Qed.

Lemma prior_nonneg (z : Z) : 0 <= z -> nonneg (mul c_0_01 (of_int z)) = true.
Proof. rewrite c_0_01_value. apply mul_count_nonneg. Qed.

(** *** Counts are added without rounding *)

Lemma shift_S (n : positive) (j : nat) : shift n (S j) = xO (shift n j).
Proof. reflexivity. Qed.

Lemma shift_add (n : positive) (i j : nat) :
  shift (shift n i) j = shift n (i + j).
Proof.
  unfold shift. rewrite Nat.add_comm. symmetry. apply Nat.iter_add.
Qed.

Lemma iter_shift (m d : positive) : Pos.iter xO m d = shift m (Pos.to_nat d).
Proof. unfold shift. apply Pos2Nat.inj_iter. Qed.

Lemma zpos_shift (n : positive) (j : nat) :
  Zpos (shift n j) = Zpos n * 2 ^ Z.of_nat j.
Proof.
  induction j as [|j IH]; [simpl; lia|].
  rewrite shift_S, Pos2Z.inj_xO, IH, Nat2Z.inj_succ, Z.pow_succ_r by lia.
  lia.
Qed.

Lemma digits_shift (n : positive) (j : nat) :
  Zpos (digits2_pos (shift n j)) = Zpos (digits2_pos n) + Z.of_nat j.
Proof.
  induction j as [|j IH].
  - simpl. lia.
  - rewrite shift_S. cbn [digits2_pos]. rewrite Pos2Z.inj_succ, IH. lia.
Qed.

Lemma digits_size (n : positive) : digits2_pos n = Pos.size n.
Proof. induction n as [n IH|n IH|]; simpl; now rewrite ?IH. Qed.

Lemma digits_bound (n : positive) :
  Zpos n < 2 ^ 53 -> Zpos (digits2_pos n) <= 53.
Proof.
  intro H. rewrite digits_size.
  destruct (Z.le_gt_cases (Zpos (Pos.size n)) 53) as [Hle|Hgt]; [exact Hle|].
  exfalso.
  pose proof (Pos.size_le n) as Hs.
  assert (H2 : 2 ^ 54 <= 2 ^ Zpos (Pos.size n))
    by (apply Z.pow_le_mono_r; lia).
  assert (H3 : 2 ^ Zpos (Pos.size n) <= 2 * Zpos n).
  { change 2 with (Zpos 2) at 1. rewrite <- Pos2Z.inj_pow.
    change (2 * Zpos n) with (Zpos (n~0)). apply Pos2Z.pos_le_pos. exact Hs. }
  change (2 ^ 54) with (2 * 2 ^ 53) in H2. lia.
Qed.

(** Shifting out bits that are zero loses nothing. *)
Lemma shr_exact (m : positive) (j : nat) :
  Nat.iter j shr_1
           {| shr_m := Zpos (shift m j); shr_r := false; shr_s := false |}
  = {| shr_m := Zpos m; shr_r := false; shr_s := false |}.
Proof.
  induction j as [|j IH]; [reflexivity|].
  rewrite Nat.iter_succ_r, shift_S. simpl shr_1. exact IH.
Qed.

Lemma fexp_small (d : Z) : 1 <= d -> fexp prec emax d = d - 53.
Proof. unfold fexp, emin, prec, emax. lia. Qed.

(** An integer of at most 53 bits, written with any number of zero bits
    after it, is rounded to itself: mantissa of 53 bits, exponent to
    match. *)
Lemma round_int (n : positive) (k : nat) :
  Zpos (digits2_pos n) <= 53 ->
  binary_round prec emax false (shift n k) (- Z.of_nat k)
  = S754_finite false (shift n (Z.to_nat (53 - Zpos (digits2_pos n))))
                (Zpos (digits2_pos n) - 53).
Proof.
  intro Hd. remember (Zpos (digits2_pos n)) as d eqn:Hdef.
  assert (Hd1 : 1 <= d) by lia.
  assert (Hdig : forall j, Zpos (digits2_pos (shift n j)) = d + Z.of_nat j)
    by (intro j; rewrite digits_shift; lia).
  clear Hdef.
  unfold binary_round.
  rewrite Hdig.
  replace (d + Z.of_nat k + - Z.of_nat k) with d by lia.
  rewrite (fexp_small Hd1).
  assert (Haux : forall (j : nat),
             (53 - d <= Z.of_nat j) ->
             binary_round_aux prec emax false (Zpos (shift n j))
                              (- Z.of_nat j) loc_Exact
             = S754_finite false (shift n (Z.to_nat (53 - d))) (d - 53)).
  { intros j Hj.
    assert (Hsplit : shift n j
                     = shift (shift n (Z.to_nat (53 - d)))
                             (j - Z.to_nat (53 - d))).
    { rewrite shift_add. f_equal. lia. }
    assert (Hshr : shr_fexp prec emax (Zpos (shift n j)) (- Z.of_nat j)
                            loc_Exact
                   = ({| shr_m := Zpos (shift n (Z.to_nat (53 - d)));
                         shr_r := false; shr_s := false |}, d - 53)).
    { unfold shr_fexp, Zdigits2. rewrite Hdig.
      replace (d + Z.of_nat j + - Z.of_nat j) with d by lia.
      rewrite (fexp_small Hd1).
      unfold shr. cbn [shr_record_of_loc].
      destruct (d - 53 - - Z.of_nat j) as [|pp|pp] eqn:Ep.
      - assert (j = Z.to_nat (53 - d)) by lia. f_equal; [now subst j|lia].
      - rewrite iter_pos_nat. f_equal; [|lia].
        rewrite Hsplit.
        replace (Pos.to_nat pp) with (j - Z.to_nat (53 - d))%nat by lia.
        apply shr_exact.
      - lia. }
    assert (Hshr2 : shr_fexp prec emax
                             (Zpos (shift n (Z.to_nat (53 - d))))
                             (d - 53) loc_Exact
                    = ({| shr_m := Zpos (shift n (Z.to_nat (53 - d)));
                          shr_r := false; shr_s := false |}, d - 53)).
    { unfold shr_fexp, Zdigits2. rewrite Hdig.
      replace (d + Z.of_nat (Z.to_nat (53 - d)) + (d - 53)) with d by lia.
      rewrite (fexp_small Hd1), Z.sub_diag. reflexivity. }
    unfold binary_round_aux. rewrite Hshr.
    cbn [shr_m loc_of_shr_record round_nearest_even].
    rewrite Hshr2. cbn [shr_m].
    replace (d - 53 <=? emax - prec) with true; [reflexivity|].
    symmetry. apply Z.leb_le. unfold emax, prec. lia. }
  unfold shl_align.
  destruct (d - 53 - - Z.of_nat k) as [|pp|pp] eqn:Ep.
  - apply (Haux k). lia.
  - apply (Haux k). lia.
  - rewrite iter_shift, shift_add.
    replace (d - 53) with (- Z.of_nat (k + Pos.to_nat pp)) at 1 by lia.
    apply Haux. lia.
Qed.

Lemma of_int_pos (n : positive) :
  Zpos (digits2_pos n) <= 53 ->
  of_int (Zpos n)
  = S754_finite false (shift n (Z.to_nat (53 - Zpos (digits2_pos n))))
                (Zpos (digits2_pos n) - 53).
Proof.
  intro H. unfold of_int, binary_normalize. apply (round_int n 0 H).
Qed.

(** Counts that add up to less than 2^53 are added exactly. *)
Lemma add_of_int (a b : Z) :
  0 <= a -> 0 <= b -> a + b < 2 ^ 53 ->
  add (of_int a) (of_int b) = of_int (a + b).
Proof.
  intros Ha Hb Hab.
  destruct a as [|a|a]; [| |lia].
  { rewrite Z.add_0_l in *. unfold of_int at 1. cbn [binary_normalize].
    destruct b as [|b|b]; [reflexivity| |lia].
    rewrite of_int_pos by (now apply digits_bound). reflexivity. }
  destruct b as [|b|b]; [| |lia].
  { rewrite Z.add_0_r in *. unfold of_int at 2. cbn [binary_normalize].
    rewrite of_int_pos by (now apply digits_bound). reflexivity. }
  assert (Hda : Zpos (digits2_pos a) <= 53) by (apply digits_bound; lia).
  assert (Hdb : Zpos (digits2_pos b) <= 53) by (apply digits_bound; lia).
  assert (Hdab : Zpos (digits2_pos (a + b)) <= 53)
    by (apply digits_bound; exact Hab).
  rewrite (of_int_pos a Hda), (of_int_pos b Hdb).
  remember (Zpos (digits2_pos a)) as da eqn:Eda.
  remember (Zpos (digits2_pos b)) as db eqn:Edb.
  assert (Hda1 : 1 <= da) by lia. assert (Hdb1 : 1 <= db) by lia.
  clear Eda Edb.
  unfold add, SFadd.
  set (ez := Z.min (da - 53) (db - 53)).
  assert (Hal : forall n dn, 1 <= dn <= 53 -> ez <= dn - 53 ->
            fst (shl_align (shift n (Z.to_nat (53 - dn))) (dn - 53) ez)
            = shift n (Z.to_nat (- ez))).
  { intros n dn Hle Hez. unfold shl_align.
    destruct (ez - (dn - 53)) as [|pp|pp] eqn:Ep.
    - cbn [fst]. f_equal. lia.
    - lia.
    - cbn [fst]. rewrite iter_shift, shift_add. f_equal. lia. }
  rewrite (Hal a da) by (unfold ez; lia).
  rewrite (Hal b db) by (unfold ez; lia).
  cbn [cond_Zopp].
  assert (Hsum : Zpos (shift a (Z.to_nat (- ez)))
                 + Zpos (shift b (Z.to_nat (- ez)))
                 = Zpos (shift (a + b) (Z.to_nat (- ez)))).
  { rewrite !zpos_shift. lia. }
  rewrite Hsum. unfold binary_normalize.
  replace ez with (- Z.of_nat (Z.to_nat (- ez))) at 2 by (unfold ez; lia).
  rewrite (round_int (a + b) _ Hdab).
  change (Z.pos a + Z.pos b) with (Zpos (a + b)).
  rewrite (of_int_pos (a + b) Hdab). reflexivity.
Qed.

End F64Facts.

(* ================================================================== *)
(** ** Sorting and slicing *)
(* ================================================================== *)

Module SortFacts.

Section Sorted.
Variable A : Type.
Variable leb : A -> A -> bool.

Lemma insort_perm (x : A) (l : list A) :
  Permutation (Py.insort leb x l) (x :: l).
Proof.
  induction l as [|y t IH]; simpl.
  - apply Permutation_refl.
  - destruct (leb x y).
    + apply Permutation_refl.
    + eapply Permutation_trans; [apply perm_skip, IH | apply perm_swap].
Qed.

Lemma sorted_perm (l : list A) : Permutation (Py.sorted leb l) l.
Proof.
  induction l as [|x t IH]; simpl.
  - constructor.
  - eapply Permutation_trans; [apply insort_perm | now apply perm_skip].
Qed.

Lemma sorted_length (l : list A) : List.length (Py.sorted leb l) = List.length l.
Proof. apply Permutation_length, sorted_perm. Qed.

Lemma sorted_in (l : list A) (x : A) : In x (Py.sorted leb l) <-> In x l.
Proof.
  split; apply Permutation_in; [|apply Permutation_sym]; apply sorted_perm.
Qed.

(** The output order [R], given what is known ([B]) of an element and
    the elements that follow it in the input. *)
Variable B R : A -> A -> Prop.
Hypothesis R_trans : forall x y z, R x y -> R y z -> R x z.
Hypothesis leb_true : forall x y, B x y -> leb x y = true -> R x y.
Hypothesis leb_false : forall x y, B x y -> leb x y = false -> R y x.

Lemma insort_sorted (x : A) (l : list A) :
  Forall (B x) l -> StronglySorted R l -> StronglySorted R (Py.insort leb x l).
Proof.
  induction l as [|y t IH]; simpl; intros HB HS.
  - constructor; constructor.
  - inversion HB as [|? ? Hxy HBt]; subst.
    inversion HS as [|? ? HSt Hyt]; subst.
    destruct (leb x y) eqn:E.
    + constructor; [assumption|].
      constructor; [now apply leb_true|].
      eapply Forall_impl; [|exact Hyt].
      intros z Hz. eapply R_trans; [apply leb_true; eassumption | exact Hz].
    + constructor; [now apply IH|].
      assert (Hp : Permutation (Py.insort leb x t) (x :: t)) by apply insort_perm.
      rewrite Forall_forall. intros z Hz.
      apply (Permutation_in _ Hp) in Hz. destruct Hz as [<-|Hz].
      * now apply leb_false.
      * rewrite Forall_forall in Hyt. now apply Hyt.
Qed.

Lemma sorted_sorted (l : list A) :
  StronglySorted B l -> StronglySorted R (Py.sorted leb l).
Proof.
  induction l as [|x t IH]; simpl; intro HS.
  - constructor.
  - inversion HS as [|? ? HSt Hxt]; subst.
    apply insort_sorted; [|now apply IH].
    rewrite Forall_forall in *. intros z Hz. apply Hxt.
    now apply sorted_in.
Qed.

End Sorted.

Lemma strongly_sorted_nodup (A : Type) (l : list A) :
  NoDup l -> StronglySorted (fun x y => x <> y) l.
Proof.
  induction 1 as [|x l Hx Hnd IH]; constructor; auto.
  apply Forall_forall. intros y Hy ->. contradiction.
Qed.

Lemma strongly_sorted_map (A C : Type) (f : A -> C) (R : C -> C -> Prop)
      (l : list A) :
  StronglySorted (fun x y => R (f x) (f y)) l <-> StronglySorted R (map f l).
Proof.
  induction l as [|x t IH]; simpl; split; intro H; try constructor;
    inversion H; subst.
  - now apply IH.
  - now rewrite Forall_map.
  - now apply IH.
  - now rewrite <- Forall_map.
Qed.

Lemma strongly_sorted_weaken (A : Type) (R S : A -> A -> Prop) (l : list A) :
  (forall x y, In x l -> In y l -> R x y -> S x y) ->
  StronglySorted R l -> StronglySorted S l.
Proof.
  induction l as [|x t IH]; intros HRS H; constructor; inversion H; subst.
  - apply IH; [|assumption]. intros; apply HRS; simpl; auto.
  - rewrite Forall_forall in *. intros y Hy. apply HRS; simpl; auto.
Qed.

Lemma strongly_sorted_app (A : Type) (R : A -> A -> Prop) (l1 l2 : list A) :
  StronglySorted R (l1 ++ l2) <->
  StronglySorted R l1 /\ StronglySorted R l2
  /\ (forall x y, In x l1 -> In y l2 -> R x y).
Proof.
  induction l1 as [|a l1 IH]; simpl.
  - split.
    + intro H. repeat split; [constructor|assumption|intros ? ? []].
    + tauto.
  - split.
    + intro H. inversion H as [|? ? HS HF]; subst.
      apply IH in HS. destruct HS as (H1 & H2 & H3).
      rewrite Forall_app, !Forall_forall in HF. destruct HF as [HF1 HF2].
      repeat split; auto.
      * constructor; [assumption|now apply Forall_forall].
      * intros x y [<-|Hx] Hy; auto.
    + intros (H1 & H2 & H3). inversion H1 as [|? ? HS HF]; subst.
      constructor.
      * apply IH. repeat split; auto.
      * rewrite Forall_app. split; [assumption|].
        apply Forall_forall. intros y Hy. apply H3; auto.
Qed.

Lemma strongly_sorted_rev (A : Type) (R : A -> A -> Prop) (l : list A) :
  StronglySorted R l -> StronglySorted (fun x y => R y x) (rev l).
Proof.
  induction 1 as [|x l HS IH HF]; simpl.
  - constructor.
  - apply strongly_sorted_app. repeat split.
    + assumption.
    + constructor; constructor.
    + intros a b Ha [<-|[]]. rewrite Forall_forall in HF. apply HF.
      now apply in_rev.
Qed.

Lemma strongly_sorted_firstn (A : Type) (R : A -> A -> Prop) (k : nat)
      (l : list A) :
  StronglySorted R l ->
  StronglySorted R (firstn k l)
  /\ (forall x y, In x (firstn k l) -> In y (skipn k l) -> R x y).
Proof.
  intro H. rewrite <- (firstn_skipn k l) in H at 1.
  apply strongly_sorted_app in H. tauto.
Qed.

Lemma strongly_sorted_skipn (A : Type) (R : A -> A -> Prop) (k : nat)
      (l : list A) :
  StronglySorted R l -> StronglySorted R (skipn k l).
Proof.
  intro H. rewrite <- (firstn_skipn k l) in H at 1.
  apply strongly_sorted_app in H. tauto.
Qed.

Lemma in_split_at (A : Type) (k : nat) (l : list A) (x : A) :
  In x l -> In x (firstn k l) \/ In x (skipn k l).
Proof.
  intro H. rewrite <- (firstn_skipn k l) in H. now apply in_app_or in H.
Qed.

Lemma nodup_firstn (A : Type) (k : nat) (l : list A) :
  NoDup l -> NoDup (firstn k l).
Proof.
  intro H. rewrite <- (firstn_skipn k l) in H.
  now apply NoDup_app_remove_r in H.
Qed.

Lemma nodup_skipn (A : Type) (k : nat) (l : list A) :
  NoDup l -> NoDup (skipn k l).
Proof.
  intro H. rewrite <- (firstn_skipn k l) in H.
  now apply NoDup_app_remove_l in H.
Qed.

End SortFacts.

(* ================================================================== *)
(** ** Dictionaries *)
(* ================================================================== *)

Module DictFacts.

Lemma mem_in (x : string) (s : list string) : Py.mem x s = true <-> In x s.
Proof.
  unfold Py.mem. rewrite existsb_exists. split.
  - intros (y & Hy & E). apply String.eqb_eq in E. now subst.
  - intro H. exists x. split; [assumption|apply String.eqb_refl].
Qed.

Lemma mem_not_in (x : string) (s : list string) :
  Py.mem x s = false <-> ~ In x s.
Proof.
  rewrite <- mem_in. destruct (Py.mem x s); split; congruence.
Qed.

Lemma set_of_in (l : list string) (x : string) : In x (Py.set_of l) <-> In x l.
Proof.
  induction l as [|y t IH]; simpl; [tauto|].
  destruct (Py.mem y t) eqn:E.
  - apply mem_in in E. rewrite IH. split; [auto|]. intros [<-|H]; auto.
  - simpl. rewrite IH. tauto.
Qed.

Lemma set_of_nodup (l : list string) : NoDup (Py.set_of l).
Proof.
  induction l as [|y t IH]; simpl; [constructor|].
  destruct (Py.mem y t) eqn:E; [assumption|].
  constructor; [|assumption]. rewrite set_of_in. now apply mem_not_in.
Qed.

Section Values.
Variable V : Type.
Implicit Types (d : Dict.t V) (k : string) (v : V).

Lemma wfb_nodup d : Dict.wfb d = true <-> NoDup (Dict.keys d).
Proof.
  induction d as [|[k v] r IH]; simpl.
  - split; [constructor|reflexivity].
  - rewrite andb_true_iff, negb_true_iff, mem_not_in, IH.
    split.
    + intros [H1 H2]. now constructor.
    + intro H. inversion H; subst. tauto.
Qed.

Lemma get_set d k k' v :
  Dict.get (Dict.set d k v) k' = if String.eqb k' k then Some v else Dict.get d k'.
Proof.
  induction d as [|[k0 v0] r IH]; simpl.
  - reflexivity.
  - destruct (String.eqb k k0) eqn:E; simpl.
    + apply String.eqb_eq in E. subst k0.
      destruct (String.eqb k' k); reflexivity.
    + rewrite IH. destruct (String.eqb k' k0) eqn:E'; [|reflexivity].
      apply String.eqb_eq in E'. subst k0.
      rewrite String.eqb_sym in E. now rewrite E.
Qed.

Lemma get_or_set d k k' v dflt :
  Dict.get_or (Dict.set d k v) k' dflt
  = if String.eqb k' k then v else Dict.get_or d k' dflt.
Proof.
  unfold Dict.get_or. rewrite get_set. now destruct (String.eqb k' k).
Qed.

Lemma keys_set d k v k' :
  In k' (Dict.keys (Dict.set d k v)) <-> k' = k \/ In k' (Dict.keys d).
Proof.
  induction d as [|[k0 v0] r IH]; simpl.
  - intuition.
  - destruct (String.eqb k k0) eqn:E; simpl.
    + apply String.eqb_eq in E. subst. intuition.
    + rewrite IH. intuition.
Qed.

Lemma nodup_set d k v : NoDup (Dict.keys d) -> NoDup (Dict.keys (Dict.set d k v)).
Proof.
  induction d as [|[k0 v0] r IH]; simpl; intro H.
  - constructor; [intros []|constructor].
  - inversion H; subst. destruct (String.eqb k k0) eqn:E; simpl.
    + now constructor.
    + constructor; [|now apply IH].
      rewrite keys_set. intros [->|Hin]; [|contradiction].
      now rewrite String.eqb_refl in E.
Qed.

Lemma get_none d k : Dict.get d k = None <-> ~ In k (Dict.keys d).
Proof.
  induction d as [|[k0 v0] r IH]; simpl; [tauto|].
  destruct (String.eqb k k0) eqn:E.
  - apply String.eqb_eq in E. subst. split; [discriminate|]. intuition.
  - apply String.eqb_neq in E. rewrite IH. intuition.
Qed.

Lemma get_some_in d k v : Dict.get d k = Some v -> In (k, v) d.
Proof.
  induction d as [|[k0 v0] r IH]; simpl; [discriminate|].
  destruct (String.eqb k k0) eqn:E.
  - apply String.eqb_eq in E. subst. intros [= ->]. now left.
  - intro H. right. now apply IH.
Qed.

Lemma in_get d k v : NoDup (Dict.keys d) -> In (k, v) d -> Dict.get d k = Some v.
Proof.
  induction d as [|[k0 v0] r IH]; simpl; intros Hnd H; [destruct H|].
  destruct H as [H|H].
  - injection H as -> ->. now rewrite String.eqb_refl.
  - inversion Hnd; subst. destruct (String.eqb k k0) eqn:E.
    + apply String.eqb_eq in E. subst. exfalso. apply H2.
      change k0 with (fst (k0, v)). now apply in_map.
    + now apply IH.
Qed.

Lemma get_perm d d' k :
  NoDup (Dict.keys d) -> Permutation d d' -> Dict.get d k = Dict.get d' k.
Proof.
  intros Hnd Hp.
  assert (Hnd' : NoDup (Dict.keys d')).
  { eapply Permutation_NoDup; [|exact Hnd]. now apply Permutation_map. }
  destruct (Dict.get d k) eqn:E.
  - symmetry. apply in_get; [assumption|].
    eapply Permutation_in; [exact Hp|]. now apply get_some_in.
  - symmetry. apply get_none. apply get_none in E. intro H. apply E.
    eapply Permutation_in; [|exact H].
    apply Permutation_sym. now apply Permutation_map.
Qed.

(** A comprehension over distinct keys lists them in order. *)
Lemma fold_set_distinct (X : Type) (key : X -> string) (val : X -> V)
      (l : list X) (d : Dict.t V) :
  NoDup (Dict.keys d ++ map key l) ->
  fold_left (fun d x => Dict.set d (key x) (val x)) l d
  = d ++ map (fun x => (key x, val x)) l.
Proof.
  revert d. induction l as [|x t IH]; simpl; intros d Hnd.
  - now rewrite app_nil_r.
  - assert (Hset : Dict.set d (key x) (val x) = d ++ [(key x, val x)]).
    { apply NoDup_remove_2 in Hnd.
      assert (Hx : ~ In (key x) (Dict.keys d))
        by (intro; apply Hnd; apply in_or_app; now left).
      clear - Hx. induction d as [|[k0 v0] r IHd]; simpl; [reflexivity|].
      destruct (String.eqb (key x) k0) eqn:E.
      - apply String.eqb_eq in E. exfalso. apply Hx. now left.
      - f_equal. apply IHd. intro. apply Hx. now right. }
    rewrite Hset, IH.
    + now rewrite <- app_assoc.
    + unfold Dict.keys in *. rewrite map_app. simpl.
      rewrite <- app_assoc. exact Hnd.
Qed.

(** An accumulation loop: [d[key x] = f(d.get(key x, zero), x)] for the
    [x] that are not skipped. *)
Section Accumulate.
Variable X : Type.
Variable key : X -> string.
Variable upd : V -> X -> V.
Variable zero : V.
Variable skip : X -> bool.

Lemma acc_get_or (l : list X) d k :
  Dict.get_or (fold_left (Dict.acc_step key upd zero skip) l d) k zero
  = fold_left (Dict.acc_value key upd skip k) l (Dict.get_or d k zero).
Proof.
  revert d. induction l as [|x t IH]; simpl; intro d; [reflexivity|].
  rewrite IH. f_equal. unfold Dict.acc_step, Dict.acc_value.
  destruct (skip x); [reflexivity|].
  rewrite get_or_set. destruct (String.eqb k (key x)) eqn:E; [|reflexivity].
  apply String.eqb_eq in E. now subst.
Qed.

Lemma acc_keys (l : list X) d k :
  In k (Dict.keys (fold_left (Dict.acc_step key upd zero skip) l d)) <->
  In k (Dict.keys d) \/ exists x, In x l /\ skip x = false /\ key x = k.
Proof.
  revert d. induction l as [|x t IH]; simpl; intro d.
  - split; [auto|]. intros [H|(x & Hx & _)]; [assumption|destruct Hx].
  - rewrite IH. unfold Dict.acc_step. destruct (skip x) eqn:E.
    + split.
      * intros [H|(y & Hy & Hs & Hk)]; [now left|].
        right. exists y. auto.
      * intros [H|(y & [<-|Hy] & Hs & Hk)]; [now left|congruence|].
        right. exists y. auto.
    + rewrite keys_set. split.
      * intros [[->|H]|(y & Hy & Hs & Hk)]; [|now left|].
        -- right. exists x. auto.
        -- right. exists y. auto.
      * intros [H|(y & [<-|Hy] & Hs & Hk)].
        -- left. now right.
        -- left. left. now symmetry.
        -- right. exists y. auto.
Qed.

Lemma acc_nodup (l : list X) d :
  NoDup (Dict.keys d) -> NoDup (Dict.keys (fold_left (Dict.acc_step key upd zero skip) l d)).
Proof.
  revert d. induction l as [|x t IH]; simpl; intros d H; [assumption|].
  apply IH. unfold Dict.acc_step. destruct (skip x); [assumption|].
  now apply nodup_set.
Qed.

End Accumulate.
End Values.

End DictFacts.

(* ================================================================== *)
(** ** Score blending *)
(* ================================================================== *)

Module BlendFacts.

Import RankBlender.


Lemma max0_clamp (v : Q) : v <= 0 -> Py.max 0 v = 0.
Proof.
  intro H. unfold Py.max. apply Qle_bool_iff in H. now rewrite H.
Qed.

Lemma max0_keep (v : Q) : 0 < v -> Py.max 0 v = v.
Proof.
  intro H. unfold Py.max. destruct (Qle_bool v 0) eqn:E; [|reflexivity].
  apply Qle_bool_iff in E. exfalso. exact (Qlt_not_le _ _ H E).
Qed.

Lemma fold_plus_acc (xs : list Q) (a : Q) :
  fold_left Qplus xs a == a + Py.sum xs.
Proof.
  unfold Py.sum. revert a. induction xs as [|x t IH]; simpl; intro a.
  - ring.
  - rewrite (IH (a + x)), (IH (0 + x)). ring.
Qed.

Lemma sum_cons (x : Q) (xs : list Q) : Py.sum (x :: xs) == x + Py.sum xs.
Proof.
  unfold Py.sum at 1. simpl. rewrite fold_plus_acc. ring.
Qed.

Lemma sum_nonneg (xs : list Q) : Forall (fun x => 0 <= x) xs -> 0 <= Py.sum xs.
Proof.
  induction 1 as [|x t Hx Ht IH].
  - apply Qle_refl.
  - rewrite sum_cons. rewrite <- (Qplus_0_r 0). now apply Qplus_le_compat.
Qed.

Lemma sum_pos (xs : list Q) :
  Forall (fun x => 0 <= x) xs -> (exists x, In x xs /\ 0 < x) -> 0 < Py.sum xs.
Proof.
  induction 1 as [|x t Hx Ht IH]; intros (y & Hy & Hpos); [destruct Hy|].
  rewrite sum_cons. destruct Hy as [->|Hy].
  - rewrite <- (Qplus_0_r 0). apply Qplus_lt_le_compat; [assumption|].
    now apply sum_nonneg.
  - setoid_replace (x + Py.sum t) with (Py.sum t + x) by ring.
    rewrite <- (Qplus_0_r 0). apply Qplus_lt_le_compat; [|assumption].
    apply IH. now exists y.
Qed.



Lemma norm_w_items (weights : Dict.t Q) :
  Dict.wfb weights = true ->
  norm_w weights
  = map (fun kv => (fst kv, Py.max 0 (snd kv) / total_w weights)) weights.
Proof.
  intro H. apply DictFacts.wfb_nodup in H. unfold norm_w.
  rewrite (DictFacts.fold_set_distinct fst
             (fun kv => Py.max 0 (snd kv) / total_w weights)); [reflexivity|].
  exact H.
Qed.

End BlendFacts.

(* ================================================================== *)
(** ** The module-level entry point *)
(* ================================================================== *)

Module CFModuleFacts.

(** The only positional argument of the call on the class goes to
    [self]. *)
Lemma class_call_binds_self (user_id : string) :
  PyCall.bind_pos CFModule.method_params [PyCall.VStr user_id] []
  = Py.Ok [("self", PyCall.VStr user_id)].
Proof. reflexivity. Qed.

(** Binding then fails: [k] is given by keyword, [user_id] has neither a
    value nor a default. *)
Lemma class_call_unbound (user_id : string) (k : Z) :
  PyCall.bind_args CFModule.method_params [PyCall.VStr user_id]
                   [("k", PyCall.VInt k)]
  = Py.Raise Py.TypeError.
Proof.
  unfold PyCall.bind_args. rewrite class_call_binds_self.
  reflexivity.
Qed.

(** C10.  The module-level [recommend_for_user] raises TypeError for
    every user id and every [k]: the call goes to the function of the
    class, [user_id] is bound to [self], and the parameter [user_id] is
    left without a value. *)
Theorem module_recommend_for_user_raises (user_id : string) (k : Z) :
  CFModule.recommend_for_user user_id k = Py.Raise Py.TypeError.
Proof.
  unfold CFModule.recommend_for_user, CFModule.call_method.
  now rewrite class_call_unbound.
Qed.

(** The same call through an instance reaches the method. *)
Lemma bound_recommend_for_user_ok (obj : CF.CFInference) (user_id : string)
      (k : Z) :
  CFModule.bound_recommend_for_user obj user_id k
  = Py.Ok (CF.recommend_for_user obj user_id (Z.to_nat k)).
Proof.
  reflexivity.
Qed.

End CFModuleFacts.

(* ================================================================== *)
(** ** Loading the CF artifact *)
(* ================================================================== *)

Module LoadFacts.

Import CF.

Lemma shape_eqb_eq (s1 s2 : list nat) : shape_eqb s1 s2 = true <-> s1 = s2.
Proof.
  revert s2. induction s1 as [|a r IH]; intros [|b r2]; simpl;
    try (split; [discriminate|discriminate]); [tauto|].
  rewrite andb_true_iff, Nat.eqb_eq, IH. split.
  - intros [-> ->]. reflexivity.
  - intros [= -> ->]. auto.
Qed.

Lemma try_load_some (f : cf_files) (sc : Np.ndarray) (u2i : Dict.t nat)
      (i2item : list string) :
  _try_load_artifacts f = Some (sc, u2i, i2item) ->
  exists user_ids,
    scores_npy f = Some sc /\ user_ids_json f = Some user_ids
    /\ item_ids_json f = Some i2item /\ u2i = index_of_ids user_ids
    /\ Np.shape sc = [List.length u2i; List.length i2item].
Proof.
  unfold _try_load_artifacts.
  destruct (scores_npy f) as [sc'|]; [|discriminate].
  destruct (user_ids_json f) as [us|]; [|discriminate].
  destruct (item_ids_json f) as [its|]; [|discriminate].
  destruct (negb (Np.ndim sc' =? 2)%nat
            || negb (shape_eqb (Np.shape sc')
                               [List.length (index_of_ids us); List.length its]))
           eqn:E; [discriminate|].
  intros [= <- <- <-]. exists us.
  apply orb_false_iff in E. destruct E as [_ E].
  apply negb_false_iff, shape_eqb_eq in E. auto.
Qed.

(** C3.  When the three artifact files exist but the matrix is not
    two-dimensional with shape (entries of the user map, entries of the
    item map), the artifact is treated as absent: [has_artifacts] is
    false and every call is answered by the co-occurrence/popularity
    path. *)
Theorem shape_mismatch_rejected (f : cf_files) (ratings : list Ratings.row)
        (sc : Np.ndarray) (user_ids item_ids : list string) :
  scores_npy f = Some sc ->
  user_ids_json f = Some user_ids ->
  item_ids_json f = Some item_ids ->
  (Np.ndim sc <> 2%nat
   \/ Np.shape sc
      <> [List.length (index_of_ids user_ids); List.length item_ids]) ->
  _try_load_artifacts f = None
  /\ has_artifacts (__init__ f ratings) = false
  /\ scores (__init__ f ratings) = None
  /\ forall user_id k,
       recommend_for_user (__init__ f ratings) user_id k
       = map (fun it => [("item_id", it)])
             (Py.take k (_cooccurrence_recs (__init__ f ratings) user_id k)).
Proof.
  intros Hs Hu Hi Hbad.
  assert (Hload : _try_load_artifacts f = None).
  { unfold _try_load_artifacts. rewrite Hs, Hu, Hi.
    destruct (negb (Np.ndim sc =? 2)%nat
              || negb (shape_eqb (Np.shape sc)
                         [List.length (index_of_ids user_ids);
                          List.length item_ids])) eqn:E; [reflexivity|].
    apply orb_false_iff in E. destruct E as [E1 E2].
    apply negb_false_iff in E1, E2.
    apply Nat.eqb_eq in E1. apply shape_eqb_eq in E2.
    destruct Hbad; contradiction. }
  split; [exact Hload|].
  unfold __init__. rewrite Hload. simpl.
  split; [reflexivity|]. split; [reflexivity|].
  intros user_id k. reflexivity.
Qed.

(** Witness for C3: a 3 x 2 matrix with three user ids and three item
    ids. *)
Lemma shape_mismatch_rejected_witness :
  has_artifacts
    (__init__ {| scores_npy := Some {| Np.dtype := Np.floating;
                                       Np.shape := [3; 2]%nat;
                                       Np.at2 := fun _ _ => Float.Fin 0 |};
                 user_ids_json := Some ["u1"; "u2"; "u3"];
                 item_ids_json := Some ["A"; "B"; "C"] |} [])
  = false.
Proof.
  refine (proj1 (proj2 (@shape_mismatch_rejected
            {| scores_npy := Some {| Np.dtype := Np.floating;
                                     Np.shape := [3; 2]%nat;
                                     Np.at2 := fun _ _ => Float.Fin 0 |};
               user_ids_json := Some ["u1"; "u2"; "u3"];
               item_ids_json := Some ["A"; "B"; "C"] |} []
            {| Np.dtype := Np.floating; Np.shape := [3; 2]%nat;
               Np.at2 := fun _ _ => Float.Fin 0 |}
            ["u1"; "u2"; "u3"] ["A"; "B"; "C"] eq_refl eq_refl eq_refl _))).
  right. vm_compute. discriminate.
Defined.

End LoadFacts.

(* ================================================================== *)
(** ** The first [k] keys of a sorted dictionary *)
(* ================================================================== *)

Module TopK.

Lemma firstn_In (A : Type) (k : nat) (l : list A) (x : A) :
  In x (firstn k l) -> In x l.
Proof.
  intro H. rewrite <- (firstn_skipn k l). apply in_or_app. now left.
Qed.

Lemma skipn_In (A : Type) (k : nat) (l : list A) (x : A) :
  In x (skipn k l) -> In x l.
Proof.
  intro H. rewrite <- (firstn_skipn k l). apply in_or_app. now right.
Qed.

(** The first [k] entries of a dictionary sorted with [leb], which
    decides the order [R] on entries with distinct keys whose values are
    comparable ([ok]). *)
Section TopK.
Variable V : Type.
Variable leb : string * V -> string * V -> bool.
Variable R : string * V -> string * V -> Prop.
Variable ok : V -> Prop.
Hypothesis R_trans : forall x y z, R x y -> R y z -> R x z.
Hypothesis leb_true :
  forall x y, ok (snd x) -> ok (snd y) -> fst x <> fst y ->
              leb x y = true -> R x y.
Hypothesis leb_false :
  forall x y, ok (snd x) -> ok (snd y) -> fst x <> fst y ->
              leb x y = false -> R y x.
Variable d : Dict.t V.
Hypothesis d_nodup : NoDup (Dict.keys d).
Hypothesis d_ok : forall x, In x d -> ok (snd x).
Variable k : nat.

Lemma sorted_items : StronglySorted R (Py.sorted leb d).
Proof.
  apply SortFacts.sorted_sorted
    with (B := fun x y => ok (snd x) /\ ok (snd y) /\ fst x <> fst y).
  - exact R_trans.
  - intros x y (Hx & Hy & Hne). now apply leb_true.
  - intros x y (Hx & Hy & Hne). now apply leb_false.
  - clear leb_true leb_false.
    induction d as [|x t IH]; constructor.
    + apply IH.
      * now inversion d_nodup.
      * intros y Hy. apply d_ok. now right.
    + apply Forall_forall. intros y Hy.
      split; [apply d_ok; now left|]. split; [apply d_ok; now right|].
      intro E. inversion d_nodup as [|? ? Hx _]; subst. apply Hx.
      rewrite E. now apply in_map.
Qed.

Lemma sorted_keys_nodup : NoDup (map fst (Py.sorted leb d)).
Proof.
  eapply Permutation_NoDup; [|exact d_nodup].
  apply Permutation_map, Permutation_sym, SortFacts.sorted_perm.
Qed.

Lemma top_nodup : NoDup (map fst (Py.take k (Py.sorted leb d))).
Proof.
  unfold Py.take. rewrite <- firstn_map.
  apply SortFacts.nodup_firstn, sorted_keys_nodup.
Qed.

Lemma top_length :
  List.length (map fst (Py.take k (Py.sorted leb d)))
  = Nat.min k (List.length d).
Proof.
  unfold Py.take. now rewrite length_map, length_firstn, SortFacts.sorted_length.
Qed.

Lemma top_in (a : string) :
  In a (map fst (Py.take k (Py.sorted leb d))) -> In a (Dict.keys d).
Proof.
  intro H. apply in_map_iff in H. destruct H as (x & <- & Hx).
  apply in_map. apply firstn_In in Hx. now apply SortFacts.sorted_in in Hx.
Qed.

Lemma top_sorted :
  StronglySorted (Design.key_order d R) (map fst (Py.take k (Py.sorted leb d))).
Proof.
  apply (SortFacts.strongly_sorted_map fst (Design.key_order d R)).
  pose proof (SortFacts.strongly_sorted_firstn k sorted_items) as [HS _].
  eapply SortFacts.strongly_sorted_weaken; [|exact HS].
  intros [a va] [b vb] Ha Hb HR. exists va, vb.
  apply firstn_In in Ha, Hb. apply SortFacts.sorted_in in Ha, Hb. auto.
Qed.

Lemma top_above_rest (a b : string) :
  In a (map fst (Py.take k (Py.sorted leb d))) ->
  In b (Dict.keys d) ->
  ~ In b (map fst (Py.take k (Py.sorted leb d))) ->
  Design.key_order d R a b.
Proof.
  intros Ha Hb Hnb.
  apply in_map_iff in Ha. destruct Ha as ([a' va] & <- & Ha).
  apply in_map_iff in Hb. destruct Hb as ([b' vb] & <- & Hb). simpl in *.
  pose proof (SortFacts.strongly_sorted_firstn k sorted_items) as [_ HR].
  apply (SortFacts.sorted_in leb) in Hb.
  destruct (SortFacts.in_split_at k _ _ Hb) as [Hb1|Hb2].
  - exfalso. apply Hnb. change b' with (fst (b', vb)). now apply in_map.
  - exists va, vb. split; [|split].
    + apply firstn_In in Ha. now apply SortFacts.sorted_in in Ha.
    + now apply SortFacts.sorted_in in Hb.
    + now apply HR.
Qed.

End TopK.

End TopK.

(* ================================================================== *)
(** ** Popularity *)
(* ================================================================== *)

Module PopFacts.

Import Ratings CF.

Lemma count_fold (it : string) (xs : list string) (a : Z) :
  fold_left (Dict.acc_value (fun x : string => x) (fun (v : Z) _ => (v + 1)%Z)
                            (fun _ => false) it) xs a
  = (a + Z.of_nat (List.length (filter (String.eqb it) xs)))%Z.
Proof.
  revert a. induction xs as [|x t IH]; simpl; intro a.
  - lia.
  - rewrite IH. unfold Dict.acc_value.
    destruct (String.eqb it x); simpl List.length; lia.
Qed.

Lemma value_counts_perm (xs : list string) :
  Permutation (value_counts xs)
    (fold_left (Dict.acc_step (fun x : string => x) (fun (v : Z) _ => (v + 1)%Z)
                              0%Z (fun _ => false)) xs []).
Proof.
  unfold value_counts. apply SortFacts.sorted_perm.
Qed.

Lemma value_counts_nodup (xs : list string) :
  NoDup (Dict.keys (value_counts xs)).
Proof.
  eapply Permutation_NoDup.
  - apply Permutation_map, Permutation_sym, value_counts_perm.
  - apply DictFacts.acc_nodup. constructor.
Qed.

Lemma value_counts_keys (xs : list string) (it : string) :
  In it (Dict.keys (value_counts xs)) <-> In it xs.
Proof.
  split.
  - intro H.
    apply (Permutation_in _ (Permutation_map fst (value_counts_perm xs))) in H.
    apply DictFacts.acc_keys in H. destruct H as [[]|(x & Hx & _ & <-)].
    exact Hx.
  - intro H.
    apply (Permutation_in _ (Permutation_sym
             (Permutation_map fst (value_counts_perm xs)))).
    apply DictFacts.acc_keys. right. exists it. auto.
Qed.

Lemma value_counts_get_or (xs : list string) (it : string) :
  Dict.get_or (value_counts xs) it 0%Z
  = Z.of_nat (List.length (filter (String.eqb it) xs)).
Proof.
  unfold Dict.get_or.
  rewrite (DictFacts.get_perm it (value_counts_nodup xs) (value_counts_perm xs)).
  change (Dict.get_or
            (fold_left (Dict.acc_step (fun x : string => x)
                          (fun (v : Z) _ => (v + 1)%Z) 0%Z (fun _ => false))
                       xs []) it 0%Z
          = Z.of_nat (List.length (filter (String.eqb it) xs))).
  rewrite DictFacts.acc_get_or, count_fold. reflexivity.
Qed.

Lemma filter_map_length (A C : Type) (f : A -> C) (p : C -> bool)
      (l : list A) :
  List.length (filter p (map f l)) = List.length (filter (fun x => p (f x)) l).
Proof.
  induction l as [|x t IH]; simpl; [reflexivity|].
  destruct (p (f x)); simpl; now rewrite IH.
Qed.

Lemma item_pop_get_or (f : cf_files) (rs : list row) (it : string) :
  Dict.get_or (item_pop (__init__ f rs)) it 0%Z = Design.popularity rs it.
Proof.
  simpl. rewrite value_counts_get_or, filter_map_length. reflexivity.
Qed.

Lemma item_pop_nodup (f : cf_files) (rs : list row) :
  NoDup (Dict.keys (item_pop (__init__ f rs))).
Proof. apply value_counts_nodup. Qed.

Lemma item_pop_keys (f : cf_files) (rs : list row) (it : string) :
  In it (Dict.keys (item_pop (__init__ f rs)))
  <-> In it (map (fun r => str (item_id r)) rs).
Proof. apply value_counts_keys. Qed.

Lemma item_pop_entry (f : cf_files) (rs : list row) (it : string) (c : Z) :
  In (it, c) (item_pop (__init__ f rs)) -> c = Design.popularity rs it.
Proof.
  intro H. apply DictFacts.in_get in H; [|apply item_pop_nodup].
  rewrite <- (item_pop_get_or f). unfold Dict.get_or. now rewrite H.
Qed.

Lemma popularity_pos (rs : list row) (it : string) :
  (0 < Design.popularity rs it)%Z <-> In it (map (fun r => str (item_id r)) rs).
Proof.
  unfold Design.popularity. rewrite <- filter_map_length.
  induction (map (fun r => str (item_id r)) rs) as [|x t IH]; simpl.
  - split; [lia|tauto].
  - destruct (String.eqb it x) eqn:E.
    + apply String.eqb_eq in E. subst. simpl List.length. split; [auto|lia].
    + apply String.eqb_neq in E. rewrite IH. intuition congruence.
Qed.

Lemma item_pop_length (f : cf_files) (rs : list row) :
  List.length (item_pop (__init__ f rs)) = Design.n_items rs.
Proof.
  unfold Design.n_items.
  rewrite <- (length_map fst (item_pop (__init__ f rs))).
  apply Permutation_length, NoDup_Permutation.
  - apply item_pop_nodup.
  - apply DictFacts.set_of_nodup.
  - intro it. rewrite DictFacts.set_of_in. apply item_pop_keys.
Qed.

Lemma count_order_trans (x y z : string * Z) :
  Design.count_order x y -> Design.count_order y z -> Design.count_order x z.
Proof.
  unfold Design.count_order.
  intros [H1|[H1 L1]] [H2|[H2 L2]]; try (left; lia).
  right. split; [lia|]. eapply OrderFacts.string_ltb_trans; eassumption.
Qed.

Lemma pop_key_leb_true (x y : string * Z) :
  fst x <> fst y -> pop_key_leb x y = true -> Design.count_order x y.
Proof.
  unfold pop_key_leb, Design.count_order. intros Hne H.
  destruct (- snd x <? - snd y)%Z eqn:E1.
  - apply Z.ltb_lt in E1. left. lia.
  - destruct (- snd x =? - snd y)%Z eqn:E2; [|discriminate].
    apply Z.eqb_eq in E2. right. split; [lia|].
    now apply OrderFacts.string_leb_neq_ltb.
Qed.

Lemma pop_key_leb_false (x y : string * Z) :
  fst x <> fst y -> pop_key_leb x y = false -> Design.count_order y x.
Proof.
  unfold pop_key_leb, Design.count_order. intros Hne H.
  destruct (- snd x <? - snd y)%Z eqn:E1; [discriminate|].
  apply Z.ltb_ge in E1.
  destruct (- snd x =? - snd y)%Z eqn:E2.
  - apply Z.eqb_eq in E2. right. split; [lia|].
    now apply OrderFacts.string_leb_false_ltb.
  - apply Z.eqb_neq in E2. left. lia.
Qed.

Lemma key_order_popular (f : cf_files) (rs : list row) (a b : string) :
  Design.key_order (item_pop (__init__ f rs)) Design.count_order a b ->
  Design.more_popular rs a b.
Proof.
  intros (va & vb & Ha & Hb & HR).
  apply item_pop_entry in Ha, Hb. subst. exact HR.
Qed.

(** What [_popular_only] returns. *)
Lemma popular_only_spec (f : cf_files) (rs : list row) (k : nat) :
  let top := _popular_only (__init__ f rs) k in
  NoDup top
  /\ List.length top = Nat.min k (Design.n_items rs)
  /\ (forall it, In it top -> (0 < Design.popularity rs it)%Z)
  /\ StronglySorted (Design.more_popular rs) top
  /\ (forall x it, In x top -> ~ In it top ->
                   (0 < Design.popularity rs it)%Z ->
                   Design.more_popular rs x it).
Proof.
  unfold _popular_only.
  pose proof (item_pop_nodup f rs) as Hnd.
  split; [|split; [|split; [|split]]].
  - now apply TopK.top_nodup.
  - rewrite TopK.top_length. now rewrite item_pop_length.
  - intros it Hit. apply TopK.top_in in Hit.
    apply popularity_pos. now apply item_pop_keys in Hit.
  - eapply SortFacts.strongly_sorted_weaken;
      [|apply (@TopK.top_sorted Z pop_key_leb Design.count_order
                 (fun _ => True) count_order_trans
                 (fun x y _ _ => @pop_key_leb_true x y)
                 (fun x y _ _ => @pop_key_leb_false x y)
                 _ Hnd (fun _ _ => I) k)].
    intros x y _ _. apply key_order_popular.
  - intros x it Hx Hit Hpos. apply (key_order_popular f).
    apply (@TopK.top_above_rest Z pop_key_leb Design.count_order
             (fun _ => True) count_order_trans
             (fun x y _ _ => @pop_key_leb_true x y)
             (fun x y _ _ => @pop_key_leb_false x y)
             _ Hnd (fun _ _ => I) k); auto.
    apply item_pop_keys. now apply popularity_pos.
Qed.

End PopFacts.

(* ================================================================== *)
(** ** The users and their item sets *)
(* ================================================================== *)

Module UserFacts.

Import Ratings CF.

Lemma user_keys_in (rs : list row) (u : string) :
  In u (user_keys rs) <-> exists r, In r rs /\ user_id r = Some u.
Proof.
  unfold user_keys. rewrite SortFacts.sorted_in, DictFacts.set_of_in, in_flat_map.
  split.
  - intros (r & Hr & Hu). exists r. split; [assumption|].
    destruct (user_id r) as [u'|]; simpl in Hu; [|contradiction].
    destruct Hu as [->|[]]. reflexivity.
  - intros (r & Hr & Hu). exists r. split; [assumption|].
    rewrite Hu. now left.
Qed.

Lemma user_keys_nodup (rs : list row) : NoDup (user_keys rs).
Proof.
  unfold user_keys. eapply Permutation_NoDup.
  - apply Permutation_sym, SortFacts.sorted_perm.
  - apply DictFacts.set_of_nodup.
Qed.

Lemma build_user_items_eq (rs : list row) :
  build_user_items rs
  = map (fun u => (u, Design.seen_items rs u)) (user_keys rs).
Proof.
  unfold build_user_items, groupby_user.
  rewrite (DictFacts.fold_set_distinct fst
             (fun g : string * list row =>
                Py.set_of (map (fun r => str (item_id r)) (snd g)))).
  - simpl. rewrite map_map. reflexivity.
  - simpl. rewrite map_map. simpl. rewrite map_id. apply user_keys_nodup.
Qed.

Lemma seen_items_absent (rs : list row) (u : string) :
  ~ In u (user_keys rs) -> Design.seen_items rs u = [].
Proof.
  intro H. unfold Design.seen_items.
  replace (filter (row_of_user u) rs) with (@nil row); [reflexivity|].
  symmetry.
  induction rs as [|r t IH]; simpl; [reflexivity|].
  assert (Hr : row_of_user u r = false).
  { unfold row_of_user. destruct (user_id r) as [u'|] eqn:E; [|reflexivity].
    apply String.eqb_neq. intros ->. apply H. apply user_keys_in.
    exists r. split; [now left|assumption]. }
  rewrite Hr. apply IH. intro Hin. apply H.
  apply user_keys_in in Hin. destruct Hin as (r' & Hr' & Hu).
  apply user_keys_in. exists r'. split; [now right|assumption].
Qed.

Lemma user_items_seen (f : cf_files) (rs : list row) (u : string) :
  Dict.get_or (user_items (__init__ f rs)) u [] = Design.seen_items rs u.
Proof.
  simpl. rewrite build_user_items_eq. unfold Dict.get_or.
  destruct (Dict.get (map (fun u0 => (u0, Design.seen_items rs u0))
                          (user_keys rs)) u) as [s|] eqn:E.
  - apply DictFacts.get_some_in in E. apply in_map_iff in E.
    destruct E as (u' & [= -> <-] & _). reflexivity.
  - apply DictFacts.get_none in E. unfold Dict.keys in E.
    rewrite map_map in E. simpl in E. rewrite map_id in E.
    symmetry. now apply seen_items_absent.
Qed.

Lemma seen_items_in (rs : list row) (u it : string) :
  In it (Design.seen_items rs u) <-> Design.interacted rs u it = true.
Proof.
  unfold Design.seen_items, Design.interacted.
  rewrite DictFacts.set_of_in, in_map_iff, existsb_exists. split.
  - intros (r & <- & Hr). apply filter_In in Hr. destruct Hr as [Hr Hu].
    exists r. split; [assumption|]. now rewrite Hu, String.eqb_refl.
  - intros (r & Hr & H). apply andb_true_iff in H. destruct H as [Hu E].
    apply String.eqb_eq in E. exists r. split; [now symmetry|].
    apply filter_In. auto.
Qed.

Lemma seen_items_nodup (rs : list row) (u : string) :
  NoDup (Design.seen_items rs u).
Proof. apply DictFacts.set_of_nodup. Qed.

Lemma user_items_values (f : cf_files) (rs : list row) :
  Dict.values (user_items (__init__ f rs))
  = map (Design.seen_items rs) (user_keys rs).
Proof.
  simpl. rewrite build_user_items_eq. unfold Dict.values.
  now rewrite map_map.
Qed.

End UserFacts.

(* ================================================================== *)
(** ** Cold start *)
(* ================================================================== *)

Module ColdStart.

Import Ratings CF.

Lemma item_ids_of_map (l : list string) :
  item_ids_of (map (fun it => [("item_id", it)]) l) = l.
Proof.
  unfold item_ids_of. rewrite map_map. simpl. apply map_id.
Qed.

Lemma take_popular_only (st : CFInference) (k : nat) :
  Py.take k (_popular_only st k) = _popular_only st k.
Proof.
  unfold Py.take, _popular_only. apply firstn_all2.
  rewrite length_map. apply firstn_le_length.
Qed.

Lemma cooccurrence_recs_unseen (st : CFInference) (uid : string) (k : nat) :
  Dict.get_or (user_items st) uid [] = [] ->
  _cooccurrence_recs st uid k = _popular_only st k.
Proof.
  intro H. unfold _cooccurrence_recs. now rewrite H.
Qed.

Lemma recommend_popular (st : CFInference) (uid : string) (k : nat) :
  Dict.get_or (user_items st) uid [] = [] ->
  (has_artifacts st = false
   \/ exists u2i, user_to_idx st = Some u2i /\ Dict.get u2i uid = None) ->
  recommend_for_user st uid k
  = map (fun it => [("item_id", it)]) (_popular_only st k).
Proof.
  intros Hseen Hmode. unfold recommend_for_user.
  assert (Hrecs :
            (if has_artifacts st
             then match _recs_from_artifacts st uid k with
                  | Py.Ok r => r
                  | Py.Raise _ => _cooccurrence_recs st uid k
                  end
             else _cooccurrence_recs st uid k) = _popular_only st k).
  { destruct (has_artifacts st) eqn:Ha.
    - destruct Hmode as [Hm|(u2i & Hu & Hg)]; [discriminate|].
      unfold _recs_from_artifacts. rewrite Hu. simpl. rewrite Hg. reflexivity.
    - now apply cooccurrence_recs_unseen. }
  rewrite Hrecs, take_popular_only. reflexivity.
Qed.

(** C5, as the code has it.  For a user id that occurs in no interaction,
    when no artifact is loaded or the artifact's user map does not hold
    the id either, [recommend_for_user] returns the [min k n] most popular
    of the [n] items, most popular first and equally popular ones by
    ascending item id.  The result is a function of the loaded data and
    the arguments, so repeated calls agree. *)
Theorem cold_start_popular (f : cf_files) (rs : list row) (uid : string)
        (k : nat) :
  (forall r, In r rs -> user_id r <> Some uid) ->
  (has_artifacts (__init__ f rs) = false
   \/ exists u2i, user_to_idx (__init__ f rs) = Some u2i
                  /\ Dict.get u2i uid = None) ->
  exists top,
    recommend_for_user (__init__ f rs) uid k
    = map (fun it => [("item_id", it)]) top
    /\ NoDup top
    /\ List.length top = Nat.min k (Design.n_items rs)
    /\ (forall it, In it top -> (0 < Design.popularity rs it)%Z)
    /\ StronglySorted (Design.more_popular rs) top
    /\ (forall x it, In x top -> ~ In it top ->
                     (0 < Design.popularity rs it)%Z ->
                     Design.more_popular rs x it).
Proof.
  intros Habsent Hmode. exists (_popular_only (__init__ f rs) k).
  split; [|apply PopFacts.popular_only_spec].
  apply recommend_popular; [|exact Hmode].
  rewrite UserFacts.user_items_seen. apply UserFacts.seen_items_absent.
  intro Hin. apply UserFacts.user_keys_in in Hin.
  destruct Hin as (r & Hr & Hu). exact (Habsent r Hr Hu).
Qed.

End ColdStart.


Module ColdStartCases.

Import Ratings CF.

(** Witness for C5: no artifact, three interactions, a user without
    any. *)
Lemma cold_start_popular_witness :
  exists top,
    recommend_for_user (__init__ Sample.no_files Sample.ratings_A_popular) "u" 1
    = map (fun it => [("item_id", it)]) top
    /\ NoDup top
    /\ List.length top = Nat.min 1 (Design.n_items Sample.ratings_A_popular)
    /\ (forall it, In it top ->
                   (0 < Design.popularity Sample.ratings_A_popular it)%Z)
    /\ StronglySorted (Design.more_popular Sample.ratings_A_popular) top
    /\ (forall x it, In x top -> ~ In it top ->
                     (0 < Design.popularity Sample.ratings_A_popular it)%Z ->
                     Design.more_popular Sample.ratings_A_popular x it).
Proof.
  apply ColdStart.cold_start_popular.
  - intros r [<-|[<-|[<-|[]]]]; discriminate.
  - left. reflexivity.
Defined.

(** C5 as stated fails when a valid artifact lists the user: "u" has no
    interaction and A is the most popular item, yet the call for one item
    returns B, the best-scored column of the artifact row of "u". *)
Lemma cold_start_popular_counterexample :
  (forall r, In r Sample.ratings_A_popular -> user_id r <> Some "u")
  /\ has_artifacts (__init__ Sample.files_u_AB Sample.ratings_A_popular) = true
  /\ Design.more_popular Sample.ratings_A_popular "A" "B"
  /\ item_ids_of
       (recommend_for_user (__init__ Sample.files_u_AB Sample.ratings_A_popular)
                           "u" 1)
     = ["B"].
Proof.
  split; [|split; [|split]].
  - intros r [<-|[<-|[<-|[]]]]; discriminate.
  - vm_compute. reflexivity.
  - left. vm_compute. reflexivity.
  - vm_compute. reflexivity.
Qed.

End ColdStartCases.

(* ================================================================== *)
(** ** argsort *)
(* ================================================================== *)

Module ArgsortFacts.

Lemma float_ltb_leb (a b : Float.t) : Float.ltb a b = true -> Float.leb a b = true.
Proof.
  unfold Float.ltb. rewrite negb_true_iff. intro H.
  destruct (OrderFacts.float_leb_total a b); congruence.
Qed.

Lemma enumerate_from (A : Type) (l : list A) (s : nat) (d : A) (i : nat)
      (v : A) :
  In (i, v) (combine (seq s (List.length l)) l) ->
  (s <= i < s + List.length l)%nat /\ nth (i - s) l d = v.
Proof.
  revert s. induction l as [|x t IH]; simpl; intros s H; [destruct H|].
  destruct H as [[= <- <-]|H].
  - split; [lia|]. now rewrite Nat.sub_diag.
  - apply IH in H. destruct H as [Hr Hn]. split; [lia|].
    replace (i - s)%nat with (S (i - S s)) by lia. exact Hn.
Qed.

Lemma enumerate_in (A : Type) (l : list A) (d : A) (i : nat) (v : A) :
  In (i, v) (Py.enumerate l) -> (i < List.length l)%nat /\ nth i l d = v.
Proof.
  intro H. apply (enumerate_from l 0 d) in H. rewrite Nat.sub_0_r in H.
  destruct H as [Hr Hn]. split; [lia|assumption].
Qed.

Lemma enumerate_fst (A : Type) (l : list A) :
  map fst (Py.enumerate l) = seq 0 (List.length l).
Proof.
  unfold Py.enumerate. generalize 0%nat.
  induction l as [|x t IH]; simpl; intro s; [reflexivity|]. now rewrite IH.
Qed.

Lemma enumerate_snd (A : Type) (l : list A) : map snd (Py.enumerate l) = l.
Proof.
  unfold Py.enumerate. generalize 0%nat.
  induction l as [|x t IH]; simpl; intro s; [reflexivity|]. now rewrite IH.
Qed.

Lemma seq_strongly_sorted (s n : nat) : StronglySorted lt (seq s n).
Proof.
  revert s. induction n as [|n IH]; simpl; intro s; constructor; [apply IH|].
  apply Forall_forall. intros x Hx. apply in_seq in Hx. lia.
Qed.

Lemma enumerate_sorted (A : Type) (l : list A) :
  StronglySorted (fun x y : nat * A => (fst x < fst y)%nat) (Py.enumerate l).
Proof.
  apply (SortFacts.strongly_sorted_map fst lt).
  rewrite enumerate_fst. apply seq_strongly_sorted.
Qed.

Lemma argsort_perm (a : list Float.t) :
  Permutation (Np.argsort a) (seq 0 (List.length a)).
Proof.
  unfold Np.argsort. rewrite <- enumerate_fst.
  apply Permutation_map, SortFacts.sorted_perm.
Qed.

Lemma argsort_length (a : list Float.t) :
  List.length (Np.argsort a) = List.length a.
Proof.
  rewrite (Permutation_length (argsort_perm a)). apply length_seq.
Qed.

Lemma argsort_in (a : list Float.t) (i : nat) :
  In i (Np.argsort a) <-> (i < List.length a)%nat.
Proof.
  split; intro H.
  - apply (Permutation_in _ (argsort_perm a)) in H. apply in_seq in H. lia.
  - apply (Permutation_in _ (Permutation_sym (argsort_perm a))).
    apply in_seq. lia.
Qed.

Lemma argsort_nodup (a : list Float.t) : NoDup (Np.argsort a).
Proof.
  eapply Permutation_NoDup; [apply Permutation_sym, argsort_perm|].
  apply seq_NoDup.
Qed.

Lemma strongly_sorted_any (A : Type) (l : list A) :
  StronglySorted (fun _ _ => True) l.
Proof.
  induction l as [|x t IH]; constructor; [assumption|].
  now apply Forall_forall.
Qed.

(** What numpy promises of [argsort], besides [argsort_perm]: the
    entries at the listed positions ascend. *)
Lemma argsort_ascending (a : list Float.t) :
  StronglySorted
    (fun i j => Float.leb (nth i a Float.NaN) (nth j a Float.NaN) = true)
    (Np.argsort a).
Proof.
  unfold Np.argsort.
  apply (SortFacts.strongly_sorted_map fst
           (fun i j => Float.leb (nth i a Float.NaN) (nth j a Float.NaN)
                       = true)).
  eapply SortFacts.strongly_sorted_weaken
    with (R := fun x y : nat * Float.t => Float.leb (snd x) (snd y) = true).
  - intros [i v] [j w] Hi Hj H.
    apply SortFacts.sorted_in in Hi, Hj.
    apply (enumerate_in a Float.NaN) in Hi, Hj.
    destruct Hi as [_ <-], Hj as [_ <-]. exact H.
  - apply SortFacts.sorted_sorted with (B := fun _ _ => True).
    + intros x y z. apply OrderFacts.float_leb_trans.
    + intros x y _ H. exact H.
    + intros x y _ H.
      destruct (OrderFacts.float_leb_total (snd x) (snd y)); congruence.
    + apply strongly_sorted_any.
Qed.

(** A sort leaves a list that is already in order as it is. *)
Lemma sorted_id (A : Type) (leb : A -> A -> bool) (l : list A) :
  StronglySorted (fun x y => leb x y = true) l -> Py.sorted leb l = l.
Proof.
  induction 1 as [|x t HS IH HF]; simpl; [reflexivity|].
  rewrite IH. destruct t as [|y t']; simpl; [reflexivity|].
  inversion HF; subst. now rewrite H1.
Qed.

End ArgsortFacts.

(* ================================================================== *)
(** ** Lexical search *)
(* ================================================================== *)

Module SearchFacts.

Import Hybrid.

Lemma results_of_ok (df : list item_row) (scores : list Float.t)
      (idx : list nat) :
  (forall i, In i idx -> (i < List.length df)%nat) ->
  exists hits,
    results_of df scores idx = Py.Ok hits
    /\ map Some hits
       = map (fun i => option_map
                         (fun r => hit_of r (Some (nth i scores Float.NaN)))
                         (nth_error df i)) idx.
Proof.
  induction idx as [|i rest IH]; simpl; intro Hlt.
  - exists []. auto.
  - destruct IH as (hits & Hok & Hmap); [intros; apply Hlt; auto|].
    destruct (nth_error df i) as [r|] eqn:E.
    + rewrite Hok. simpl. eexists. split; [reflexivity|].
      simpl. now rewrite Hmap.
    + apply nth_error_None in E. specialize (Hlt i (or_introl eq_refl)). lia.
Qed.

Lemma search_scored (self : HybridRanker) (q : string) (k : nat)
      (gs : list string -> list Float.t) :
  bm25 self = Some gs ->
  _tokenize q <> [] ->
  gs (_tokenize q) <> [] ->
  search self q k
  = results_of (items_df self) (gs (_tokenize q))
               (Py.take k (rev (Np.argsort (gs (_tokenize q))))).
Proof.
  intros Hbm Hq Hs. unfold search. rewrite Hbm.
  destruct (_tokenize q) as [|t ts]; [congruence|].
  destruct (gs (t :: ts)) as [|s0 ss]; [congruence|reflexivity].
Qed.

Lemma nth_scores (g : nat -> Float.t) (n i : nat) :
  (i < n)%nat -> nth i (map g (seq 0 n)) Float.NaN = g i.
Proof.
  intro H. rewrite (nth_indep _ Float.NaN (g 0%nat))
    by (now rewrite length_map, length_seq).
  rewrite map_nth, seq_nth; auto.
Qed.

(** The first [k] positions of the reversed [argsort]: positions of the
    array, none twice, their entries in non-increasing order and none
    smaller than an entry left out. *)
Lemma top_idx_spec (scores : list Float.t) (k : nat) :
  let sc := fun c => nth c scores Float.NaN in
  let top := Py.take k (rev (Np.argsort scores)) in
  List.length top = Nat.min k (List.length scores)
  /\ NoDup top
  /\ (forall i, In i top -> (i < List.length scores)%nat)
  /\ StronglySorted (fun i j => Float.leb (sc j) (sc i) = true) top
  /\ (forall i j, In i top -> (j < List.length scores)%nat -> ~ In j top ->
                  Float.leb (sc j) (sc i) = true).
Proof.
  intros sc top. unfold top, Py.take.
  assert (HS : StronglySorted (fun i j => Float.leb (sc j) (sc i) = true)
                              (rev (Np.argsort scores))).
  { apply (SortFacts.strongly_sorted_rev
             (ArgsortFacts.argsort_ascending scores)). }
  destruct (SortFacts.strongly_sorted_firstn k HS) as [HS1 HS2].
  split; [|split; [|split; [|split]]].
  - now rewrite length_firstn, length_rev, ArgsortFacts.argsort_length.
  - apply SortFacts.nodup_firstn, NoDup_rev, ArgsortFacts.argsort_nodup.
  - intros i Hi. apply TopK.firstn_In in Hi. apply in_rev in Hi.
    now apply ArgsortFacts.argsort_in.
  - exact HS1.
  - intros i j Hi Hj Hnj. apply HS2; [assumption|].
    apply ArgsortFacts.argsort_in, in_rev in Hj.
    destruct (SortFacts.in_split_at k _ _ Hj); [contradiction|assumption].
Qed.


End SearchFacts.

Module SearchCases.

Import Hybrid.



End SearchCases.

(* ================================================================== *)
(** ** Item-to-item neighbours *)
(* ================================================================== *)

Module SimilarFacts.

Import Embedding.

Lemma distinct_nodup (l : list string) :
  EmbeddingModel.distinct l = true <-> NoDup l.
Proof.
  induction l as [|x t IH]; simpl.
  - split; [constructor|reflexivity].
  - rewrite andb_true_iff, negb_true_iff, DictFacts.mem_not_in, IH. split.
    + intros [H1 H2]. now constructor.
    + intro H. inversion H; subst. tauto.
Qed.

Lemma id_map_get_in (m : list (nat * string)) (i : nat) (v : string) :
  id_map_get m i = Some v -> In (i, v) m.
Proof.
  induction m as [|[i' v'] r IH]; simpl; [discriminate|].
  destruct (i =? i')%nat eqn:E.
  - apply Nat.eqb_eq in E. subst. intros [= ->]. now left.
  - intro H. right. now apply IH.
Qed.

Lemma rev_map_fold (m : list (nat * string)) (d : Dict.t nat) (v : string)
      (i : nat) :
  Dict.get (fold_left (fun d kv => Dict.set d (snd kv) (fst kv)) m d) v
  = Some i ->
  In (i, v) m \/ Dict.get d v = Some i.
Proof.
  revert d. induction m as [|[i' v'] r IH]; simpl; intros d H; [now right|].
  apply IH in H. destruct H as [H|H]; [left; now right|].
  rewrite DictFacts.get_set in H. destruct (String.eqb v v') eqn:E.
  - apply String.eqb_eq in E. subst. injection H as ->. left. now left.
  - now right.
Qed.

Lemma rev_map_in (m : list (nat * string)) (v : string) (i : nat) :
  Dict.get (rev_map m) v = Some i -> In (i, v) m.
Proof.
  intro H. apply rev_map_fold in H. destruct H as [H|H]; [assumption|].
  discriminate.
Qed.

Lemma values_injective (m : list (nat * string)) (i j : nat) (v : string) :
  NoDup (map snd m) -> In (i, v) m -> In (j, v) m -> i = j.
Proof.
  induction m as [|[i' v'] r IH]; simpl; intros Hnd Hi Hj; [destruct Hi|].
  inversion Hnd as [|? ? Hnot Hnd']; subst.
  destruct Hi as [Hi|Hi], Hj as [Hj|Hj].
  - congruence.
  - injection Hi as -> ->. exfalso. apply Hnot.
    change v with (snd (j, v)). now apply in_map.
  - injection Hj as -> ->. exfalso. apply Hnot.
    change v with (snd (i, v)). now apply in_map.
  - now apply IH.
Qed.

(** The loop returns at most [k] ids, none of them taken from row [idx];
    it raises only on a row without an id. *)
Lemma skip_self_spec (m : list (nat * string)) (idx k : nat)
      (indices : list nat) (out : list string) :
  (forall i, In i indices -> exists v, id_map_get m i = Some v) ->
  (List.length out < k)%nat ->
  exists out',
    skip_self m idx k indices out = Py.Ok out'
    /\ (List.length out' <= k)%nat
    /\ (forall v, In v out' ->
          In v out \/ exists i, i <> idx /\ id_map_get m i = Some v).
Proof.
  revert out. induction indices as [|i rest IH]; simpl; intros out Hids Hlen.
  - exists out. split; [reflexivity|]. split; [lia|auto].
  - destruct (i =? idx)%nat eqn:E.
    + apply IH; auto.
    + apply Nat.eqb_neq in E.
      destruct (Hids i (or_introl eq_refl)) as (v & Hv). rewrite Hv.
      destruct (k <=? List.length (out ++ [v]))%nat eqn:Ek.
      * exists (out ++ [v]). split; [reflexivity|].
        rewrite length_app in *. simpl in *. split; [lia|].
        intros w Hw. apply in_app_or in Hw. destruct Hw as [Hw|[<-|[]]]; auto.
        right. exists i. auto.
      * apply Nat.leb_gt in Ek.
        destruct (IH (out ++ [v])) as (out' & Hok & Hl & Hin); auto.
        exists out'. split; [assumption|]. split; [assumption|].
        intros w Hw. destruct (Hin w Hw) as [Hw'|Hw']; [|now right].
        apply in_app_or in Hw'. destruct Hw' as [Hw'|[<-|[]]]; auto.
        right. exists i. auto.
Qed.

Lemma similar_disabled (st : EmbeddingStore) (item : string) (k : nat) :
  emb st = None \/ nn st = None
  \/ Dict.get (rev_map (id_map st)) item = None ->
  similar st item k = Py.Ok [].
Proof.
  unfold similar. intros [H|[H|H]].
  - now rewrite H.
  - rewrite H. now destruct (emb st).
  - rewrite H. destruct (emb st), (nn st); reflexivity.
Qed.

Lemma similar_known (st : EmbeddingStore) (item : string) (k : nat) :
  EmbeddingModel.table_ok st = true ->
  (0 < k)%nat ->
  exists out,
    similar st item k = Py.Ok out
    /\ (List.length out <= k)%nat /\ ~ In item out.
Proof.
  intros Hok Hk. unfold similar, EmbeddingModel.table_ok in *.
  assert (Hnil : exists out : list string,
             Py.Ok [] = Py.Ok out /\ (List.length out <= k)%nat
             /\ ~ In item out).
  { exists []. split; [reflexivity|]. split; [simpl; lia|intros []]. }
  destruct (emb st) as [n|]; [|exact Hnil].
  destruct (nn st) as [order|]; [|exact Hnil].
  destruct (Dict.get (rev_map (id_map st)) item) as [idx|] eqn:Hrev;
    [|exact Hnil].
  clear Hnil.
  apply andb_true_iff in Hok. destruct Hok as [Hok Hord].
  apply andb_true_iff in Hok. destruct Hok as [Hok Hids].
  apply andb_true_iff in Hok. destruct Hok as [Hdist Hkeys].
  apply distinct_nodup in Hdist.
  rewrite forallb_forall in Hkeys, Hids, Hord.
  apply rev_map_in in Hrev.
  assert (Hidx : (idx < n)%nat).
  { specialize (Hkeys _ Hrev). now apply Nat.ltb_lt in Hkeys. }
  apply Nat.ltb_lt in Hidx. rewrite Hidx. apply Nat.ltb_lt in Hidx.
  unfold kneighbors.
  assert (Hm : ((0 <? Nat.min (k + 1) n) && (Nat.min (k + 1) n <=? n))%nat
               = true).
  { apply andb_true_iff. split; [apply Nat.ltb_lt|apply Nat.leb_le]; lia. }
  rewrite Hm. simpl Py.bind.
  destruct (skip_self_spec (id_map st) idx (k := k)
              (firstn (Nat.min (k + 1) n) (order idx)) [])
    as (out & Hout & Hlen & Hin).
  - intros i Hi. apply TopK.firstn_In in Hi.
    assert (Hi' : (i < n)%nat).
    { specialize (Hord idx). rewrite forallb_forall in Hord.
      apply Nat.ltb_lt, Hord; [|assumption]. apply in_seq. lia. }
    specialize (Hids i). destruct (id_map_get (id_map st) i) as [v|].
    + now exists v.
    + assert (false = true) by (apply Hids, in_seq; lia). discriminate.
  - simpl. exact Hk.
  - exists out. split; [assumption|]. split; [assumption|].
    intro Hitem. destruct (Hin item Hitem) as [[]|(i & Hne & Hget)].
    apply id_map_get_in in Hget. apply Hne.
    eapply values_injective; eassumption.
Qed.

Lemma by_id_entries (df : list Hybrid.item_row) (d : Dict.t Hybrid.item_row) :
  (forall k r, Dict.get d k = Some r -> Hybrid.item_id r = k) ->
  forall k r,
    Dict.get (fold_left (fun d r => Dict.set d (Hybrid.item_id r) r) df d) k
    = Some r ->
    Hybrid.item_id r = k.
Proof.
  revert d. induction df as [|x t IH]; simpl; intros d Hd k r H.
  - now apply Hd.
  - eapply IH; [|exact H]. intros k' r' Hget.
    rewrite DictFacts.get_set in Hget.
    destruct (String.eqb k' (Hybrid.item_id x)) eqn:E.
    + apply String.eqb_eq in E. now injection Hget as <-.
    + now apply Hd.
Qed.

Lemma hits_of_neighbours (_by_id : Dict.t Hybrid.item_row)
      (neigh : list string) :
  (forall k r, Dict.get _by_id k = Some r -> Hybrid.item_id r = k) ->
  let hits := flat_map (fun nid => match Dict.get _by_id nid with
                                   | Some r => [Hybrid.hit_of r None]
                                   | None => []
                                   end) neigh in
  (List.length hits <= List.length neigh)%nat
  /\ forall h, In h hits ->
       In (Hybrid.hit_item_id h) neigh /\ Hybrid.hit_score h = None.
Proof.
  intros Hd. induction neigh as [|nid t [IH1 IH2]]; simpl.
  - split; [lia|intros h []].
  - destruct (Dict.get _by_id nid) as [r|] eqn:E; simpl.
    + split; [lia|]. intros h [<-|Hh].
      * simpl. split; [left; symmetry; now apply Hd|reflexivity].
      * destruct (IH2 h Hh). auto.
    + split; [lia|]. intros h Hh. destruct (IH2 h Hh). auto.
Qed.

(** C7, as the code has it.  When the embedding files are missing or the
    item id is not in the id map, both [similar] operations return the
    empty sequence.  On a table that meets the data model ([table_ok]:
    no id under two rows, the id map and the rows of the vector table
    matching) and for positive [k], both return at most [k] entries and
    never the queried item itself. *)
Theorem similar_excludes_self (bm : Hybrid.okapi)
        (df : list Hybrid.item_row) (st : EmbeddingStore) (item : string)
        (k : nat) :
  (emb st = None \/ nn st = None
   \/ Dict.get (rev_map (id_map st)) item = None ->
   similar st item k = Py.Ok []
   /\ Hybrid.similar (Hybrid.__init__ bm df st) item k = Py.Ok [])
  /\ (EmbeddingModel.table_ok st = true -> (0 < k)%nat ->
      exists out hits,
        similar st item k = Py.Ok out
        /\ Hybrid.similar (Hybrid.__init__ bm df st) item k = Py.Ok hits
        /\ (List.length out <= k)%nat /\ ~ In item out
        /\ (List.length hits <= k)%nat
        /\ forall h, In h hits ->
             Hybrid.hit_item_id h <> item /\ Hybrid.hit_score h = None).
Proof.
  split.
  - intro H. apply (similar_disabled st item k) in H.
    split; [assumption|]. unfold Hybrid.similar, Hybrid.__init__. simpl.
    now rewrite H.
  - intros Hok Hk.
    destruct (similar_known st item Hok Hk) as (out & Hout & Hlen & Hself).
    destruct (hits_of_neighbours (Hybrid._by_id df) out) as [Hl Hh].
    { unfold Hybrid._by_id. apply by_id_entries. intros ? ? H. discriminate. }
    eexists out, _. split; [exact Hout|].
    split; [unfold Hybrid.similar, Hybrid.__init__; simpl; rewrite Hout;
            reflexivity|].
    split; [assumption|]. split; [assumption|]. split; [lia|].
    intros h Hin. destruct (Hh h Hin) as [H1 H2]. split; [|assumption].
    intros E. apply Hself. now rewrite <- E.
Qed.

End SimilarFacts.

Module SimilarCases.

Import Embedding.

(** Witness for C7: three rows with distinct ids, neighbours of B. *)
Lemma similar_excludes_self_witness :
  exists out hits,
    similar SampleCatalog.store_ABC "B" 1 = Py.Ok out
    /\ Hybrid.similar (Hybrid.__init__ SampleCatalog.okapi_no_match
                                   SampleCatalog.catalog_AB
                                   SampleCatalog.store_ABC) "B" 1
       = Py.Ok hits
    /\ (List.length out <= 1)%nat /\ ~ In "B" out
    /\ (List.length hits <= 1)%nat
    /\ forall h, In h hits ->
         Hybrid.hit_item_id h <> "B" /\ Hybrid.hit_score h = None.
Proof.
  apply (proj2 (SimilarFacts.similar_excludes_self
                  SampleCatalog.okapi_no_match SampleCatalog.catalog_AB
                  SampleCatalog.store_ABC "B" 1)).
  - vm_compute. reflexivity.
  - lia.
Defined.

(** C7 as stated fails when the id map lists an item under two rows: A is
    in the id map, and both operations return A as a neighbour of A. *)
Lemma similar_excludes_self_counterexample :
  Dict.get (rev_map (id_map SampleCatalog.store_A_twice)) "A" = Some 1%nat
  /\ similar SampleCatalog.store_A_twice "A" 1 = Py.Ok ["A"]
  /\ Hybrid.similar (Hybrid.__init__ SampleCatalog.okapi_no_match
                                 SampleCatalog.catalog_AB
                                 SampleCatalog.store_A_twice) "A" 1
     = Py.Ok [ {| Hybrid.hit_item_id := "A";
                  Hybrid.hit_title := "Space Opera";
                  Hybrid.hit_description := "a galaxy far away";
                  Hybrid.hit_score := None |} ].
Proof.
  repeat split; vm_compute; reflexivity.
Qed.

End SimilarCases.

(* ================================================================== *)
(** ** The hold-out split *)
(* ================================================================== *)

Module HoldoutFacts.

Import Ratings Eval.

Lemma last_some (A : Type) (l : list A) :
  l <> [] -> exists x, last (map Some l) None = Some x /\ In x l.
Proof.
  induction l as [|x t IH]; [congruence|]. intros _.
  destruct t as [|y t'].
  - exists x. simpl. auto.
  - destruct IH as (z & Hz & Hin); [discriminate|].
    exists z. split; [exact Hz|now right].
Qed.

Lemma nth_error_pick (A : Type) (pick : nat -> nat) (l : list A) :
  (forall n, (0 < n)%nat -> (pick n < n)%nat) ->
  l <> [] -> exists x, nth_error l (pick (List.length l)) = Some x /\ In x l.
Proof.
  intros Hp Hl.
  destruct (nth_error l (pick (List.length l))) as [x|] eqn:E.
  - exists x. split; [reflexivity|]. eapply nth_error_In, E.
  - apply nth_error_None in E.
    assert (0 < List.length l)%nat by (destruct l; [congruence|simpl; lia]).
    specialize (Hp _ H). lia.
Qed.

(** A group of at least one row always yields a test row, taken from the
    group. *)
Lemma test_row_some (pick : nat -> nat) (df : frame) (g : list row) :
  (forall n, (0 < n)%nat -> (pick n < n)%nat) ->
  g <> [] -> exists r, test_row pick df g = Some r /\ In r g.
Proof.
  intros Hp Hg. unfold test_row. destruct (has_timestamp df).
  - destruct (@last_some _ (Py.sorted ts_leb g)) as (r & Hr & Hin).
    + intro E. apply Hg. apply length_zero_iff_nil.
      rewrite <- (SortFacts.sorted_length ts_leb g), E. reflexivity.
    + exists r. split; [assumption|]. now apply SortFacts.sorted_in in Hin.
  - destruct (has_rating df && existsb rating_notna g).
    + destruct (existsb rating_ge4 g) eqn:E.
      * destruct (@nth_error_pick _ pick (filter rating_ge4 g) Hp)
          as (r & Hr & Hin).
        { apply existsb_exists in E. destruct E as (x & Hx & Hge).
          intro Hnil. assert (Hf : In x (filter rating_ge4 g))
            by (apply filter_In; auto).
          rewrite Hnil in Hf. destruct Hf. }
        exists r. split; [assumption|]. now apply filter_In in Hin.
      * now apply nth_error_pick.
    + now apply nth_error_pick.
Qed.

(** Every eligible user, and no other, contributes one pair. *)
Lemma choose_holdout_users (pick : nat -> nat) (df : frame) :
  (forall n, (0 < n)%nat -> (pick n < n)%nat) ->
  map fst (_choose_holdout pick df)
  = filter (Design.eligible (rows df)) (user_keys (rows df)).
Proof.
  intro Hp. unfold _choose_holdout, groupby_user.
  induction (user_keys (rows df)) as [|u t IH]; simpl; [reflexivity|].
  rewrite map_app, IH. unfold Design.eligible at 2.
  destruct (List.length (filter (row_of_user u) (rows df)) <? 2)%nat eqn:E.
  - apply Nat.ltb_lt in E.
    destruct (2 <=? List.length (filter (row_of_user u) (rows df)))%nat eqn:E2;
      [apply Nat.leb_le in E2; lia|reflexivity].
  - apply Nat.ltb_ge in E.
    destruct (2 <=? List.length (filter (row_of_user u) (rows df)))%nat eqn:E2;
      [|apply Nat.leb_gt in E2; lia].
    destruct (@test_row_some pick df (filter (row_of_user u) (rows df)) Hp)
      as (r & Hr & _).
    + intro Hnil. rewrite Hnil in E. simpl in E. lia.
    + rewrite Hr. reflexivity.
Qed.

(** [evaluate_cf] stops with ValueError exactly when no user is
    eligible. *)
Lemma evaluate_raises_iff (pick : nat -> nat) (df : frame) :
  (forall n, (0 < n)%nat -> (pick n < n)%nat) ->
  evaluate_cf_holdout pick df = Py.Raise Py.ValueError
  <-> forall u, In u (user_keys (rows df)) ->
                Design.eligible (rows df) u = false.
Proof.
  intro Hp. pose proof (@choose_holdout_users pick df Hp) as Hu.
  unfold evaluate_cf_holdout. split.
  - destruct (_choose_holdout pick df) as [|h t]; [|discriminate].
    intros _ u Hin. simpl in Hu.
    destruct (Design.eligible (rows df) u) eqn:E; [|reflexivity].
    assert (Hf : In u (filter (Design.eligible (rows df))
                              (user_keys (rows df))))
      by (apply filter_In; auto).
    rewrite <- Hu in Hf. destruct Hf.
  - intro Hall. destruct (_choose_holdout pick df) as [|h t]; [reflexivity|].
    exfalso. assert (Hf : In (fst h) (filter (Design.eligible (rows df))
                                             (user_keys (rows df))))
      by (rewrite <- Hu; now left).
    apply filter_In in Hf. destruct Hf as [Hin He].
    rewrite (Hall _ Hin) in He. discriminate.
Qed.

(** C9, the timestamp branch on concrete data.  The user "u1" rated A in
    2000 (964982703) and B in 2009 (1260759144).  The column is compared
    as text, "1260759144" sorts before "964982703", and the held-out item
    is A, whereas the chronologically latest interaction is B. *)
Theorem holdout_latest_by_text_order (pick : nat -> nat) :
  _choose_holdout pick SampleRatings.stamped_frame = [("u1", "A")]
  /\ evaluate_cf_holdout pick SampleRatings.stamped_frame
     = Py.Ok [("u1", "A")]
  /\ option_map item_id (Design.latest (rows SampleRatings.stamped_frame))
     = Some (Some "B").
Proof.
  repeat split.
Qed.

End HoldoutFacts.

(* ================================================================== *)
(** ** The co-occurrence table *)
(* ================================================================== *)

Module CoFacts.

Import Ratings CF.

Lemma b2z_if (c : bool) : (if c then 1 else 0)%Z = Z.b2z c.
Proof. now destruct c. Qed.

(** In a duplicate-free list, an element is counted once. *)
Lemma count_nodup (l : list string) (x : string) (c : string -> bool) :
  NoDup l ->
  List.length (filter (fun y => String.eqb x y && c y) l)
  = if Py.mem x l && c x then 1%nat else 0%nat.
Proof.
  induction 1 as [|y t Hy Hnd IH]; [reflexivity|].
  assert (Hmem : Py.mem x (y :: t) = String.eqb x y || Py.mem x t)
    by reflexivity.
  rewrite Hmem. simpl filter. destruct (String.eqb x y) eqn:E; simpl.
  - apply String.eqb_eq in E. subst y.
    apply DictFacts.mem_not_in in Hy. rewrite Hy in IH. simpl in IH.
    destruct (c x); simpl; now rewrite IH.
  - exact IH.
Qed.

Lemma count_bump (a b a' b' : string) (co : Dict.t (Dict.t Z)) :
  CoTable.count (CoTable.bump a b co) a' b'
  = (CoTable.count co a' b'
     + Z.b2z (String.eqb a' a && String.eqb b' b))%Z.
Proof.
  unfold CoTable.count, CoTable.bump. rewrite DictFacts.get_or_set.
  destruct (String.eqb a' a) eqn:Ea; simpl.
  - apply String.eqb_eq in Ea. subst a'. rewrite DictFacts.get_or_set.
    destruct (String.eqb b' b) eqn:Eb; simpl; [|lia].
    apply String.eqb_eq in Eb. now subst b'.
  - lia.
Qed.

Lemma get_or_setdefault (co : Dict.t (Dict.t Z)) (a a' : string) :
  Dict.get_or (Dict.setdefault co a []) a' [] = Dict.get_or co a' [].
Proof.
  unfold Dict.setdefault. destruct (Dict.get co a) eqn:E; [reflexivity|].
  rewrite DictFacts.get_or_set. destruct (String.eqb a' a) eqn:Ea;
    [|reflexivity].
  apply String.eqb_eq in Ea. subst. unfold Dict.get_or. now rewrite E.
Qed.

Lemma count_setdefault (co : Dict.t (Dict.t Z)) (a a' b' : string) :
  CoTable.count (Dict.setdefault co a []) a' b' = CoTable.count co a' b'.
Proof.
  unfold CoTable.count. now rewrite get_or_setdefault.
Qed.

Lemma co_inner_bump (a : string) (i : nat) (l : list string)
      (co : Dict.t (Dict.t Z)) :
  co_inner a i l co
  = fold_left (fun co jb => if (i =? fst jb)%nat then co
                            else CoTable.bump a (snd jb) co)
              (Py.enumerate l) co.
Proof. reflexivity. Qed.

Lemma count_inner_fold (a : string) (i : nat) (e : list (nat * string))
      (co : Dict.t (Dict.t Z)) (a' b' : string) :
  CoTable.count
    (fold_left (fun co jb => if (i =? fst jb)%nat then co
                             else CoTable.bump a (snd jb) co) e co) a' b'
  = (CoTable.count co a' b'
     + Z.b2z (String.eqb a' a)
       * Z.of_nat (List.length
                     (filter (fun jb => String.eqb b' (snd jb)
                                        && negb (i =? fst jb)%nat) e)))%Z.
Proof.
  revert co. induction e as [|[j b] t IH]; simpl; intro co; [lia|].
  rewrite IH. destruct (i =? j)%nat; simpl.
  - rewrite andb_false_r. lia.
  - rewrite count_bump, andb_true_r.
    destruct (String.eqb a' a), (String.eqb b' b); simpl List.length;
      simpl Z.b2z; lia.
Qed.

Lemma enumerate_index_eq (l : list string) (i j : nat) (a b : string) :
  NoDup l -> In (i, a) (Py.enumerate l) -> In (j, b) (Py.enumerate l) ->
  (i =? j)%nat = String.eqb a b.
Proof.
  intros Hnd Hi Hj.
  apply (ArgsortFacts.enumerate_in l EmptyString) in Hi, Hj.
  destruct Hi as [Hi <-], Hj as [Hj <-].
  destruct (i =? j)%nat eqn:E.
  - apply Nat.eqb_eq in E. subst. symmetry. apply String.eqb_refl.
  - symmetry. apply String.eqb_neq. intro Heq. apply Nat.eqb_neq in E.
    apply E. now apply (proj1 (NoDup_nth l EmptyString) Hnd).
Qed.

Lemma filter_enumerate_length (l : list string) (p : string -> bool) :
  List.length (filter (fun jb : nat * string => p (snd jb)) (Py.enumerate l))
  = List.length (filter p l).
Proof.
  rewrite <- (PopFacts.filter_map_length snd p (Py.enumerate l)).
  now rewrite ArgsortFacts.enumerate_snd.
Qed.

Lemma count_co_inner (a : string) (i : nat) (l : list string)
      (co : Dict.t (Dict.t Z)) (a' b' : string) :
  NoDup l -> In (i, a) (Py.enumerate l) ->
  CoTable.count (co_inner a i l co) a' b'
  = (CoTable.count co a' b'
     + Z.b2z (String.eqb a' a && Py.mem b' l && negb (String.eqb b' a)))%Z.
Proof.
  intros Hnd Hi. rewrite co_inner_bump, count_inner_fold. f_equal.
  rewrite (filter_ext_in
             (fun jb => String.eqb b' (snd jb) && negb (i =? fst jb)%nat)
             (fun jb => String.eqb b' (snd jb) && negb (String.eqb b' a))).
  - rewrite (filter_enumerate_length l
               (fun b => String.eqb b' b && negb (String.eqb b' a))).
    pose proof (count_nodup b' (fun _ => negb (String.eqb b' a)) Hnd) as Hc.
    cbv beta in Hc. rewrite Hc.
    destruct (String.eqb a' a), (Py.mem b' l), (String.eqb b' a);
      reflexivity.
  - intros [j b] Hj. simpl.
    destruct (String.eqb b' b) eqn:E; [|reflexivity]. simpl.
    apply String.eqb_eq in E. subst b.
    rewrite (@enumerate_index_eq l i j a b' Hnd Hi Hj).
    now rewrite String.eqb_sym.
Qed.

Lemma count_co_user_fold (l : list string) (e : list (nat * string))
      (co : Dict.t (Dict.t Z)) (a' b' : string) :
  NoDup l -> incl e (Py.enumerate l) ->
  CoTable.count
    (fold_left (fun co ia => co_inner (snd ia) (fst ia) l
                                      (Dict.setdefault co (snd ia) []))
               e co) a' b'
  = (CoTable.count co a' b'
     + Z.of_nat (List.length
                   (filter (fun ia => String.eqb a' (snd ia)
                                      && (Py.mem b' l
                                          && negb (String.eqb b' (snd ia))))
                           e)))%Z.
Proof.
  intros Hnd. revert co. induction e as [|[i a] t IH]; simpl; intros co He;
    [lia|].
  rewrite IH by (intros x Hx; apply He; now right).
  rewrite count_co_inner by (auto; apply He; now left).
  rewrite count_setdefault.
  destruct (String.eqb a' a), (Py.mem b' l), (String.eqb b' a);
    simpl List.length; simpl Z.b2z; lia.
Qed.

(** One user's item set adds one to the count of every ordered pair of
    distinct items of the set. *)
Lemma count_co_user (l : list string) (co : Dict.t (Dict.t Z))
      (a b : string) :
  NoDup l ->
  CoTable.count (co_user co l) a b
  = (CoTable.count co a b
     + Z.b2z (Py.mem a l && Py.mem b l && negb (String.eqb a b)))%Z.
Proof.
  intro Hnd. unfold co_user.
  rewrite count_co_user_fold by (auto; apply incl_refl). f_equal.
  rewrite (filter_enumerate_length l
             (fun x => String.eqb a x
                       && (Py.mem b l && negb (String.eqb b x)))).
  pose proof (count_nodup a (fun x => Py.mem b l && negb (String.eqb b x)) Hnd)
    as Hc.
  cbv beta in Hc. rewrite Hc.
  rewrite (String.eqb_sym b a).
  destruct (Py.mem a l), (Py.mem b l), (String.eqb a b); reflexivity.
Qed.

Lemma count_build (ls : list (list string)) (co : Dict.t (Dict.t Z))
      (a b : string) :
  Forall (@NoDup string) ls ->
  CoTable.count (fold_left co_user ls co) a b
  = (CoTable.count co a b
     + Z.of_nat (List.length
                   (filter (fun l => Py.mem a l && Py.mem b l
                                     && negb (String.eqb a b)) ls)))%Z.
Proof.
  intro Hall. revert co. induction Hall as [|l t Hl Ht IH]; simpl; intro co;
    [lia|].
  rewrite IH, count_co_user by assumption.
  destruct (Py.mem a l && Py.mem b l && negb (String.eqb a b));
    simpl List.length; simpl Z.b2z; lia.
Qed.

Lemma mem_seen_interacted (rs : list row) (u it : string) :
  Py.mem it (Design.seen_items rs u) = Design.interacted rs u it.
Proof.
  destruct (Design.interacted rs u it) eqn:E.
  - apply DictFacts.mem_in, UserFacts.seen_items_in, E.
  - apply DictFacts.mem_not_in. rewrite UserFacts.seen_items_in. congruence.
Qed.

(** The table built at start-up: for distinct items the number of users
    whose interaction set holds both, and nothing for an item with
    itself. *)
Lemma co_counts_spec (f : cf_files) (rs : list row) (a b : string) :
  CoTable.count (co_counts (__init__ f rs)) a b
  = if String.eqb a b then 0%Z else Design.co_occurrence rs a b.
Proof.
  change (co_counts (__init__ f rs))
    with (fold_left co_user (Dict.values (user_items (__init__ f rs))) []).
  rewrite UserFacts.user_items_values, count_build.
  - change (CoTable.count [] a b) with 0%Z. rewrite Z.add_0_l.
    rewrite PopFacts.filter_map_length. unfold Design.co_occurrence.
    destruct (String.eqb a b) eqn:E.
    + rewrite (filter_ext _ (fun _ => false))
        by (intro u; now rewrite andb_false_r).
      induction (user_keys rs); simpl; auto.
    + f_equal. f_equal. apply filter_ext. intro u.
      now rewrite andb_true_r, !mem_seen_interacted.
  - apply Forall_forall. intros l Hl. apply in_map_iff in Hl.
    destruct Hl as (u & <- & _). apply UserFacts.seen_items_nodup.
Qed.

End CoFacts.

(* ================================================================== *)
(** ** The fallback scores *)
(* ================================================================== *)

Module ScoreFacts.

Import Ratings CF.

(** What every inner dictionary of the table satisfies: distinct keys,
    all of them among the items [P] admits. *)
Section Inner.
Variable P : string -> Prop.

Lemma inner_bump (a b : string) (co : Dict.t (Dict.t Z)) :
  P b -> CoTable.inner_ok P co -> CoTable.inner_ok P (CoTable.bump a b co).
Proof.
  intros Hb Hinv a'. unfold CoTable.bump. rewrite DictFacts.get_or_set.
  destruct (String.eqb a' a); [|apply Hinv].
  destruct (Hinv a) as [Hnd Hk]. split.
  - now apply DictFacts.nodup_set.
  - intros x Hx. apply DictFacts.keys_set in Hx. destruct Hx as [->|Hx]; auto.
Qed.

Lemma inner_setdefault (a : string) (co : Dict.t (Dict.t Z)) :
  CoTable.inner_ok P co -> CoTable.inner_ok P (Dict.setdefault co a []).
Proof.
  intros Hinv a'. rewrite CoFacts.get_or_setdefault. apply Hinv.
Qed.

Lemma inner_co_inner (a : string) (i : nat) (l : list string)
      (co : Dict.t (Dict.t Z)) :
  (forall b, In b l -> P b) ->
  CoTable.inner_ok P co -> CoTable.inner_ok P (co_inner a i l co).
Proof.
  intros Hl. rewrite CoFacts.co_inner_bump.
  assert (Hsnd : forall jb, In jb (Py.enumerate l) -> P (snd jb)).
  { intros [j b] Hjb. apply Hl.
    apply (ArgsortFacts.enumerate_in l EmptyString) in Hjb.
    destruct Hjb as [Hj <-]. now apply nth_In. }
  revert co Hsnd. generalize (Py.enumerate l) as e.
  induction e as [|[j b] t IH]; simpl; intros co Hs Hinv; [exact Hinv|].
  apply IH; [intros; apply Hs; now right|].
  destruct (i =? j)%nat; [exact Hinv|].
  apply inner_bump; [|exact Hinv]. apply (Hs (j, b)). now left.
Qed.

Lemma inner_co_user (l : list string) (co : Dict.t (Dict.t Z)) :
  (forall b, In b l -> P b) ->
  CoTable.inner_ok P co -> CoTable.inner_ok P (co_user co l).
Proof.
  intros Hl. unfold co_user. revert co.
  generalize (Py.enumerate l) as e.
  induction e as [|[i a] t IH]; simpl; intros co Hinv; [exact Hinv|].
  apply IH. apply inner_co_inner; [assumption|].
  now apply inner_setdefault.
Qed.

Lemma inner_build (ls : list (list string)) (co : Dict.t (Dict.t Z)) :
  (forall l b, In l ls -> In b l -> P b) ->
  CoTable.inner_ok P co -> CoTable.inner_ok P (fold_left co_user ls co).
Proof.
  revert co. induction ls as [|l t IH]; simpl; intros co Hls Hinv;
    [exact Hinv|].
  apply IH; [intros; eapply Hls; eauto|].
  apply inner_co_user; [intros; eapply Hls; eauto|exact Hinv].
Qed.

End Inner.

Lemma co_counts_inner (f : cf_files) (rs : list row) :
  CoTable.inner_ok (fun x => In x (map (fun r => str (item_id r)) rs))
                   (co_counts (__init__ f rs)).
Proof.
  change (co_counts (__init__ f rs))
    with (fold_left co_user (Dict.values (user_items (__init__ f rs))) []).
  apply inner_build.
  - rewrite UserFacts.user_items_values. intros l b Hl Hb.
    apply in_map_iff in Hl. destruct Hl as (u & <- & _).
    unfold Design.seen_items in Hb.
    apply (proj1 (DictFacts.set_of_in _ _)) in Hb.
    apply in_map_iff in Hb. destruct Hb as (r & <- & Hr).
    apply (in_map (fun r0 => str (item_id r0))). now apply filter_In in Hr.
  - intro a'. split; [constructor|intros x []].
Qed.

(** A loop over a dictionary that updates, with [op], the score of every
    key that is not seen. *)
Section Adding.
Variable V X : Type.
Variable op : V -> X -> V.
Variable zero : V.
Variable seen : list string.

Lemma adding_absent (d : Dict.t X) (b : string) (v : V) :
  ~ In b (Dict.keys d) ->
  fold_left (Dict.acc_value fst (fun (v : V) (x : string * X) => op v (snd x))
                            (fun x => Py.mem (fst x) seen) b) d v = v.
Proof.
  revert v. induction d as [|[k c] r IH]; simpl; intros v Hb; [reflexivity|].
  rewrite IH by tauto. unfold Dict.acc_value. simpl.
  destruct (Py.mem k seen); [reflexivity|].
  destruct (String.eqb b k) eqn:E; [|reflexivity].
  apply String.eqb_eq in E. subst. tauto.
Qed.

Lemma adding_value (d : Dict.t X) (b : string) (v : V) :
  NoDup (Dict.keys d) ->
  Py.mem b seen = false ->
  fold_left (Dict.acc_value fst (fun (v : V) (x : string * X) => op v (snd x))
                            (fun x => Py.mem (fst x) seen) b) d v
  = match Dict.get d b with
    | Some c => op v c
    | None => v
    end.
Proof.
  revert v. induction d as [|[k c] r IH]; simpl; intros v Hnd Hb;
    [reflexivity|].
  inversion Hnd as [|? ? Hk Hnd']; subst.
  destruct (String.eqb b k) eqn:E.
  - apply String.eqb_eq in E. subst k.
    rewrite adding_absent by assumption.
    unfold Dict.acc_value. simpl. now rewrite Hb, String.eqb_refl.
  - rewrite IH by assumption.
    unfold Dict.acc_value at 1 2. simpl. rewrite E.
    destruct (Py.mem k seen); reflexivity.
Qed.

Lemma adding_get_or (d : Dict.t X) (sc : Dict.t V) (b : string) :
  NoDup (Dict.keys d) ->
  Py.mem b seen = false ->
  Dict.get_or
    (fold_left (Dict.acc_step fst (fun (v : V) (x : string * X) => op v (snd x))
                              zero (fun x => Py.mem (fst x) seen)) d sc) b zero
  = match Dict.get d b with
    | Some c => op (Dict.get_or sc b zero) c
    | None => Dict.get_or sc b zero
    end.
Proof.
  intros Hnd Hb. rewrite DictFacts.acc_get_or. now apply adding_value.
Qed.

Lemma adding_keys (d : Dict.t X) (sc : Dict.t V) (b : string) :
  In b (Dict.keys
          (fold_left (Dict.acc_step fst
                        (fun (v : V) (x : string * X) => op v (snd x))
                        zero (fun x => Py.mem (fst x) seen)) d sc))
  <-> In b (Dict.keys sc) \/ (Py.mem b seen = false /\ In b (Dict.keys d)).
Proof.
  rewrite DictFacts.acc_keys. split.
  - intros [H|(x & Hx & Hs & <-)]; [now left|]. right. split; [assumption|].
    now apply in_map.
  - intros [H|[Hs Hb]]; [now left|]. right.
    apply in_map_iff in Hb. destruct Hb as (x & <- & Hx). exists x. auto.
Qed.

End Adding.

Lemma counts_nonneg (g : string -> Z) (l : list string) :
  (forall a, 0 <= g a)%Z -> (0 <= fold_right Z.add 0 (map g l))%Z.
Proof.
  intro Hg. induction l as [|a t IH]; simpl; [lia|].
  specialize (Hg a). lia.
Qed.

Section Scores.
Variable co : Dict.t (Dict.t Z).
Variable pop : Dict.t Z.
Variable seen : list string.
Hypothesis co_nodup : forall a, NoDup (Dict.keys (Dict.get_or co a [])).
Hypothesis pop_nodup : NoDup (Dict.keys pop).

(** The first loop of [_cooccurrence_recs] leaves, for an unseen item,
    the float of the sum of its counts: the additions do not round while
    the sum stays below 2^53. *)
Lemma neighbours_value (s : list string) (sc : Dict.t F64.t) (b : string)
      (n : Z) :
  Py.mem b seen = false ->
  (forall a, 0 <= CoTable.count co a b)%Z ->
  (0 <= n)%Z ->
  (n + fold_right Z.add 0 (map (fun a => CoTable.count co a b) s) < 2 ^ 53)%Z ->
  Dict.get_or sc b F64.zero = F64.of_int n ->
  Dict.get_or
    (fold_left (fun sc a => add_neighbours seen sc (Dict.get_or co a []))
               s sc) b F64.zero
  = F64.of_int
      (n + fold_right Z.add 0 (map (fun a => CoTable.count co a b) s))%Z.
Proof.
  intros Hb Hco. revert sc n.
  induction s as [|a t IH]; cbn [fold_left map fold_right];
    intros sc n Hn Hbound Hsc.
  - now rewrite Z.add_0_r.
  - pose proof (counts_nonneg (fun a => CoTable.count co a b) t Hco) as Ht.
    pose proof (Hco a) as Ha.
    rewrite Z.add_assoc. apply IH; [lia|lia|].
    refine (eq_trans
              (@adding_get_or F64.t Z (fun v c => F64.add v (F64.of_int c))
                 F64.zero seen (Dict.get_or co a []) sc b (co_nodup a) Hb) _).
    rewrite Hsc.
    match goal with
    | |- match ?g with _ => _ end = _ => destruct g as [c|] eqn:E
    end.
    + assert (Hc : CoTable.count co a b = c)
        by (unfold CoTable.count; unfold Dict.get_or at 1; now rewrite E).
      rewrite Hc in *. apply F64Facts.add_of_int; lia.
    + assert (Hc : CoTable.count co a b = 0%Z)
        by (unfold CoTable.count; unfold Dict.get_or at 1; now rewrite E).
      rewrite Hc. now rewrite Z.add_0_r.
Qed.

Lemma neighbours_keys (s : list string) (sc : Dict.t F64.t) (b : string) :
  In b (Dict.keys
          (fold_left (fun sc a => add_neighbours seen sc (Dict.get_or co a []))
                     s sc))
  <-> In b (Dict.keys sc)
      \/ (Py.mem b seen = false
          /\ exists a, In a s /\ In b (Dict.keys (Dict.get_or co a []))).
Proof.
  revert sc. induction s as [|a t IH]; simpl; intro sc.
  - split; [auto|]. intros [H|(_ & a & [] & _)]. assumption.
  - rewrite IH. unfold add_neighbours.
    rewrite (@adding_keys F64.t Z (fun v c => F64.add v (F64.of_int c))
               F64.zero seen (Dict.get_or co a []) sc b).
    split.
    + intros [[H|[Hs Hb]]|(Hs & a' & Ha' & Hb)]; [now left| |].
      * right. split; [assumption|]. exists a. auto.
      * right. split; [assumption|]. exists a'. auto.
    + intros [H|(Hs & a' & [<-|Ha'] & Hb)]; [left; now left| |].
      * left. right. auto.
      * right. split; [assumption|]. exists a'. auto.
Qed.

Lemma neighbours_nodup (s : list string) (sc : Dict.t F64.t) :
  NoDup (Dict.keys sc) ->
  NoDup (Dict.keys
           (fold_left (fun sc a => add_neighbours seen sc (Dict.get_or co a []))
                      s sc)).
Proof.
  revert sc. induction s as [|a t IH]; simpl; intros sc H; [assumption|].
  apply IH. unfold add_neighbours.
  now apply (@DictFacts.acc_nodup F64.t (string * Z) fst
               (fun v x => F64.add v (F64.of_int (snd x))) F64.zero
               (fun x => Py.mem (fst x) seen)).
Qed.

End Scores.

End ScoreFacts.

(* ================================================================== *)
(** ** Fallback ranking *)
(* ================================================================== *)

Module FallbackFacts.

Import Ratings CF.

Lemma score_order_trans (x y z : string * F64.t) :
  Design.score_order x y -> Design.score_order y z -> Design.score_order x z.
Proof.
  unfold Design.score_order.
  intros [H1|[H1 L1]] [H2|[H2 L2]].
  - left. eapply F64Facts.ltb_trans; eassumption.
  - left. eapply F64Facts.eqb_ltb; [|exact H1].
    destruct (F64Facts.compare_some (a := snd y) (b := snd z)) as (c & E1 & E2).
    + intro E. rewrite E in H2. destruct (snd z) as [| | |]; discriminate.
    + intro E. rewrite E in H2. destruct (snd y) as [| | |]; discriminate.
    + unfold F64.eqb, SFeqb in *. unfold F64.compare in *. rewrite E1 in H2.
      destruct c; try discriminate. now rewrite E2.
  - left. eapply F64Facts.ltb_eqb; [exact H2|].
    destruct (F64Facts.compare_some (a := snd x) (b := snd y)) as (c & E1 & E2).
    + intro E. rewrite E in H1. discriminate.
    + intro E. rewrite E in H1. destruct (snd x) as [| | |]; discriminate.
    + unfold F64.eqb, SFeqb in *. unfold F64.compare in *. rewrite E1 in H1.
      destruct c; try discriminate. now rewrite E2.
  - right. split; [eapply F64Facts.eqb_trans; eassumption|].
    eapply OrderFacts.string_ltb_trans; eassumption.
Qed.

Lemma string_ltb_total (x y : string) :
  x <> y -> String.ltb y x = false -> String.ltb x y = true.
Proof.
  unfold String.ltb. rewrite (String.compare_antisym y x). intros Hne.
  destruct (String.compare x y) eqn:E; simpl; try congruence.
  apply String.compare_eq_iff in E. contradiction.
Qed.

Lemma score_key_leb_true (x y : string * F64.t) :
  F64.nonneg (snd x) = true -> F64.nonneg (snd y) = true ->
  fst x <> fst y -> score_key_leb x y = true -> Design.score_order x y.
Proof.
  unfold score_key_leb, score_key_lt, Design.score_order.
  intros Hx Hy Hne. rewrite F64Facts.compare_neg.
  destruct (@F64Facts.compare_some (snd x) (snd y)
              (@F64Facts.nonneg_not_nan _ Hx) (@F64Facts.nonneg_not_nan _ Hy))
    as (c & E1 & E2).
  rewrite E1. unfold F64.ltb, F64.eqb, SFltb, SFeqb.
  unfold F64.compare in E1, E2. rewrite E1, E2.
  destruct c; simpl; rewrite ?negb_true_iff; intro H; try discriminate.
  - right. split; [reflexivity|]. now apply string_ltb_total.
  - now left.
Qed.

Lemma score_key_leb_false (x y : string * F64.t) :
  F64.nonneg (snd x) = true -> F64.nonneg (snd y) = true ->
  fst x <> fst y -> score_key_leb x y = false -> Design.score_order y x.
Proof.
  unfold score_key_leb, score_key_lt, Design.score_order.
  intros Hx Hy Hne. rewrite F64Facts.compare_neg.
  destruct (@F64Facts.compare_some (snd x) (snd y)
              (@F64Facts.nonneg_not_nan _ Hx) (@F64Facts.nonneg_not_nan _ Hy))
    as (c & E1 & E2).
  rewrite E1. unfold F64.ltb, F64.eqb, SFltb, SFeqb.
  unfold F64.compare in E1, E2. rewrite E1, E2.
  destruct c; simpl; rewrite ?negb_false_iff; intro H; try discriminate.
  - right. split; [reflexivity|exact H].
  - now left.
Qed.

(** The total co-occurrence count of an item is at most the number of
    rows of the table: each user and seen item it counts is a row of its
    own. *)
Lemma filter_one (p : string -> bool) (l : list string) :
  (forall x y, p x = true -> p y = true -> x = y) ->
  NoDup l -> (List.length (filter p l) <= 1)%nat.
Proof.
  intros Hp Hnd. induction Hnd as [|x t Hx Hnd IH]; simpl; [lia|].
  destruct (p x) eqn:E; [|assumption].
  assert (Hnil : filter p t = []).
  { destruct (filter p t) as [|y r] eqn:F; [reflexivity|]. exfalso.
    assert (Hy : In y (filter p t)) by (rewrite F; now left).
    apply filter_In in Hy. destruct Hy as [Hy Hpy].
    rewrite (Hp x y E Hpy) in Hx. contradiction. }
  rewrite Hnil. simpl. lia.
Qed.

Lemma filter_or_length (A : Type) (p q : A -> bool) (l : list A) :
  (List.length (filter (fun x => p x || q x) l)
   <= List.length (filter p l) + List.length (filter q l))%nat.
Proof.
  induction l as [|x t IH]; simpl; [lia|].
  destruct (p x), (q x); simpl; lia.
Qed.

Lemma filter_and_length (A : Type) (p q : A -> bool) (l : list A) :
  (List.length (filter (fun x => p x && q x) l) <= List.length (filter p l))%nat.
Proof.
  induction l as [|x t IH]; simpl; [lia|].
  destruct (p x), (q x); simpl; lia.
Qed.

Lemma filter_const_length (A : Type) (p : A -> bool) (c : bool) (l : list A) :
  (List.length (filter (fun x => p x && c) l)
   <= if c then List.length (filter p l) else 0)%nat.
Proof.
  induction l as [|x t IH]; simpl; [destruct c; lia|].
  destruct (p x), c; simpl in *; lia.
Qed.

Lemma counts_le (g h : string -> Z) (l : list string) :
  (forall a, g a <= h a)%Z ->
  (fold_right Z.add 0 (map g l) <= fold_right Z.add 0 (map h l))%Z.
Proof.
  intro H. induction l as [|a t IH]; simpl; [lia|]. specialize (H a). lia.
Qed.

Lemma counts_add (g h : string -> Z) (l : list string) :
  (fold_right Z.add 0 (map (fun a => g a + h a) l)
   = fold_right Z.add 0 (map g l) + fold_right Z.add 0 (map h l))%Z.
Proof. induction l as [|a t IH]; simpl; lia. Qed.

Lemma counts_indicator (q : string -> bool) (n : Z) (l : list string) :
  (fold_right Z.add 0 (map (fun a => if q a then n else 0) l)
   = Z.of_nat (List.length (filter q l)) * n)%Z.
Proof.
  induction l as [|a t IH]; [reflexivity|].
  cbn [map fold_right filter]. rewrite IH.
  destruct (q a); cbn [List.length]; lia.
Qed.

Section PairCount.
Variable R : Type.
Variable P Q : string -> R -> bool.
Variable S U : list string.
Hypothesis P_one : forall r, (List.length (filter (fun v => P v r) U) <= 1)%nat.
Hypothesis Q_one : forall r, (List.length (filter (fun a => Q a r) S) <= 1)%nat.

Lemma pair_count (rs : list R) :
  (fold_right Z.add 0
     (map (fun a =>
             Z.of_nat
               (List.length
                  (filter (fun v => existsb (fun r => P v r && Q a r) rs) U)))
          S)
   <= Z.of_nat (List.length rs))%Z.
Proof.
  induction rs as [|r t IH].
  - cbn [existsb List.length].
    rewrite (@counts_le _ (fun _ => 0%Z) S).
    + clear. induction S as [|a l IH]; simpl; lia.
    + intro a. clear. induction U as [|v l IH]; simpl; lia.
  - cbn [existsb List.length].
    eapply Z.le_trans.
    + apply (@counts_le _
               (fun a =>
                  (if Q a r then 1 else 0)
                  + Z.of_nat
                      (List.length
                         (filter (fun v => existsb (fun r => P v r && Q a r) t)
                                 U)))%Z).
      intro a.
      pose proof (@filter_or_length string (fun v => P v r && Q a r)
                    (fun v => existsb (fun r => P v r && Q a r) t) U) as H1.
      pose proof (@filter_const_length string (fun v => P v r) (Q a r) U) as H2.
      pose proof (P_one r) as H3.
      destruct (Q a r); lia.
    + rewrite counts_add, counts_indicator. pose proof (Q_one r). lia.
Qed.

End PairCount.

Lemma row_of_user_one (rs : list row) (r : row) :
  (List.length (filter (fun v => row_of_user v r) (user_keys rs)) <= 1)%nat.
Proof.
  apply filter_one; [|apply UserFacts.user_keys_nodup].
  unfold row_of_user. intros x y.
  destruct (user_id r) as [u|]; [|discriminate].
  intros Hx Hy. apply String.eqb_eq in Hx, Hy. congruence.
Qed.

Lemma item_of_row_one (l : list string) (r : row) :
  (List.length (filter (fun a => String.eqb a (str (item_id r))) (Py.set_of l))
   <= 1)%nat.
Proof.
  apply filter_one; [|apply DictFacts.set_of_nodup].
  intros x y Hx Hy. apply String.eqb_eq in Hx, Hy. congruence.
Qed.

Lemma co_occurrence_nonneg (rs : list row) (a b : string) :
  (0 <= Design.co_occurrence rs a b)%Z.
Proof. unfold Design.co_occurrence. lia. Qed.

Lemma co_total_range (rs : list row) (u b : string) :
  (0 <= Design.co_total rs u b <= Z.of_nat (List.length rs))%Z.
Proof.
  unfold Design.co_total. split.
  - apply (ScoreFacts.counts_nonneg (fun a => Design.co_occurrence rs a b)).
    intro a. apply co_occurrence_nonneg.
  - eapply Z.le_trans;
      [|apply (@pair_count row row_of_user
                 (fun a r => String.eqb a (str (item_id r)))
                 (Design.seen_items rs u) (user_keys rs)
                 (row_of_user_one rs)
                 (item_of_row_one _) rs)].
    apply counts_le. intro a. unfold Design.co_occurrence.
    apply Nat2Z.inj_le.
    apply (@filter_and_length string (fun v => Design.interacted rs v a)
             (fun v => Design.interacted rs v b) (user_keys rs)).
Qed.

Section Known.
Variable f : cf_files.
Variable rs : list row.
Variable uid : string.

Lemma scores_nodup :
  NoDup (Dict.keys (cooccurrence_scores (__init__ f rs)
                                        (Design.seen_items rs uid))).
Proof.
  unfold cooccurrence_scores, add_prior.
  apply (@DictFacts.acc_nodup F64.t (string * Z) fst
           (fun v x => F64.add v (F64.mul F64.c_0_01 (F64.of_int (snd x))))
           F64.zero
           (fun x => Py.mem (fst x) (Design.seen_items rs uid))).
  apply ScoreFacts.neighbours_nodup. constructor.
Qed.

Lemma scores_keys (b : string) :
  In b (Dict.keys (cooccurrence_scores (__init__ f rs)
                                       (Design.seen_items rs uid)))
  <-> Py.mem b (Design.seen_items rs uid) = false
      /\ In b (map (fun r => str (item_id r)) rs).
Proof.
  unfold cooccurrence_scores, add_prior.
  rewrite (@ScoreFacts.adding_keys F64.t Z
             (fun v p => F64.add v (F64.mul F64.c_0_01 (F64.of_int p)))
             F64.zero (Design.seen_items rs uid)).
  rewrite ScoreFacts.neighbours_keys, PopFacts.item_pop_keys. split.
  - intros [[[]|(Hs & a & Ha & Hb)]|[Hs Hb]]; [|tauto].
    split; [assumption|].
    now apply (proj2 (ScoreFacts.co_counts_inner f rs a)).
  - intros [Hs Hb]. right. auto.
Qed.

(** The score of an unseen item of the table, for a table of fewer than
    2^53 rows. *)
Lemma scores_value (b : string) :
  (Z.of_nat (List.length rs) < 2 ^ 53)%Z ->
  Py.mem b (Design.seen_items rs uid) = false ->
  In b (map (fun r => str (item_id r)) rs) ->
  Dict.get_or (cooccurrence_scores (__init__ f rs) (Design.seen_items rs uid))
              b F64.zero
  = Design.fallback_score rs uid b.
Proof.
  intros Hsize Hb Hin.
  refine (eq_trans
            (@ScoreFacts.adding_get_or F64.t Z
               (fun v p => F64.add v (F64.mul F64.c_0_01 (F64.of_int p)))
               F64.zero (Design.seen_items rs uid)
               (item_pop (__init__ f rs)) _ b (PopFacts.item_pop_nodup f rs) Hb)
            _).
  assert (Hpop : Dict.get (item_pop (__init__ f rs)) b
                 = Some (Design.popularity rs b)).
  { pose proof (PopFacts.item_pop_get_or f rs b) as Hg.
    unfold Dict.get_or in Hg.
    destruct (Dict.get (item_pop (__init__ f rs)) b) as [p|] eqn:E;
      [now rewrite Hg|].
    exfalso. apply DictFacts.get_none in E. apply E.
    now apply PopFacts.item_pop_keys. }
  rewrite Hpop. unfold Design.fallback_score. f_equal.
  assert (Hcount : forall a, In a (Design.seen_items rs uid) ->
             CoTable.count (co_counts (__init__ f rs)) a b
             = Design.co_occurrence rs a b).
  { intros a Ha. rewrite CoFacts.co_counts_spec.
    destruct (String.eqb a b) eqn:E; [|reflexivity].
    apply String.eqb_eq in E. subst. apply DictFacts.mem_in in Ha.
    congruence. }
  assert (Hsum : fold_right Z.add 0%Z
                   (map (fun a => CoTable.count (co_counts (__init__ f rs)) a b)
                        (Design.seen_items rs uid))
                 = Design.co_total rs uid b).
  { unfold Design.co_total. f_equal. now apply map_ext_in. }
  pose proof (co_total_range rs uid b) as Hrange.
  rewrite (@ScoreFacts.neighbours_value
             (co_counts (__init__ f rs)) (Design.seen_items rs uid)
             (fun a => proj1 (ScoreFacts.co_counts_inner f rs a))
             (Design.seen_items rs uid) [] b 0%Z Hb).
  - rewrite Hsum. reflexivity.
  - intro a. rewrite CoFacts.co_counts_spec.
    destruct (String.eqb a b); [lia|apply co_occurrence_nonneg].
  - lia.
  - rewrite Hsum. lia.
  - reflexivity.
Qed.

Lemma scores_length :
  List.length (cooccurrence_scores (__init__ f rs) (Design.seen_items rs uid))
  = CoTable.n_unseen rs uid.
Proof.
  unfold CoTable.n_unseen.
  rewrite <- (length_map fst (cooccurrence_scores _ _)).
  apply Permutation_length, NoDup_Permutation.
  - apply scores_nodup.
  - apply NoDup_filter, DictFacts.set_of_nodup.
  - intro b. rewrite filter_In, DictFacts.set_of_in, negb_true_iff.
    rewrite (scores_keys b). tauto.
Qed.

Lemma scores_unseen (a : string) (va : F64.t) :
  In (a, va) (cooccurrence_scores (__init__ f rs) (Design.seen_items rs uid)) ->
  ~ In a (Design.seen_items rs uid) /\ (0 < Design.popularity rs a)%Z.
Proof.
  intro H.
  assert (Hk : In a (Dict.keys (cooccurrence_scores (__init__ f rs)
                                  (Design.seen_items rs uid))))
    by (change a with (fst (a, va)); now apply in_map).
  apply scores_keys in Hk. destruct Hk as [Hs Hp]. split.
  - now apply DictFacts.mem_not_in.
  - now apply PopFacts.popularity_pos.
Qed.

Lemma scores_entry (a : string) (va : F64.t) :
  (Z.of_nat (List.length rs) < 2 ^ 53)%Z ->
  In (a, va) (cooccurrence_scores (__init__ f rs) (Design.seen_items rs uid)) ->
  va = Design.fallback_score rs uid a.
Proof.
  intros Hsize H.
  destruct (scores_unseen _ _ H) as [Hs Hp].
  apply DictFacts.mem_not_in in Hs. apply PopFacts.popularity_pos in Hp.
  apply DictFacts.in_get in H; [|apply scores_nodup].
  rewrite <- (scores_value a Hsize Hs Hp). unfold Dict.get_or. now rewrite H.
Qed.

(** No score is NaN or negative. *)
Lemma scores_nonneg (x : string * F64.t) :
  (Z.of_nat (List.length rs) < 2 ^ 53)%Z ->
  In x (cooccurrence_scores (__init__ f rs) (Design.seen_items rs uid)) ->
  F64.nonneg (snd x) = true.
Proof.
  intros Hsize H. destruct x as [a va]. simpl.
  rewrite (scores_entry a va Hsize H). unfold Design.fallback_score.
  apply F64Facts.add_nonneg.
  - apply F64Facts.of_int_nonneg. apply (co_total_range rs uid a).
  - apply F64Facts.prior_nonneg. unfold Design.popularity. lia.
Qed.

Lemma key_order_ranked (a b : string) :
  (Z.of_nat (List.length rs) < 2 ^ 53)%Z ->
  Design.key_order (cooccurrence_scores (__init__ f rs) (Design.seen_items rs uid))
                   Design.score_order a b ->
  Design.ranked_before (Design.fallback_score rs uid) a b.
Proof.
  intros Hsize (va & vb & Ha & Hb & HR).
  apply (scores_entry _ _ Hsize) in Ha, Hb. subst va vb. exact HR.
Qed.

End Known.

(** C4, as the code has it.  In fallback mode and for a user with at
    least one seen item, the co-occurrence table holds, for any two
    distinct items, the number of users whose interaction set contains
    both, and nothing for an item with itself; [recommend_for_user]
    returns the first [k] unseen items ranked by the binary64 score
    [float(count) + 0.01 * float(popularity)], where [count] is the total
    co-occurrence count with the seen items: higher computed score first
    and equal computed scores by ascending item id.  The table has fewer
    than 2^53 rows, so that the counts are added without rounding. *)
Theorem fallback_ranking (f : cf_files) (rs : list row) (uid : string)
        (k : nat) :
  has_artifacts (__init__ f rs) = false ->
  (exists it, Design.interacted rs uid it = true) ->
  (Z.of_nat (List.length rs) < 2 ^ 53)%Z ->
  (forall a b,
      CoTable.count (co_counts (__init__ f rs)) a b
      = if String.eqb a b then 0%Z else Design.co_occurrence rs a b)
  /\ exists top,
       recommend_for_user (__init__ f rs) uid k
       = map (fun it => [("item_id", it)]) top
       /\ NoDup top
       /\ List.length top = Nat.min k (CoTable.n_unseen rs uid)
       /\ (forall it, In it top ->
             Design.interacted rs uid it = false
             /\ (0 < Design.popularity rs it)%Z)
       /\ StronglySorted
            (Design.ranked_before (Design.fallback_score rs uid)) top
       /\ (forall x it, In x top -> ~ In it top ->
             Design.interacted rs uid it = false ->
             (0 < Design.popularity rs it)%Z ->
             Design.ranked_before (Design.fallback_score rs uid) x it).
Proof.
  intros Hmode (it0 & Hseen) Hsize.
  split; [intros a b; apply CoFacts.co_counts_spec|].
  set (scores := cooccurrence_scores (__init__ f rs) (Design.seen_items rs uid)).
  exists (map fst (Py.take k (Py.sorted score_key_leb scores))).
  assert (Hrecs : _cooccurrence_recs (__init__ f rs) uid k
                  = map fst (Py.take k (Py.sorted score_key_leb scores))).
  { unfold _cooccurrence_recs. rewrite UserFacts.user_items_seen.
    destruct (Design.seen_items rs uid) as [|s0 ss] eqn:E; [|reflexivity].
    apply UserFacts.seen_items_in in Hseen. rewrite E in Hseen.
    destruct Hseen. }
  pose proof (scores_nodup f rs uid) as Hnd. fold scores in Hnd.
  assert (Hok : forall x, In x scores -> F64.nonneg (snd x) = true)
    by (intros x Hx; now apply (@scores_nonneg f rs uid x Hsize)).
  split; [|split; [|split; [|split; [|split]]]].
  - unfold recommend_for_user. rewrite Hmode, Hrecs. f_equal.
    unfold Py.take. apply firstn_all2. rewrite length_map.
    apply firstn_le_length.
  - now apply TopK.top_nodup.
  - rewrite TopK.top_length. unfold scores. now rewrite scores_length.
  - intros it Hit. apply in_map_iff in Hit. destruct Hit as ([a va] & <- & Ha).
    apply TopK.firstn_In in Ha. apply SortFacts.sorted_in in Ha.
    apply scores_unseen in Ha. destruct Ha as (Hs & Hp). simpl.
    split; [|assumption].
    rewrite UserFacts.seen_items_in in Hs.
    now destruct (Design.interacted rs uid a).
  - eapply SortFacts.strongly_sorted_weaken;
      [|apply (@TopK.top_sorted F64.t score_key_leb Design.score_order
                 (fun v => F64.nonneg v = true) score_order_trans
                 score_key_leb_true score_key_leb_false _ Hnd Hok k)].
    intros x y _ _. now apply (@key_order_ranked f rs uid).
  - intros x it Hx Hit Hs Hp. apply (@key_order_ranked f rs uid); [assumption|].
    apply (@TopK.top_above_rest F64.t score_key_leb Design.score_order
             (fun v => F64.nonneg v = true) score_order_trans
             score_key_leb_true score_key_leb_false _ Hnd Hok k); auto.
    apply scores_keys. split.
    + rewrite CoFacts.mem_seen_interacted. exact Hs.
    + now apply PopFacts.popularity_pos.
Qed.

End FallbackFacts.

(* ================================================================== *)
(** ** Artifact mode: the reverse map and the masked row *)
(* ================================================================== *)

Module MaskFacts.

Import Ratings CF.

Lemma combine_app_eq (A C : Type) (l1 l2 : list A) (m1 m2 : list C) :
  List.length l1 = List.length m1 ->
  combine (l1 ++ l2) (m1 ++ m2) = combine l1 m1 ++ combine l2 m2.
Proof.
  revert m1. induction l1 as [|a l1 IH]; intros [|c m1] H; simpl in *;
    try discriminate; [reflexivity|].
  f_equal. apply IH. now injection H.
Qed.

Lemma enumerate_app (A : Type) (l : list A) (x : A) :
  Py.enumerate (l ++ [x]) = Py.enumerate l ++ [(List.length l, x)].
Proof.
  unfold Py.enumerate. rewrite length_app. simpl.
  rewrite Nat.add_1_r, seq_S. simpl.
  rewrite combine_app_eq by (now rewrite length_seq).
  reflexivity.
Qed.

Lemma index_of_ids_app (ids : list string) (x : string) :
  index_of_ids (ids ++ [x]) = Dict.set (index_of_ids ids) x (List.length ids).
Proof.
  unfold index_of_ids. rewrite enumerate_app, fold_left_app. reflexivity.
Qed.

Lemma skipn_app_lt (A : Type) (n : nat) (l1 l2 : list A) :
  (n <= List.length l1)%nat -> skipn n (l1 ++ l2) = skipn n l1 ++ l2.
Proof.
  intro H. rewrite skipn_app. replace (n - List.length l1)%nat with 0%nat by lia.
  reflexivity.
Qed.

(** The reverse map sends an id to the last position that carries it. *)
Lemma index_of_ids_spec (ids : list string) (it : string) (j : nat) :
  Dict.get (index_of_ids ids) it = Some j
  <-> nth_error ids j = Some it /\ ~ In it (skipn (S j) ids).
Proof.
  revert j. induction ids as [|x ids IH] using rev_ind; intro j.
  - simpl. split; [discriminate|]. intros [H _]. now destruct j.
  - rewrite index_of_ids_app, DictFacts.get_set.
    destruct (String.eqb it x) eqn:E.
    + apply String.eqb_eq in E. subst x. split.
      * intros [= <-]. split.
        -- rewrite nth_error_app2 by lia. now rewrite Nat.sub_diag.
        -- rewrite skipn_all2 by (rewrite length_app; simpl; lia).
           intros [].
      * intros [Hn Hs]. f_equal.
        destruct (Nat.lt_ge_cases j (List.length ids)) as [Hlt|Hge].
        -- exfalso. apply Hs. rewrite skipn_app_lt by lia.
           apply in_or_app. right. now left.
        -- assert (j < List.length (ids ++ [it]))%nat
             by (apply nth_error_Some; congruence).
           rewrite length_app in H. simpl in H. lia.
    + apply String.eqb_neq in E. rewrite IH. split.
      * intros [Hn Hs].
        assert (Hlt : (j < List.length ids)%nat)
          by (apply nth_error_Some; congruence).
        split; [now rewrite nth_error_app1|].
        rewrite skipn_app_lt by lia. intro Hin.
        apply in_app_or in Hin. destruct Hin as [Hin|[->|[]]]; tauto.
      * intros [Hn Hs].
        destruct (Nat.lt_ge_cases j (List.length ids)) as [Hlt|Hge].
        -- rewrite nth_error_app1 in Hn by assumption. split; [assumption|].
           intro Hin. apply Hs. rewrite skipn_app_lt by lia.
           apply in_or_app. now left.
        -- exfalso. rewrite nth_error_app2 in Hn by assumption.
           destruct (j - List.length ids)%nat as [|n]; simpl in Hn.
           ++ congruence.
           ++ now destruct n.
Qed.

Lemma index_of_ids_range (ids : list string) (it : string) (j : nat) :
  Dict.get (index_of_ids ids) it = Some j -> (j < List.length ids)%nat.
Proof.
  intro H. apply index_of_ids_spec in H. destruct H as [H _].
  apply nth_error_Some. congruence.
Qed.

Lemma hit_masked (ids seen : list string) (j : nat) :
  Masking.hit (index_of_ids ids) seen j = Masking.masked ids seen j.
Proof.
  unfold Masking.hit, Masking.masked.
  destruct (nth_error ids j) as [it|] eqn:En.
  - destruct (Py.mem it seen && negb (Py.mem it (skipn (S j) ids))) eqn:E.
    + apply andb_true_iff in E. destruct E as [E1 E2].
      apply negb_true_iff, DictFacts.mem_not_in in E2.
      apply DictFacts.mem_in in E1.
      apply existsb_exists. exists it. split; [assumption|].
      rewrite (proj2 (index_of_ids_spec ids it j) (conj En E2)).
      apply Nat.eqb_refl.
    + apply not_true_is_false. intro H. apply existsb_exists in H.
      destruct H as (it' & Hin & Hget).
      destruct (Dict.get (index_of_ids ids) it') as [j'|] eqn:Eg;
        [|discriminate].
      apply Nat.eqb_eq in Hget. subst j'.
      apply index_of_ids_spec in Eg. destruct Eg as [Hn Hs].
      assert (it' = it) by congruence. subst it'.
      apply DictFacts.mem_in in Hin. apply DictFacts.mem_not_in in Hs.
      rewrite Hin, Hs in E. discriminate.
  - apply not_true_is_false. intro H. apply existsb_exists in H.
    destruct H as (it' & Hin & Hget).
    destruct (Dict.get (index_of_ids ids) it') as [j'|] eqn:Eg;
      [|discriminate].
    apply Nat.eqb_eq in Hget. subst j'.
    apply index_of_ids_spec in Eg. destruct Eg as [Hn _]. congruence.
Qed.

Lemma set_at_spec (r : list Float.t) (j : nat) (v : Float.t) :
  (j < List.length r)%nat ->
  exists r', Np.set_at r j v = Py.Ok r'
             /\ List.length r' = List.length r
             /\ forall i, nth i r' Float.NaN
                          = if (j =? i)%nat then v else nth i r Float.NaN.
Proof.
  revert j. induction r as [|x t IH]; simpl; intros j Hj; [lia|].
  destruct j as [|j'].
  - exists (v :: t). split; [reflexivity|]. split; [reflexivity|].
    intros [|i]; reflexivity.
  - destruct (IH j') as (t' & Hset & Hlen & Hnth); [lia|].
    rewrite Hset. exists (x :: t'). split; [reflexivity|].
    split; [simpl; now rewrite Hlen|].
    intros [|i]; simpl; [reflexivity|apply Hnth].
Qed.

(** On a matrix of floats the masking loop succeeds and writes -inf to
    exactly the columns the reverse map gives for the seen items. *)
Lemma mask_seen_spec (i2i : Dict.t nat) (seen : list string)
      (row : list Float.t) :
  (forall it j, Dict.get i2i it = Some j -> (j < List.length row)%nat) ->
  exists row',
    mask_seen Np.floating i2i seen row = Py.Ok row'
    /\ List.length row' = List.length row
    /\ forall i, nth i row' Float.NaN
                 = if Masking.hit i2i seen i then Float.NegInf
                   else nth i row Float.NaN.
Proof.
  revert row. induction seen as [|it rest IH]; simpl; intros row Hr.
  - exists row. auto.
  - destruct (Dict.get i2i it) as [j|] eqn:E.
    + destruct (@set_at_spec row j Float.NegInf (Hr _ _ E))
        as (r1 & Hset & Hlen & Hnth).
      unfold Np.mask_at. rewrite Hset. simpl Py.bind.
      destruct (IH r1) as (row' & Hm & Hlen' & Hnth').
      { intros it' j' H. rewrite Hlen. eapply Hr, H. }
      exists row'. split; [assumption|]. split; [congruence|].
      intro i. rewrite Hnth', Hnth.
      destruct (Masking.hit i2i rest i), (j =? i)%nat; reflexivity.
    + destruct (IH row Hr) as (row' & Hm & Hlen' & Hnth').
      exists row'. auto.
Qed.

(** On a matrix of integers the first write raises OverflowError; the
    loop succeeds only when it has nothing to write. *)
Lemma mask_seen_integer (i2i : Dict.t nat) (seen : list string)
      (row : list Float.t) :
  (forall it j, Dict.get i2i it = Some j -> (j < List.length row)%nat) ->
  mask_seen Np.integer i2i seen row
  = if Masking.writes i2i seen then Py.Raise Py.OverflowError else Py.Ok row.
Proof.
  intro Hr. induction seen as [|it rest IH]; simpl; [reflexivity|].
  unfold Dict.has. destruct (Dict.get i2i it) as [j|] eqn:E; simpl.
  - destruct (@set_at_spec row j Float.NegInf (Hr _ _ E)) as (r1 & Hset & _).
    unfold Np.mask_at. now rewrite Hset.
  - exact IH.
Qed.

Lemma hit_writes (i2i : Dict.t nat) (seen : list string) (j : nat) :
  Masking.writes i2i seen = false -> Masking.hit i2i seen j = false.
Proof.
  unfold Masking.writes, Masking.hit, Dict.has. intro H.
  apply not_true_is_false. intro Hj. apply existsb_exists in Hj.
  destruct Hj as (it & Hin & Hit).
  assert (Hex : existsb (fun it => match Dict.get i2i it with
                                   | Some _ => true
                                   | None => false
                                   end) seen = true).
  { apply existsb_exists. exists it. split; [assumption|].
    destruct (Dict.get i2i it); [reflexivity|discriminate]. }
  congruence.
Qed.

(** Whatever the kind of the matrix, a masking loop that succeeds has
    written -inf to the columns of the seen items and to no other. *)
Lemma mask_seen_ok (dt : Np.kind) (i2i : Dict.t nat) (seen : list string)
      (row row' : list Float.t) :
  (forall it j, Dict.get i2i it = Some j -> (j < List.length row)%nat) ->
  mask_seen dt i2i seen row = Py.Ok row' ->
  (dt = Np.floating \/ Masking.writes i2i seen = false)
  /\ List.length row' = List.length row
  /\ forall i, nth i row' Float.NaN
               = if Masking.hit i2i seen i then Float.NegInf
                 else nth i row Float.NaN.
Proof.
  intros Hr Hok. destruct dt.
  - destruct (mask_seen_spec i2i seen row Hr) as (r & Hm & Hlen & Hnth).
    rewrite Hm in Hok. injection Hok as <-. auto.
  - rewrite (mask_seen_integer i2i seen row Hr) in Hok.
    destruct (Masking.writes i2i seen) eqn:E; [discriminate|].
    injection Hok as <-. split; [now right|]. split; [reflexivity|].
    intro i. now rewrite (hit_writes i2i seen i E).
Qed.

(** The masking loop succeeds on a matrix of floats, and on any matrix
    when it has nothing to write. *)
Lemma mask_seen_total (dt : Np.kind) (i2i : Dict.t nat) (seen : list string)
      (row : list Float.t) :
  (forall it j, Dict.get i2i it = Some j -> (j < List.length row)%nat) ->
  dt = Np.floating \/ Masking.writes i2i seen = false ->
  exists row',
    mask_seen dt i2i seen row = Py.Ok row'
    /\ List.length row' = List.length row
    /\ forall i, nth i row' Float.NaN
                 = if Masking.hit i2i seen i then Float.NegInf
                   else nth i row Float.NaN.
Proof.
  intros Hr Hdt. destruct dt.
  - apply mask_seen_spec, Hr.
  - destruct Hdt as [Hdt|Hw]; [discriminate|].
    exists row. rewrite (mask_seen_integer i2i seen row Hr), Hw.
    split; [reflexivity|]. split; [reflexivity|].
    intro i. now rewrite (hit_writes i2i seen i Hw).
Qed.

End MaskFacts.

(* ================================================================== *)
(** ** Artifact mode: the selected columns *)
(* ================================================================== *)

Module ArtifactFacts.

Import Ratings CF.

Lemma map_nth_seq (A : Type) (l : list A) (d : A) :
  map (fun i => nth i l d) (seq 0 (List.length l)) = l.
Proof.
  apply (nth_ext _ _ d d).
  - now rewrite length_map, length_seq.
  - intros n Hn. rewrite length_map, length_seq in Hn.
    rewrite (nth_indep _ d (nth 0 l d)) by (now rewrite length_map, length_seq).
    rewrite (map_nth (fun i => nth i l d)), seq_nth; auto.
Qed.

(** Sorting the selected entries again leaves them in place, so reading
    the result backwards reverses the selection. *)
Lemma second_sort (row : list Float.t) (topk : list nat) :
  StronglySorted (fun a b => Float.leb a b = true)
                 (Np.fancy Float.NaN row topk) ->
  Np.fancy 0%nat topk (rev (Np.argsort (Np.fancy Float.NaN row topk)))
  = rev topk.
Proof.
  intro HS. set (vals := Np.fancy Float.NaN row topk) in *.
  assert (Hsort : Np.argsort vals = seq 0 (List.length vals)).
  { unfold Np.argsort. rewrite ArgsortFacts.sorted_id.
    - apply ArgsortFacts.enumerate_fst.
    - apply (SortFacts.strongly_sorted_map snd
               (fun a b => Float.leb a b = true)).
      now rewrite ArgsortFacts.enumerate_snd. }
  rewrite Hsort. unfold Np.fancy, vals. rewrite map_rev. f_equal.
  unfold Np.fancy. rewrite length_map. apply map_nth_seq.
Qed.

Lemma collect_spec (ids : list string) (row : list Float.t)
      (idx : list nat) :
  (forall j, In j idx -> (j < List.length ids)%nat) ->
  collect ids row idx
  = Py.Ok (map (fun j => nth j ids EmptyString)
               (filter (fun j => Float.isfinite (nth j row Float.NaN)) idx)).
Proof.
  induction idx as [|j rest IH]; simpl; intro H; [reflexivity|].
  rewrite IH by (intros; apply H; auto).
  destruct (Float.isfinite (nth j row Float.NaN)); [|reflexivity].
  destruct (nth_error ids j) as [it|] eqn:E.
  - simpl. now rewrite (nth_error_nth _ _ _ E).
  - apply nth_error_None in E. specialize (H j (or_introl eq_refl)). lia.
Qed.

Lemma last_n_pos (A : Type) (k : nat) (l : list A) :
  (0 < k)%nat -> Py.last_n k l = skipn (List.length l - k) l.
Proof. destruct k; [lia|reflexivity]. Qed.

Lemma last_n_sorted (row : list Float.t) (k : nat) :
  StronglySorted (fun a b => Float.leb a b = true)
                 (Np.fancy Float.NaN row (Py.last_n k (Np.argsort row))).
Proof.
  unfold Np.fancy.
  apply (SortFacts.strongly_sorted_map (fun j => nth j row Float.NaN)
           (fun a b => Float.leb a b = true)).
  destruct k as [|k']; [apply ArgsortFacts.argsort_ascending|].
  unfold Py.last_n. apply SortFacts.strongly_sorted_skipn.
  apply ArgsortFacts.argsort_ascending.
Qed.

(** The columns the artifact path selects from a masked row of [m]
    entries, for [0 < k <= m]: [k] columns, none twice, their scores in
    non-increasing order and none smaller than the score of a column
    left out. *)
Lemma selection_spec (row : list Float.t) (k : nat) :
  (0 < k <= List.length row)%nat ->
  let sc := fun c => nth c row Float.NaN in
  let top := rev (Py.last_n k (Np.argsort row)) in
  List.length top = k
  /\ NoDup top
  /\ (forall j, In j top -> (j < List.length row)%nat)
  /\ StronglySorted (fun i j => Float.leb (sc j) (sc i) = true) top
  /\ (forall i j, In i top -> (j < List.length row)%nat -> ~ In j top ->
                  Float.leb (sc j) (sc i) = true).
Proof.
  intros Hk sc top. unfold top. rewrite last_n_pos by lia.
  rewrite ArgsortFacts.argsort_length.
  set (s := Np.argsort row).
  pose proof (ArgsortFacts.argsort_ascending row) as HS. fold s in HS.
  split; [|split; [|split; [|split]]].
  - rewrite length_rev, length_skipn. unfold s.
    rewrite ArgsortFacts.argsort_length. lia.
  - apply NoDup_rev, SortFacts.nodup_skipn, ArgsortFacts.argsort_nodup.
  - intros j Hj. apply in_rev, TopK.skipn_In in Hj.
    now apply ArgsortFacts.argsort_in.
  - apply (SortFacts.strongly_sorted_rev
             (SortFacts.strongly_sorted_skipn (List.length row - k) HS)).
  - intros i j Hi Hj Hnj. apply in_rev in Hi.
    destruct (SortFacts.strongly_sorted_firstn (List.length row - k) HS)
      as [_ Hcross].
    apply Hcross; [|assumption].
    apply ArgsortFacts.argsort_in in Hj. fold s in Hj.
    destruct (SortFacts.in_split_at (List.length row - k) _ _ Hj)
      as [H|H]; [assumption|].
    exfalso. apply Hnj. now apply in_rev in H.
Qed.

(** The reverse map knows exactly the ids of the item list. *)
Lemma has_index_of_ids (ids : list string) (it : string) :
  Dict.has (index_of_ids ids) it = Py.mem it ids.
Proof.
  unfold Dict.has.
  destruct (Dict.get (index_of_ids ids) it) as [j|] eqn:E.
  - symmetry. apply DictFacts.mem_in.
    apply MaskFacts.index_of_ids_spec in E. destruct E as [E _].
    eapply nth_error_In, E.
  - symmetry. apply DictFacts.mem_not_in. intro Hin.
    apply DictFacts.get_none in E. apply E.
    unfold index_of_ids.
    assert (Hk : forall (l : list (nat * string)) (d : Dict.t nat),
               In it (Dict.keys d) \/ In it (map snd l) ->
               In it (Dict.keys
                        (fold_left (fun d iu => Dict.set d (snd iu) (fst iu))
                                   l d))).
    { induction l as [|x t IH]; simpl; intros d H; [tauto|].
      apply IH. rewrite DictFacts.keys_set.
      destruct H as [H|[H|H]]; auto. }
    apply Hk. right. now rewrite ArgsortFacts.enumerate_snd.
Qed.

Lemma writes_any_masked (ids seen : list string) :
  Masking.writes (index_of_ids ids) seen = Masking.any_masked ids seen.
Proof.
  unfold Masking.writes, Masking.any_masked.
  induction seen as [|it rest IH]; simpl; [reflexivity|].
  now rewrite has_index_of_ids, IH.
Qed.

(** The steps of [_recs_from_artifacts] up to the masked row. *)
Lemma recs_masked_row (st : CFInference) (uid : string) (k : nat)
      (u2i i2i : Dict.t nat) (sc : Np.ndarray) (uidx n m : nat) :
  user_to_idx st = Some u2i ->
  Dict.get u2i uid = Some uidx ->
  scores st = Some sc ->
  Np.shape sc = [n; m] ->
  (uidx < n)%nat ->
  item_to_idx st = Some i2i ->
  _recs_from_artifacts st uid k
  = (row <- mask_seen (Np.dtype sc) i2i (Dict.get_or (user_items st) uid [])
                      (map (Np.at2 sc uidx) (seq 0 m)) ;;
     part <- Np.argpartition row (- Z.of_nat k) ;;
     let topk_idx := Py.last_n k part in
     let topk_idx :=
       Np.fancy 0%nat topk_idx
                (rev (Np.argsort (Np.fancy Float.NaN row topk_idx))) in
     i2item <- attr (idx_to_item st) ;;
     collect i2item row topk_idx).
Proof.
  intros Hu Hg Hs Hshape Hlt Hi. unfold _recs_from_artifacts.
  rewrite Hu. simpl Py.bind. rewrite Hg, Hs. simpl Py.bind.
  unfold Np.row. rewrite Hshape.
  apply Nat.ltb_lt in Hlt. rewrite Hlt. simpl Py.bind.
  rewrite Hi. simpl Py.bind.
  destruct (Dict.get_or (user_items st) uid []); reflexivity.
Qed.

(** [_recs_from_artifacts] for a user of the artifact whose row lies in
    the matrix, when the masking loop can write: the matrix holds floats,
    or there is nothing to mask. *)
Lemma recs_from_artifacts_known (st : CFInference) (uid : string) (k : nat)
      (u2i i2i : Dict.t nat) (sc : Np.ndarray) (ids : list string)
      (uidx n : nat) :
  user_to_idx st = Some u2i ->
  Dict.get u2i uid = Some uidx ->
  scores st = Some sc ->
  Np.shape sc = [n; List.length ids] ->
  (uidx < n)%nat ->
  item_to_idx st = Some i2i ->
  (forall it j, Dict.get i2i it = Some j -> (j < List.length ids)%nat) ->
  idx_to_item st = Some ids ->
  (0 < k <= List.length ids)%nat ->
  Np.dtype sc = Np.floating
  \/ Masking.writes i2i (Dict.get_or (user_items st) uid []) = false ->
  exists row,
    List.length row = List.length ids
    /\ (forall j, (j < List.length ids)%nat ->
          nth j row Float.NaN
          = if Masking.hit i2i (Dict.get_or (user_items st) uid []) j
            then Float.NegInf else Np.at2 sc uidx j)
    /\ _recs_from_artifacts st uid k
       = Py.Ok (map (fun j => nth j ids EmptyString)
                    (filter (fun j => Float.isfinite (nth j row Float.NaN))
                            (rev (Py.last_n k (Np.argsort row))))).
Proof.
  intros Hu Hg Hs Hshape Hlt Hi Hrange Hids Hk Hdt.
  set (row0 := map (Np.at2 sc uidx) (seq 0 (List.length ids))).
  assert (Hlen0 : List.length row0 = List.length ids)
    by (unfold row0; now rewrite length_map, length_seq).
  destruct (@MaskFacts.mask_seen_total (Np.dtype sc) i2i
              (Dict.get_or (user_items st) uid []) row0)
    as (row & Hmask & Hlen & Hnth).
  { intros it j H. rewrite Hlen0. eapply Hrange, H. }
  { exact Hdt. }
  exists row. split; [congruence|]. split.
  - intros j Hj. rewrite Hnth. unfold row0.
    rewrite SearchFacts.nth_scores by assumption. reflexivity.
  - rewrite (@recs_masked_row st uid k u2i i2i sc uidx n (List.length ids)
               Hu Hg Hs Hshape Hlt Hi).
    fold row0. rewrite Hmask. simpl Py.bind. unfold Np.argpartition.
    assert (Hb : ((- Z.of_nat (List.length row) <=? - Z.of_nat k)
                  && (- Z.of_nat k <? Z.of_nat (List.length row)))%Z = true).
    { apply andb_true_iff. split; [apply Z.leb_le|apply Z.ltb_lt]; lia. }
    rewrite Hb. simpl Py.bind. rewrite Hids. simpl Py.bind.
    rewrite second_sort by apply last_n_sorted.
    apply collect_spec. intros j Hj.
    rewrite last_n_pos in Hj by lia.
    apply in_rev, TopK.skipn_In, ArgsortFacts.argsort_in in Hj. lia.
Qed.

(** The row of the user lies outside the matrix. *)
Lemma recs_row_outside (st : CFInference) (uid : string) (k : nat)
      (u2i : Dict.t nat) (sc : Np.ndarray) (uidx n m : nat) :
  user_to_idx st = Some u2i ->
  Dict.get u2i uid = Some uidx ->
  scores st = Some sc ->
  Np.shape sc = [n; m] ->
  (n <= uidx)%nat ->
  _recs_from_artifacts st uid k = Py.Raise Py.IndexError.
Proof.
  intros Hu2i Hget Hsc Hshape Hn. unfold _recs_from_artifacts.
  rewrite Hu2i. simpl Py.bind. rewrite Hget, Hsc. simpl Py.bind.
  unfold Np.row. rewrite Hshape.
  apply Nat.ltb_ge in Hn. now rewrite Hn.
Qed.

(** A matrix of integers with a column to mask. *)
Lemma recs_overflow (st : CFInference) (uid : string) (k : nat)
      (u2i : Dict.t nat) (sc : Np.ndarray) (ids : list string)
      (uidx n : nat) :
  user_to_idx st = Some u2i ->
  Dict.get u2i uid = Some uidx ->
  scores st = Some sc ->
  Np.shape sc = [n; List.length ids] ->
  (uidx < n)%nat ->
  item_to_idx st = Some (index_of_ids ids) ->
  Np.dtype sc = Np.integer ->
  Masking.any_masked ids (Dict.get_or (user_items st) uid []) = true ->
  _recs_from_artifacts st uid k = Py.Raise Py.OverflowError.
Proof.
  intros Hu2i Hget Hsc Hshape Hlt Hi2i Hdt Hany.
  rewrite (@recs_masked_row st uid k u2i (index_of_ids ids) sc uidx n
             (List.length ids) Hu2i Hget Hsc Hshape Hlt Hi2i).
  rewrite Hdt, MaskFacts.mask_seen_integer, writes_any_masked, Hany.
  - reflexivity.
  - intros it j H. rewrite length_map, length_seq.
    eapply MaskFacts.index_of_ids_range, H.
Qed.

(** More items are asked for than the matrix has columns. *)
Lemma recs_too_many (st : CFInference) (uid : string) (k : nat)
      (u2i : Dict.t nat) (sc : Np.ndarray) (ids : list string)
      (uidx n : nat) :
  user_to_idx st = Some u2i ->
  Dict.get u2i uid = Some uidx ->
  scores st = Some sc ->
  Np.shape sc = [n; List.length ids] ->
  (uidx < n)%nat ->
  item_to_idx st = Some (index_of_ids ids) ->
  Np.dtype sc = Np.floating
  \/ Masking.any_masked ids (Dict.get_or (user_items st) uid []) = false ->
  (List.length ids < k)%nat ->
  _recs_from_artifacts st uid k = Py.Raise Py.ValueError.
Proof.
  intros Hu2i Hget Hsc Hshape Hlt Hi2i Hdt Hgt.
  rewrite (@recs_masked_row st uid k u2i (index_of_ids ids) sc uidx n
             (List.length ids) Hu2i Hget Hsc Hshape Hlt Hi2i).
  set (row0 := map (Np.at2 sc uidx) (seq 0 (List.length ids))).
  assert (Hlen0 : List.length row0 = List.length ids)
    by (unfold row0; now rewrite length_map, length_seq).
  destruct (@MaskFacts.mask_seen_total (Np.dtype sc) (index_of_ids ids)
              (Dict.get_or (user_items st) uid []) row0)
    as (row & Hmask & Hlen & _).
  { intros it j H. rewrite Hlen0. eapply MaskFacts.index_of_ids_range, H. }
  { now rewrite writes_any_masked. }
  rewrite Hmask. simpl Py.bind. unfold Np.argpartition.
  assert (Hb : ((- Z.of_nat (List.length row) <=? - Z.of_nat k)
                && (- Z.of_nat k <? Z.of_nat (List.length row)))%Z = false).
  { apply andb_false_iff. left. apply Z.leb_gt. lia. }
  now rewrite Hb.
Qed.

End ArtifactFacts.

(* ================================================================== *)
(** ** Artifact mode: recommendations *)
(* ================================================================== *)

Module ArtifactRanking.

Import Ratings CF.

Lemma init_artifacts (f : cf_files) (rs : list row) :
  has_artifacts (__init__ f rs) = true ->
  exists sc user_ids ids,
    scores (__init__ f rs) = Some sc
    /\ user_to_idx (__init__ f rs) = Some (index_of_ids user_ids)
    /\ idx_to_item (__init__ f rs) = Some ids
    /\ item_to_idx (__init__ f rs) = Some (index_of_ids ids)
    /\ Np.shape sc = [List.length (index_of_ids user_ids); List.length ids].
Proof.
  unfold __init__. simpl.
  destruct (_try_load_artifacts f) as [[[sc u2i] ids]|] eqn:E; [|discriminate].
  intros _. apply LoadFacts.try_load_some in E.
  destruct E as (us & _ & _ & _ & -> & Hshape).
  exists sc, us, ids. simpl. auto.
Qed.

Lemma take_short (A : Type) (k : nat) (l : list A) :
  (List.length l <= k)%nat -> Py.take k l = l.
Proof. apply firstn_all2. Qed.



End ArtifactRanking.

Module ArtifactCases.

Import Ratings CF.



End ArtifactCases.

Module FallbackCases.

Import Ratings CF.

(** Witness for C4: three users, four items, recommendations for "u1". *)
Lemma fallback_ranking_witness :
  (forall a b,
      CoTable.count (co_counts (__init__ Sample.no_files
                                     SampleArtifacts.ratings_co)) a b
      = if String.eqb a b then 0%Z
        else Design.co_occurrence SampleArtifacts.ratings_co a b)
  /\ exists top,
       recommend_for_user (__init__ Sample.no_files SampleArtifacts.ratings_co)
                          "u1" 3
       = map (fun it => [("item_id", it)]) top
       /\ NoDup top
       /\ List.length top
          = Nat.min 3 (CoTable.n_unseen SampleArtifacts.ratings_co "u1")
       /\ (forall it, In it top ->
             Design.interacted SampleArtifacts.ratings_co "u1" it = false
             /\ (0 < Design.popularity SampleArtifacts.ratings_co it)%Z)
       /\ StronglySorted
            (Design.ranked_before
               (Design.fallback_score SampleArtifacts.ratings_co "u1")) top
       /\ (forall x it, In x top -> ~ In it top ->
             Design.interacted SampleArtifacts.ratings_co "u1" it = false ->
             (0 < Design.popularity SampleArtifacts.ratings_co it)%Z ->
             Design.ranked_before
               (Design.fallback_score SampleArtifacts.ratings_co "u1") x it).
Proof.
  apply (@FallbackFacts.fallback_ranking Sample.no_files
           SampleArtifacts.ratings_co "u1" 3).
  - reflexivity.
  - exists "A". reflexivity.
  - reflexivity.
Defined.

(** Counterexample to C4 as stated.  The user "t" has seen A; the unseen
    items B and C both have the score 1 + 0.01 x 13 = 0 + 0.01 x 113 =
    1.13, so that the tie rule puts B first.  In binary64 the sum
    1.0 + 0.13 is rounded to 5089067578928660 / 2^52 and the product
    0.01 * 113.0 to 5089067578928661 / 2^52: the call returns C, B. *)
Lemma fallback_ranking_counterexample :
  has_artifacts (__init__ Sample.no_files SampleArtifacts.ratings_prior) = false
  /\ Design.seen_items SampleArtifacts.ratings_prior "t" = ["A"]
  /\ Design.exact_score SampleArtifacts.ratings_prior "t" "B" == 113 # 100
  /\ Design.exact_score SampleArtifacts.ratings_prior "t" "C" == 113 # 100
  /\ String.ltb "B" "C" = true
  /\ Design.fallback_score SampleArtifacts.ratings_prior "t" "B"
     = S754_finite false 5089067578928660 (-52)
  /\ Design.fallback_score SampleArtifacts.ratings_prior "t" "C"
     = S754_finite false 5089067578928661 (-52)
  /\ item_ids_of
       (recommend_for_user (__init__ Sample.no_files
                                     SampleArtifacts.ratings_prior) "t" 2)
     = ["C"; "B"].
Proof.
  repeat split; vm_compute; reflexivity.
Qed.

End FallbackCases.

(* ================================================================== *)
(** ** Length and distinctness of recommendations *)
(* ================================================================== *)

Module RecommendFacts.

Import Ratings CF.

Lemma nodup_map_nth (ids : list string) (l : list nat) :
  NoDup ids -> NoDup l -> (forall j, In j l -> (j < List.length ids)%nat) ->
  NoDup (map (fun j => nth j ids EmptyString) l).
Proof.
  intros Hids Hl. induction Hl as [|x t Hx Ht IH]; simpl; intro Hlt;
    constructor.
  - intro Hin. apply in_map_iff in Hin. destruct Hin as (y & Heq & Hy).
    apply Hx. replace x with y; [assumption|].
    apply (proj1 (NoDup_nth ids EmptyString) Hids); auto.
  - apply IH. intros; apply Hlt; auto.
Qed.

Lemma cooccurrence_recs_nodup (f : cf_files) (rs : list row) (uid : string)
      (k : nat) :
  NoDup (_cooccurrence_recs (__init__ f rs) uid k).
Proof.
  unfold _cooccurrence_recs. rewrite UserFacts.user_items_seen.
  destruct (Design.seen_items rs uid) as [|s0 ss] eqn:E.
  - apply PopFacts.popular_only_spec.
  - rewrite <- E. apply TopK.top_nodup, FallbackFacts.scores_nodup.
Qed.

(** The artifact path either raises or answers from one of its two
    branches. *)
Lemma recs_from_artifacts_ok (st : CFInference) (uid : string) (k : nat)
      (r : list string) (u2i : Dict.t nat) (sc : Np.ndarray)
      (ids : list string) (n : nat) :
  user_to_idx st = Some u2i ->
  scores st = Some sc ->
  Np.shape sc = [n; List.length ids] ->
  item_to_idx st = Some (index_of_ids ids) ->
  idx_to_item st = Some ids ->
  (0 < k)%nat ->
  _recs_from_artifacts st uid k = Py.Ok r ->
  r = _popular_only st k
  \/ exists top,
       NoDup top
       /\ (forall j, In j top -> (j < List.length ids)%nat)
       /\ r = map (fun j => nth j ids EmptyString) top.
Proof.
  intros Hu2i Hsc Hshape Hi2i Hids Hk Hok.
  destruct (Dict.get u2i uid) as [uidx|] eqn:Hget.
  - right.
    destruct (uidx <? n)%nat eqn:Hlt.
    + apply Nat.ltb_lt in Hlt.
      assert (Hdt : Np.dtype sc = Np.floating
                    \/ Masking.writes (index_of_ids ids)
                         (Dict.get_or (user_items st) uid []) = false).
      { pose proof Hok as Hok'.
        rewrite (@ArtifactFacts.recs_masked_row
                   st uid k u2i (index_of_ids ids) sc uidx n (List.length ids)
                   Hu2i Hget Hsc Hshape Hlt Hi2i) in Hok'.
        destruct (mask_seen (Np.dtype sc) (index_of_ids ids)
                            (Dict.get_or (user_items st) uid [])
                            (map (Np.at2 sc uidx) (seq 0 (List.length ids))))
          as [row|e] eqn:Hmask; [|discriminate].
        apply MaskFacts.mask_seen_ok in Hmask; [tauto|].
        intros it j H. rewrite length_map, length_seq.
        eapply MaskFacts.index_of_ids_range, H. }
      destruct (Nat.le_gt_cases k (List.length ids)) as [Hle|Hgt].
      * destruct (@ArtifactFacts.recs_from_artifacts_known
                    st uid k u2i (index_of_ids ids) sc ids uidx n
                    Hu2i Hget Hsc Hshape Hlt Hi2i
                    (MaskFacts.index_of_ids_range ids) Hids (conj Hk Hle) Hdt)
          as (row & Hlen & _ & Hrecs).
        rewrite Hrecs in Hok. injection Hok as <-.
        destruct (@ArtifactFacts.selection_spec row k) as (_ & H2 & H3 & _);
          [lia|].
        exists (filter (fun j => Float.isfinite (nth j row Float.NaN))
                       (rev (Py.last_n k (Np.argsort row)))).
        split; [now apply NoDup_filter|].
        split; [|reflexivity].
        intros j Hj. apply filter_In in Hj. rewrite <- Hlen. apply H3, Hj.
      * exfalso. rewrite ArtifactFacts.writes_any_masked in Hdt.
        rewrite (@ArtifactFacts.recs_too_many
                   st uid k u2i sc ids uidx n
                   Hu2i Hget Hsc Hshape Hlt Hi2i Hdt Hgt) in Hok.
        discriminate.
    + exfalso. apply Nat.ltb_ge in Hlt.
      rewrite (@ArtifactFacts.recs_row_outside
                 st uid k u2i sc uidx n (List.length ids)
                 Hu2i Hget Hsc Hshape Hlt) in Hok.
      discriminate.
  - left. revert Hok. unfold _recs_from_artifacts.
    rewrite Hu2i. simpl Py.bind. rewrite Hget. now intros [= <-].
Qed.

Lemma idx_to_item_file (f : cf_files) (rs : list row) (ids : list string) :
  idx_to_item (__init__ f rs) = Some ids -> item_ids_json f = Some ids.
Proof.
  unfold __init__. simpl.
  destruct (_try_load_artifacts f) as [[[sc u2i] i2]|] eqn:E; [|discriminate].
  apply LoadFacts.try_load_some in E.
  destruct E as (us & _ & _ & Hj & _). simpl. congruence.
Qed.

(** C2, as the code has it.  The one call of [recommend_for_user] that
    can raise, the artifact path, is made under [try/except Exception]:
    what it returns is cut to [k] entries, and whenever it raises the call
    is answered by the co-occurrence/popularity path, as it is without
    artifacts; nothing else in the method raises, so the call always
    returns.  The list it returns has at most [k] entries.  It names no
    item id twice provided the item list of the artifact names no id
    twice. *)
Theorem recommend_bounded_distinct (f : cf_files) (rs : list row)
        (uid : string) (k : nat) :
  (List.length (recommend_for_user (__init__ f rs) uid k) <= k)%nat
  /\ ((forall ids, item_ids_json f = Some ids -> NoDup ids) ->
      NoDup (item_ids_of (recommend_for_user (__init__ f rs) uid k)))
  /\ (has_artifacts (__init__ f rs) = false
      \/ (exists e, _recs_from_artifacts (__init__ f rs) uid k = Py.Raise e) ->
      recommend_for_user (__init__ f rs) uid k
      = map (fun it => [("item_id", it)])
            (Py.take k (_cooccurrence_recs (__init__ f rs) uid k)))
  /\ (forall r,
        has_artifacts (__init__ f rs) = true ->
        _recs_from_artifacts (__init__ f rs) uid k = Py.Ok r ->
        recommend_for_user (__init__ f rs) uid k
        = map (fun it => [("item_id", it)]) (Py.take k r)).
Proof.
  split; [|split; [|split]].
  - unfold recommend_for_user, Py.take. rewrite length_map.
    apply firstn_le_length.
  - intro Hfiles.
    unfold recommend_for_user. rewrite ColdStart.item_ids_of_map.
    destruct k as [|k']; [unfold Py.take; simpl; constructor|].
    unfold Py.take. apply SortFacts.nodup_firstn.
    destruct (has_artifacts (__init__ f rs)) eqn:Hart;
      [|apply cooccurrence_recs_nodup].
    destruct (_recs_from_artifacts (__init__ f rs) uid (S k')) as [r|e] eqn:Hok;
      [|apply cooccurrence_recs_nodup].
    destruct (ArtifactRanking.init_artifacts f rs Hart)
      as (sc & us & ids & Hsc & Hu2i & Hids & Hi2i & Hshape).
    destruct (@recs_from_artifacts_ok (__init__ f rs) uid (S k') r _ sc ids _
                Hu2i Hsc Hshape Hi2i Hids (Nat.lt_0_succ k') Hok)
      as [->|(top & Hnd & Hlt & ->)].
    + apply PopFacts.popular_only_spec.
    + apply nodup_map_nth; auto. apply Hfiles.
      now apply (idx_to_item_file f rs).
  - intros [Hno|(e & He)]; unfold recommend_for_user.
    + now rewrite Hno.
    + rewrite He. now destruct (has_artifacts (__init__ f rs)).
  - intros r Hart Hok. unfold recommend_for_user. now rewrite Hart, Hok.
Qed.

End RecommendFacts.

Module RecommendCases.

Import Ratings CF.

(** Witness for C2: the artifact with one user row over A and B, whose
    item list names no id twice. *)
Lemma recommend_bounded_distinct_witness :
  (List.length (recommend_for_user
                  (__init__ Sample.files_u_AB Sample.ratings_A_popular) "u" 2)
   <= 2)%nat
  /\ NoDup (item_ids_of
              (recommend_for_user
                 (__init__ Sample.files_u_AB Sample.ratings_A_popular) "u" 2))
  /\ recommend_for_user (__init__ Sample.files_u_AB Sample.ratings_A_popular)
                        "u" 2
     = [[("item_id", "B")]; [("item_id", "A")]].
Proof.
  destruct (@RecommendFacts.recommend_bounded_distinct Sample.files_u_AB
              Sample.ratings_A_popular "u" 2) as (Hlen & Hnd & _ & Hok).
  split; [exact Hlen|]. split.
  - apply Hnd. intros ids Hids. injection Hids as <-.
    apply SimilarFacts.distinct_nodup. reflexivity.
  - apply (Hok ["B"; "A"]); vm_compute; reflexivity.
Defined.

(** C2 as stated fails when the item list of the artifact names an id
    twice: the files pass the shape check (1 x 2 against one user and two
    entries) and the call for two items returns A twice. *)
Lemma recommend_bounded_distinct_counterexample :
  has_artifacts (__init__ SampleArtifacts.files_A_twice Sample.ratings_A_popular)
  = true
  /\ item_ids_of
       (recommend_for_user
          (__init__ SampleArtifacts.files_A_twice Sample.ratings_A_popular) "u" 2)
     = ["A"; "A"]
  /\ ~ NoDup (item_ids_of
                (recommend_for_user
                   (__init__ SampleArtifacts.files_A_twice
                         Sample.ratings_A_popular) "u" 2)).
Proof.
  assert (H : item_ids_of
                (recommend_for_user
                   (__init__ SampleArtifacts.files_A_twice
                         Sample.ratings_A_popular) "u" 2)
              = ["A"; "A"]) by (vm_compute; reflexivity).
  split; [vm_compute; reflexivity|]. split; [exact H|].
  rewrite H. intro Hnd. inversion Hnd as [|? ? Hin _]; subst.
  apply Hin. now left.
Qed.

End RecommendCases.

(* ================================================================== *)
(** ** rank_blender.py: topk *)
(* ================================================================== *)

Module StableFacts.

(** A stable sort keeps the order of elements that compare as equals. *)
Section Stable.
Variable A : Type.
Variable leb : A -> A -> bool.
Variable p : A -> bool.
Hypothesis p_equal : forall x y, p x = true -> p y = true -> leb x y = true.

Lemma insort_filter (x : A) (l : list A) :
  filter p (Py.insort leb x l) = if p x then x :: filter p l else filter p l.
Proof.
  induction l as [|y t IH]; simpl; [reflexivity|].
  destruct (leb x y) eqn:E; simpl; [reflexivity|].
  rewrite IH. destruct (p x) eqn:Px, (p y) eqn:Py; try reflexivity.
  rewrite (p_equal Px Py) in E. discriminate.
Qed.

Lemma sorted_filter (l : list A) : filter p (Py.sorted leb l) = filter p l.
Proof.
  induction l as [|x t IH]; simpl; [reflexivity|].
  rewrite insort_filter, IH. reflexivity.
Qed.

End Stable.

Lemma of_items_distinct (V : Type) (l : list (string * V)) :
  NoDup (map fst l) -> Dict.of_items l = l.
Proof.
  intro H. unfold Dict.of_items.
  rewrite (@DictFacts.fold_set_distinct V (string * V) fst snd l []) by exact H.
  simpl. rewrite <- (map_id l) at 2. apply map_ext. now intros [a b].
Qed.

End StableFacts.

Module TopkFacts.

Import RankBlender.

Lemma by_score_sorted (d : Dict.t Q) :
  StronglySorted (fun x y : string * Q => snd y <= snd x)
                 (Py.sorted (fun x y => Qle_bool (snd y) (snd x)) d).
Proof.
  apply (@SortFacts.sorted_sorted _ _ (fun _ _ => True)).
  - intros x y z Hxy Hyz. eapply Qle_trans; eauto.
  - intros x y _ H. now apply Qle_bool_iff.
  - intros x y _ H. apply Qlt_le_weak, Qnot_le_lt. intro Hle.
    apply Qle_bool_iff in Hle. congruence.
  - induction d; constructor; auto. now apply Forall_forall.
Qed.

(** X1.  [topk d k] holds the [min k (len d)] entries of [d] with the
    largest values, each with the value it has in [d], largest first; no
    entry left out has a larger value than one kept; and among the
    entries of one value it keeps those that come first in [d], in the
    order of [d]. *)
Theorem topk_largest (d : Dict.t Q) (k : nat) :
  Dict.wfb d = true ->
  List.length (topk d k) = Nat.min k (List.length d)
  /\ NoDup (Dict.keys (topk d k))
  /\ (forall it s, In (it, s) (topk d k) -> Dict.get d it = Some s)
  /\ StronglySorted (fun x y : string * Q => snd y <= snd x) (topk d k)
  /\ (forall x y, In x (topk d k) -> In y d -> ~ In y (topk d k) ->
                  snd y <= snd x)
  /\ (forall v, exists rest,
         filter (fun x : string * Q => Qeq_bool (snd x) v) d
         = filter (fun x : string * Q => Qeq_bool (snd x) v) (topk d k)
           ++ rest).
Proof.
  intro Hwf. apply DictFacts.wfb_nodup in Hwf.
  set (leb := fun x y : string * Q => Qle_bool (snd y) (snd x)).
  assert (Hperm : Permutation (Py.sorted leb d) d)
    by apply SortFacts.sorted_perm.
  assert (Hnd : NoDup (map fst (Py.sorted leb d))).
  { eapply Permutation_NoDup; [|exact Hwf].
    apply Permutation_map, Permutation_sym, Hperm. }
  assert (Heq : topk d k = firstn k (Py.sorted leb d)).
  { unfold topk, Py.take. apply StableFacts.of_items_distinct.
    rewrite <- firstn_map. now apply SortFacts.nodup_firstn. }
  rewrite Heq.
  destruct (SortFacts.strongly_sorted_firstn k (by_score_sorted d))
    as [Hs Hrest].
  split; [|split; [|split; [|split; [|split]]]].
  - rewrite length_firstn, SortFacts.sorted_length. reflexivity.
  - unfold Dict.keys. rewrite <- firstn_map.
    now apply SortFacts.nodup_firstn.
  - intros it s Hin. apply DictFacts.in_get; [exact Hwf|].
    apply (SortFacts.sorted_in leb). eapply TopK.firstn_In, Hin.
  - exact Hs.
  - intros x y Hx Hy Hny. apply Hrest; [exact Hx|].
    apply (SortFacts.sorted_in leb) in Hy.
    destruct (SortFacts.in_split_at k _ _ Hy) as [H|H]; [contradiction|exact H].
  - intro v.
    exists (filter (fun x : string * Q => Qeq_bool (snd x) v)
                   (skipn k (Py.sorted leb d))).
    rewrite <- filter_app, firstn_skipn.
    symmetry. apply StableFacts.sorted_filter.
    intros x y Hx Hy. unfold leb. apply Qle_bool_iff.
    apply Qeq_bool_iff in Hx, Hy. rewrite Hx, Hy. apply Qle_refl.
Qed.

(** Witness for X1: three entries, two of them with the same value. *)
Lemma topk_largest_witness :
  List.length (topk [("a", 1); ("b", 3); ("c", 1)] 2)
  = Nat.min 2 (List.length [("a", 1); ("b", 3); ("c", 1)])
  /\ NoDup (Dict.keys (topk [("a", 1); ("b", 3); ("c", 1)] 2))
  /\ (forall it s, In (it, s) (topk [("a", 1); ("b", 3); ("c", 1)] 2) ->
                   Dict.get [("a", 1); ("b", 3); ("c", 1)] it = Some s)
  /\ StronglySorted (fun x y : string * Q => snd y <= snd x)
                    (topk [("a", 1); ("b", 3); ("c", 1)] 2)
  /\ (forall x y, In x (topk [("a", 1); ("b", 3); ("c", 1)] 2) ->
                  In y [("a", 1); ("b", 3); ("c", 1)] ->
                  ~ In y (topk [("a", 1); ("b", 3); ("c", 1)] 2) ->
                  snd y <= snd x)
  /\ (forall v, exists rest,
         filter (fun x : string * Q => Qeq_bool (snd x) v)
                [("a", 1); ("b", 3); ("c", 1)]
         = filter (fun x : string * Q => Qeq_bool (snd x) v)
                  (topk [("a", 1); ("b", 3); ("c", 1)] 2)
           ++ rest).
Proof.
  apply (@topk_largest [("a", 1); ("b", 3); ("c", 1)] 2). reflexivity.
Defined.

End TopkFacts.

(* ================================================================== *)
(** ** Blending in binary64 *)
(* ================================================================== *)

Module Blend64Facts.

Import RankBlender64.




(** A weight that is [<= 0] is not [> 0]. *)
Lemma leb_not_ltb (w : F64.t) :
  F64.leb w F64.zero = true -> F64.ltb F64.zero w = false.
Proof.
  destruct w as [s|[|]| |[|] m e]; try discriminate; reflexivity.
Qed.

















(** The loop over the sources, from any dictionary built so far. *)
Section Loop.
Variable nw : Dict.t F64.t.





End Loop.


End Blend64Facts.

Module Blend64Cases.

Import RankBlender64.



End Blend64Cases.

(* ================================================================== *)
(** ** rank_blender.py: what blend_scores computes *)
(* ================================================================== *)

Module BlendValue.

Import RankBlender.

Lemma total_w_pos (weights : Dict.t Q) : 0 < total_w weights.
Proof.
  unfold total_w. destruct (Qle_bool (raw_total weights) 0) eqn:E.
  - reflexivity.
  - apply Qnot_le_lt. intro H. apply Qle_bool_iff in H. congruence.
Qed.

Lemma get_map_values (g : Q -> Q) (d : Dict.t Q) (k : string) :
  Dict.get (map (fun kv => (fst kv, g (snd kv))) d) k
  = option_map g (Dict.get d k).
Proof.
  induction d as [|[k' v] t IH]; simpl; [reflexivity|].
  destruct (String.eqb k k'); [reflexivity|exact IH].
Qed.

Lemma norm_get (weights : Dict.t Q) (k : string) :
  Dict.wfb weights = true ->
  Dict.get (norm_w weights) k
  = option_map (fun v => Py.max 0 v / total_w weights) (Dict.get weights k).
Proof.
  intro Hwf. rewrite (BlendFacts.norm_w_items weights Hwf).
  apply (get_map_values (fun v => Py.max 0 v / total_w weights)).
Qed.



(** A source is skipped exactly when its weight is not positive. *)
Lemma norm_zero_iff (weights : Dict.t Q) (k : string) :
  Dict.wfb weights = true ->
  Qeq_bool (Dict.get_or (norm_w weights) k 0) 0 = false
  <-> exists w, Dict.get weights k = Some w /\ 0 < w.
Proof.
  intro Hwf. pose proof (total_w_pos weights) as Htw.
  unfold Dict.get_or. rewrite (norm_get weights k Hwf).
  destruct (Dict.get weights k) as [w|]; simpl.
  - destruct (Qlt_le_dec 0 w) as [Hpos|Hneg].
    + split; [intros _; now exists w|intros _].
      destruct (Qeq_bool (Py.max 0 w / total_w weights) 0) eqn:E;
        [|reflexivity].
      apply Qeq_bool_iff in E. rewrite (@BlendFacts.max0_keep w Hpos) in E.
      exfalso. apply (Qlt_irrefl 0). rewrite <- E at 2.
      apply Qlt_shift_div_l; [exact Htw|]. now rewrite Qmult_0_l.
    + split.
      * intro E. exfalso. rewrite (@BlendFacts.max0_clamp w Hneg) in E.
        revert E. unfold Qdiv. now rewrite Qmult_0_l.
      * intros (w' & [= <-] & Hw'). exfalso.
        apply (Qlt_irrefl 0). eapply Qlt_le_trans; eauto.
  - split; [discriminate|]. intros (w & Hw & _). discriminate.
Qed.

(** The score a source adds to one item. *)
Section Source.
Variable w : Q.
Variable item : string.




Lemma add_source_keys (combined scores : Dict.t Q) (k : string) :
  In k (Dict.keys (add_source w combined scores))
  <-> In k (Dict.keys combined) \/ In k (Dict.keys scores).
Proof.
  change (add_source w combined scores)
    with (fold_left (Dict.acc_step fst
                       (fun (v : Q) (kv : string * Q) => v + w * snd kv)
                       0 (fun _ => false)) scores combined).
  rewrite DictFacts.acc_keys. split; (intros [H|H]; [now left|right]).
  - destruct H as (x & Hx & _ & <-). now apply in_map.
  - apply in_map_iff in H. destruct H as (x & <- & Hx). now exists x.
Qed.

Lemma add_source_nodup (combined scores : Dict.t Q) :
  NoDup (Dict.keys combined) ->
  NoDup (Dict.keys (add_source w combined scores)).
Proof.
  change (add_source w combined scores)
    with (fold_left (Dict.acc_step fst
                       (fun (v : Q) (kv : string * Q) => v + w * snd kv)
                       0 (fun _ => false)) scores combined).
  apply DictFacts.acc_nodup.
Qed.

End Source.


Lemma blend_fold_keys (nw : Dict.t Q) (score_dicts : Dict.t (Dict.t Q))
      (combined : Dict.t Q) (item : string) :
  In item (Dict.keys (fold_left (fun combined src =>
                let w := Dict.get_or nw (fst src) 0 in
                if Qeq_bool w 0 then combined
                else add_source w combined (snd src)) score_dicts combined))
  <-> In item (Dict.keys combined)
      \/ exists src scores,
           In (src, scores) score_dicts
           /\ Qeq_bool (Dict.get_or nw src 0) 0 = false
           /\ In item (Dict.keys scores).
Proof.
  revert combined.
  induction score_dicts as [|[src scores] t IH]; intro combined; simpl.
  - split; [now left|]. intros [H|(s & sc & [] & _)]. exact H.
  - rewrite IH. simpl fst. simpl snd. cbv zeta.
    destruct (Qeq_bool (Dict.get_or nw src 0) 0) eqn:E.
    + split; (intros [H|(s & sc & H1 & H2 & H3)]; [now left|right]).
      * exists s, sc. auto.
      * destruct H1 as [[= <- <-]|H1]; [congruence|]. exists s, sc. auto.
    + rewrite add_source_keys. split.
      * intros [[H|H]|(s & sc & H1 & H2 & H3)]; [now left| |].
        -- right. exists src, scores. auto.
        -- right. exists s, sc. auto.
      * intros [H|(s & sc & [[= <- <-]|H1] & H2 & H3)]; [now left; left| |].
        -- left. now right.
        -- right. exists s, sc. auto.
Qed.

Lemma blend_fold_nodup (nw : Dict.t Q) (score_dicts : Dict.t (Dict.t Q))
      (combined : Dict.t Q) :
  NoDup (Dict.keys combined) ->
  NoDup (Dict.keys (fold_left (fun combined src =>
                let w := Dict.get_or nw (fst src) 0 in
                if Qeq_bool w 0 then combined
                else add_source w combined (snd src)) score_dicts combined)).
Proof.
  revert combined.
  induction score_dicts as [|[src scores] t IH]; intros combined H; simpl;
    [exact H|].
  apply IH. simpl fst. simpl snd. cbv zeta.
  destruct (Qeq_bool _ 0); [exact H|now apply add_source_nodup].
Qed.




(** X3.  In exact arithmetic (weights and scores as rationals, so that
    no normalized weight overflows or underflows), the blend is a
    dictionary (no item twice), and an item is in it exactly when a source
    with a positive weight scores it. *)
Theorem blend_items (score_dicts : Dict.t (Dict.t Q)) (weights : Dict.t Q)
        (item : string) :
  Dict.wfb weights = true ->
  NoDup (Dict.keys (blend_scores score_dicts weights))
  /\ (In item (Dict.keys (blend_scores score_dicts weights))
      <-> exists src scores w,
            In (src, scores) score_dicts
            /\ Dict.get weights src = Some w /\ 0 < w
            /\ In item (Dict.keys scores)).
Proof.
  intro Hw.
  change (blend_scores score_dicts weights)
    with (fold_left (fun combined src =>
                       let w := Dict.get_or (norm_w weights) (fst src) 0 in
                       if Qeq_bool w 0 then combined
                       else add_source w combined (snd src)) score_dicts []).
  split; [apply blend_fold_nodup; constructor|].
  rewrite blend_fold_keys. split.
  - intros [[]|(src & scores & H1 & H2 & H3)].
    apply (norm_zero_iff weights src Hw) in H2. destruct H2 as (w & Hg & Hpos).
    exists src, scores, w. auto.
  - intros (src & scores & w & H1 & Hg & Hpos & H3). right.
    exists src, scores. split; [exact H1|]. split; [|exact H3].
    apply (norm_zero_iff weights src Hw). now exists w.
Qed.

(** Witness for X3: a source with weight 0 beside a source with a
    positive weight. *)
Lemma blend_items_witness :
  NoDup (Dict.keys (blend_scores [("lex", [("A", 1)]); ("cf", [("B", 1)])]
                                 [("lex", 1); ("cf", 0)]))
  /\ (In "B" (Dict.keys (blend_scores [("lex", [("A", 1)]); ("cf", [("B", 1)])]
                                      [("lex", 1); ("cf", 0)]))
      <-> exists src scores w,
            In (src, scores) [("lex", [("A", 1)]); ("cf", [("B", 1)])]
            /\ Dict.get [("lex", 1); ("cf", 0)] src = Some w /\ 0 < w
            /\ In "B" (Dict.keys scores)).
Proof.
  apply (@blend_items [("lex", [("A", 1)]); ("cf", [("B", 1)])]
                      [("lex", 1); ("cf", 0)] "B").
  reflexivity.
Defined.









End BlendValue.

(* ================================================================== *)
(** ** The tokenizers *)
(* ================================================================== *)

Module TokenFacts.

Import Hybrid.

Lemma lower_alnum (c : ascii) :
  Lexical.is_lower_alnum (lower_char c) = is_alnum c.
Proof. destruct c as [[] [] [] [] [] [] [] []]; reflexivity. Qed.

Lemma alnum_lower (c : ascii) : is_alnum (lower_char c) = is_alnum c.
Proof. destruct c as [[] [] [] [] [] [] [] []]; reflexivity. Qed.

Lemma lower_char_idem (c : ascii) : lower_char (lower_char c) = lower_char c.
Proof. destruct c as [[] [] [] [] [] [] [] []]; reflexivity. Qed.

Lemma lower_char_fixed (c : ascii) :
  Lexical.is_lower_alnum c = true -> lower_char c = c.
Proof. destruct c as [[] [] [] [] [] [] [] []]; (reflexivity || discriminate). Qed.

Lemma lower_alnum_alnum (c : ascii) :
  Lexical.is_lower_alnum c = true -> is_alnum c = true.
Proof. destruct c as [[] [] [] [] [] [] [] []]; (reflexivity || discriminate). Qed.

Lemma space_not_alnum (c : ascii) :
  ItemsRepo.is_space c = true -> is_alnum c = false.
Proof. destruct c as [[] [] [] [] [] [] [] []]; (reflexivity || discriminate). Qed.

Lemma append_nil_r (s : string) : (s ++ "")%string = s.
Proof. induction s; simpl; congruence. Qed.

Lemma append_assoc (a b c : string) :
  ((a ++ b) ++ c)%string = (a ++ b ++ c)%string.
Proof. induction a; simpl; congruence. Qed.

Lemma append_empty (a b : string) :
  (a ++ b)%string = "" -> a = "" /\ b = "".
Proof. destruct a; simpl; [auto|discriminate]. Qed.

Lemma lower_app (a b : string) :
  lower (a ++ b) = (lower a ++ lower b)%string.
Proof. induction a; simpl; congruence. Qed.

Lemma lower_idem (s : string) : lower (lower s) = lower s.
Proof. induction s; simpl; [reflexivity|]. now rewrite lower_char_idem, IHs. Qed.

Lemma chars_app (a b : string) :
  list_ascii_of_string (a ++ b)
  = list_ascii_of_string a ++ list_ascii_of_string b.
Proof. induction a; simpl; congruence. Qed.

Lemma chars_lower (s : string) :
  list_ascii_of_string (lower s) = map lower_char (list_ascii_of_string s).
Proof. induction s; simpl; congruence. Qed.

(** Every run [findall] returns is non-empty and made of letters and
    digits. *)
Lemma findall_runs (s cur : string) :
  Forall (fun c => is_alnum c = true) (list_ascii_of_string cur) ->
  forall t, In t (findall s cur) ->
    t <> "" /\ Forall (fun c => is_alnum c = true) (list_ascii_of_string t).
Proof.
  revert cur. induction s as [|c r IH]; simpl; intros cur Hcur t Ht.
  - destruct cur; [contradiction|]. destruct Ht as [<-|[]].
    split; [discriminate|exact Hcur].
  - destruct (is_alnum c) eqn:E.
    + apply (IH (cur ++ String c "")%string); [|exact Ht].
      rewrite chars_app. apply Forall_app. split; [exact Hcur|].
      simpl. constructor; [exact E|constructor].
    + destruct cur as [|c0 cur'].
      * apply (IH ""%string); [constructor|exact Ht].
      * destruct Ht as [<-|Ht].
        -- split; [discriminate|exact Hcur].
        -- apply (IH ""%string); [constructor|exact Ht].
Qed.

(** A run of letters and digits is read into the current run. *)
Lemma findall_run (t r cur : string) :
  Forall (fun c => is_alnum c = true) (list_ascii_of_string t) ->
  findall (t ++ r) cur = findall r (cur ++ t).
Proof.
  revert cur. induction t as [|c t' IH]; simpl; intros cur H.
  - now rewrite append_nil_r.
  - inversion H as [|? ? Hc Ht']; subst. rewrite Hc.
    rewrite (IH _ Ht'), append_assoc. reflexivity.
Qed.

(** A character that is no letter or digit ends the run. *)
Lemma findall_sep (a b cur : string) (c : ascii) :
  is_alnum c = false ->
  findall (a ++ String c b) cur = findall a cur ++ findall b "".
Proof.
  intro Hc. revert cur. induction a as [|x a' IH]; simpl; intro cur.
  - rewrite Hc. now destruct cur.
  - destruct (is_alnum x); [apply IH|].
    destruct cur; simpl; now rewrite IH.
Qed.

(** Lowering the text first does not change the runs, only their
    case. *)
Lemma findall_lower (s cur : string) :
  findall (lower s) (lower cur) = map lower (findall s cur).
Proof.
  revert cur. induction s as [|c r IH]; simpl; intro cur.
  - now destruct cur.
  - rewrite alnum_lower. destruct (is_alnum c).
    + rewrite <- IH, lower_app. reflexivity.
    + destruct cur; simpl; [apply (IH ""%string)|].
      f_equal. apply (IH ""%string).
Qed.

Lemma lexical_findall_lower (s cur : string) :
  Lexical.findall (lower s) (lower cur) = map lower (findall s cur).
Proof.
  revert cur. induction s as [|c r IH]; simpl; intro cur.
  - now destruct cur.
  - rewrite lower_alnum. destruct (is_alnum c).
    + rewrite <- IH, lower_app. reflexivity.
    + destruct cur; simpl; [apply (IH ""%string)|].
      f_equal. apply (IH ""%string).
Qed.

Lemma tokenize_lower (s : string) : _tokenize (lower s) = _tokenize s.
Proof.
  unfold _tokenize. pose proof (findall_lower s "") as H. simpl in H.
  rewrite H, map_map. apply map_ext. apply lower_idem.
Qed.

Lemma tokenize_sep (a b : string) (c : ascii) :
  is_alnum c = false ->
  _tokenize (a ++ String c b) = _tokenize a ++ _tokenize b.
Proof.
  intro Hc. unfold _tokenize. now rewrite (findall_sep a b "" c Hc), map_app.
Qed.

Lemma findall_lstrip (s : string) :
  findall (ItemsRepo.lstrip s) "" = findall s "".
Proof.
  induction s as [|c r IH]; simpl; [reflexivity|].
  destruct (ItemsRepo.is_space c) eqn:E; [|reflexivity].
  now rewrite (space_not_alnum c E).
Qed.

Lemma findall_rstrip (s cur : string) :
  findall (ItemsRepo.rstrip s) cur = findall s cur.
Proof.
  revert cur. induction s as [|c r IH]; intro cur; [reflexivity|].
  simpl ItemsRepo.rstrip.
  destruct (ItemsRepo.rstrip r) as [|c' r'] eqn:E.
  - destruct (ItemsRepo.is_space c) eqn:Es.
    + simpl. rewrite (space_not_alnum c Es).
      destruct cur; now rewrite <- IH.
    + simpl. destruct (is_alnum c); [now rewrite <- IH|].
      destruct cur; now rewrite <- IH.
  - simpl. destruct (is_alnum c); [now rewrite <- IH|].
    destruct cur; now rewrite <- IH.
Qed.

Lemma tokenize_strip (s : string) : _tokenize (ItemsRepo.strip s) = _tokenize s.
Proof.
  unfold _tokenize, ItemsRepo.strip.
  now rewrite findall_rstrip, findall_lstrip.
Qed.

Lemma space_sep : is_alnum " "%char = false.
Proof. reflexivity. Qed.

Lemma tokens_shape (text : string) :
  Forall (fun t => t <> ""
                   /\ Forall (fun c => Lexical.is_lower_alnum c = true)
                             (list_ascii_of_string t))
         (_tokenize text).
Proof.
  apply Forall_forall. intros t Ht. unfold _tokenize in Ht.
  apply in_map_iff in Ht. destruct Ht as (t0 & <- & Ht0).
  destruct (@findall_runs text "" (Forall_nil _) t0 Ht0) as [Hne Hall].
  split.
  - destruct t0; [congruence|discriminate].
  - rewrite chars_lower. apply Forall_forall. intros c Hc.
    apply in_map_iff in Hc. destruct Hc as (c0 & <- & Hc0).
    rewrite lower_alnum. revert c0 Hc0. now apply Forall_forall.
Qed.

(** X5.  Every token is a non-empty word of lowercase letters and
    digits; a text without a letter or digit has no token. *)
Theorem tokens_lowercase_alnum (text : string) :
  (forall t, In t (_tokenize text) ->
     t <> ""
     /\ Forall (fun c => Lexical.is_lower_alnum c = true)
               (list_ascii_of_string t))
  /\ (Forall (fun c => is_alnum c = false) (list_ascii_of_string text) ->
      _tokenize text = []).
Proof.
  split.
  - intros t Ht. revert t Ht. apply Forall_forall, tokens_shape.
  - unfold _tokenize. intro H.
    assert (E : findall text "" = []); [|now rewrite E].
    induction text as [|c r IH]; simpl; [reflexivity|].
    simpl in H. inversion H as [|? ? Hc Hr]; subst.
    rewrite Hc. now apply IH.
Qed.

(** Witness for X5: a text of punctuation only. *)
Lemma tokens_lowercase_alnum_witness :
  _tokenize "?! ..." = [].
Proof.
  apply (proj2 (tokens_lowercase_alnum "?! ...")).
  repeat constructor.
Defined.

Lemma findall_word (t : string) :
  t <> "" ->
  Forall (fun c => is_alnum c = true) (list_ascii_of_string t) ->
  findall t "" = [t].
Proof.
  intros Hne Hall. rewrite <- (append_nil_r t) at 1.
  rewrite (findall_run t "" "" Hall). simpl.
  destruct t; [congruence|reflexivity].
Qed.

Lemma findall_join (ts : list string) :
  Forall (fun t => t <> ""
                   /\ Forall (fun c => is_alnum c = true)
                             (list_ascii_of_string t)) ts ->
  findall (join " " ts) "" = ts.
Proof.
  induction 1 as [|t ts' [Hne Hall] Hts IH]; [reflexivity|].
  destruct ts' as [|t2 ts2].
  - simpl. now apply findall_word.
  - change (join " " (t :: t2 :: ts2))
      with (t ++ String " "%char (join " " (t2 :: ts2)))%string.
    rewrite (findall_sep t (join " " (t2 :: ts2)) "" " "%char eq_refl).
    rewrite IH, findall_word by assumption. reflexivity.
Qed.

Lemma lower_fixed (t : string) :
  Forall (fun c => Lexical.is_lower_alnum c = true) (list_ascii_of_string t) ->
  lower t = t.
Proof.
  induction t as [|c r IH]; simpl; intro H; [reflexivity|].
  inversion H as [|? ? Hc Hr]; subst.
  now rewrite (lower_char_fixed c Hc), IH.
Qed.

(** X6.  Tokenizing is idempotent over joining: the tokens of the
    space-joined tokens of a text are those tokens again. *)
Theorem tokenize_join_tokens (text : string) :
  _tokenize (join " " (_tokenize text)) = _tokenize text.
Proof.
  pose proof (tokens_shape text) as Hshape.
  unfold _tokenize at 1. rewrite findall_join.
  - rewrite <- (map_id (_tokenize text)) at 2. apply map_ext_in.
    intros t Ht. apply lower_fixed.
    apply (proj1 (Forall_forall _ _) Hshape t Ht).
  - eapply Forall_impl; [|exact Hshape].
    intros t [Hne Hall]. split; [exact Hne|].
    eapply Forall_impl; [|exact Hall]. apply lower_alnum_alnum.
Qed.

(** X7.  The tokenizer of the indexer and of the lexical store returns
    the tokens of the ranker's tokenizer. *)
Theorem simple_tokenize_tokenize (text : string) :
  Lexical.simple_tokenize text = _tokenize text.
Proof.
  unfold Lexical.simple_tokenize, _tokenize.
  apply (lexical_findall_lower text "").
Qed.

(** X8.  For an ASCII title and description, the document the ranker
    indexes for a row, the tokens of its [text] cell, is the tokens of
    the title followed by those of the description, and it is the
    document the indexer builds for the same title and description. *)
Theorem text_tokens (item_id title description : string) :
  is_ascii title = true ->
  is_ascii description = true ->
  _tokenize (text (ItemsRepo.row_of item_id title description))
  = _tokenize title ++ _tokenize description
  /\ Lexical.doc_of title description
     = _tokenize (text (ItemsRepo.row_of item_id title description)).
Proof.
  intros _ _.
  assert (H : _tokenize (text (ItemsRepo.row_of item_id title description))
              = _tokenize (title ++ " " ++ description)).
  { simpl. unfold ItemsRepo.text_of.
    now rewrite tokenize_lower, tokenize_strip. }
  split.
  - rewrite H. apply tokenize_sep. reflexivity.
  - rewrite H. unfold Lexical.doc_of, Lexical.simple_tokenize, _tokenize.
    apply (lexical_findall_lower _ "").
Qed.

(** Witness for X8: a row of the sample catalog. *)
Lemma text_tokens_witness :
  _tokenize (text (ItemsRepo.row_of "A" "Space Opera" "a galaxy far away"))
  = ["space"; "opera"; "a"; "galaxy"; "far"; "away"]
  /\ Lexical.doc_of "Space Opera" "a galaxy far away"
     = _tokenize (text (ItemsRepo.row_of "A" "Space Opera" "a galaxy far away")).
Proof.
  apply (@text_tokens "A" "Space Opera" "a galaxy far away");
    reflexivity.
Defined.

End TokenFacts.

(* ================================================================== *)
(** ** hybrid_ranker.py: search on every query and catalog *)
(* ================================================================== *)

Module SearchTotal.

Import Hybrid.

Lemma hits_of_rows (df : list item_row) (scores : list Float.t)
      (idx : list nat) (hits : list hit) :
  map Some hits
  = map (fun i => option_map
                    (fun r => hit_of r (Some (nth i scores Float.NaN)))
                    (nth_error df i)) idx ->
  List.length hits = List.length idx
  /\ forall h, In h hits ->
       exists r, In r df /\ hit_item_id h = item_id r
                 /\ hit_title h = title r
                 /\ hit_description h = description r.
Proof.
  intro Hmap. split.
  - now rewrite <- (length_map Some hits), Hmap, length_map.
  - intros h Hh. apply (in_map Some) in Hh. rewrite Hmap in Hh.
    apply in_map_iff in Hh. destruct Hh as (i & Hi & _).
    destruct (nth_error df i) as [r|] eqn:E; [|discriminate].
    injection Hi as <-. exists r. split; [|now simpl].
    eapply nth_error_In, E.
Qed.

(** X9.  [search] never raises on a ranker that [__init__] built: it
    returns at most [k] hits, each carrying the id, title and description
    of a row of the catalog, and no hit at all for a query without a
    letter or digit or for an empty catalog. *)
Theorem search_total (bm : okapi) (df : list item_row)
        (store : Embedding.EmbeddingStore) (q : string) (k : nat) :
  exists hits,
    search (__init__ bm df store) q k = Py.Ok hits
    /\ (List.length hits <= k)%nat
    /\ (forall h, In h hits ->
          exists r, In r df /\ hit_item_id h = item_id r
                    /\ hit_title h = title r
                    /\ hit_description h = description r)
    /\ (df = [] \/ _tokenize q = [] -> hits = []).
Proof.
  destruct (_tokenize q) as [|t ts] eqn:Hq.
  { exists []. unfold search. rewrite Hq.
    split; [reflexivity|]. split; [apply Nat.le_0_l|].
    split; [intros h []|reflexivity]. }
  destruct df as [|r0 rs].
  { exists []. unfold search. rewrite Hq. simpl.
    split; [now destruct k|]. split; [apply Nat.le_0_l|].
    split; [intros h []|reflexivity]. }
  rewrite <- Hq. set (df := r0 :: rs).
  set (corpus := map (fun r => _tokenize (text r)) df).
  set (gs := fun q' : list string =>
               map (bm corpus q') (seq 0 (List.length corpus))).
  set (scores := gs (_tokenize q)).
  assert (Hlen : List.length scores = List.length df).
  { unfold scores, gs, corpus. now rewrite length_map, length_seq, length_map. }
  destruct (SearchFacts.top_idx_spec scores k) as (H1 & _ & H3 & _).
  rewrite Hlen in H1, H3.
  destruct (SearchFacts.results_of_ok df scores
              (Py.take k (rev (Np.argsort scores))) H3)
    as (hits & Hok & Hmap).
  destruct (hits_of_rows df scores _ hits Hmap) as [Hl Hrows].
  exists hits. split; [|split; [|split]].
  - rewrite (@SearchFacts.search_scored (__init__ bm df store) q k gs).
    + exact Hok.
    + reflexivity.
    + rewrite Hq. discriminate.
    + fold scores. intro E. rewrite E in Hlen. discriminate.
  - rewrite Hl, H1. apply Nat.le_min_l.
  - exact Hrows.
  - intros [E|E]; [unfold df in E|rewrite Hq in E]; discriminate.
Qed.

End SearchTotal.

(* ================================================================== *)
(** ** items_repo.py: lookup by id *)
(* ================================================================== *)

Module ItemsFacts.

Lemma by_id_fold_get (df : list Hybrid.item_row) (d : Dict.t Hybrid.item_row)
      (id : string) :
  Dict.get (fold_left (fun d r => Dict.set d (Hybrid.item_id r) r) df d) id
  = match find (fun r => String.eqb id (Hybrid.item_id r)) (rev df) with
    | Some r => Some r
    | None => Dict.get d id
    end.
Proof.
  revert d. induction df as [|x t IH] using rev_ind; intro d; [reflexivity|].
  rewrite fold_left_app, rev_app_distr. simpl.
  rewrite DictFacts.get_set.
  destruct (String.eqb id (Hybrid.item_id x)); [reflexivity|apply IH].
Qed.

Lemma by_id_get (df : list Hybrid.item_row) (id : string) :
  Dict.get (Hybrid._by_id df) id
  = find (fun r => String.eqb id (Hybrid.item_id r)) (rev df).
Proof.
  unfold Hybrid._by_id. rewrite by_id_fold_get.
  now destruct (find _ (rev df)).
Qed.

Lemma by_id_nodup (df : list Hybrid.item_row) :
  NoDup (Dict.keys (Hybrid._by_id df)).
Proof.
  unfold Hybrid._by_id.
  assert (H : forall d : Dict.t Hybrid.item_row,
             NoDup (Dict.keys d) ->
             NoDup (Dict.keys
                      (fold_left (fun d r => Dict.set d (Hybrid.item_id r) r)
                                 df d))).
  { induction df as [|x t IH]; simpl; intros d Hd; [exact Hd|].
    apply IH. now apply DictFacts.nodup_set. }
  apply H. constructor.
Qed.

Lemma by_id_keys (df : list Hybrid.item_row) (id : string) :
  In id (Dict.keys (Hybrid._by_id df)) <-> In id (map Hybrid.item_id df).
Proof.
  unfold Hybrid._by_id.
  assert (H : forall d : Dict.t Hybrid.item_row,
             In id (Dict.keys
                      (fold_left (fun d r => Dict.set d (Hybrid.item_id r) r)
                                 df d))
             <-> In id (Dict.keys d) \/ In id (map Hybrid.item_id df)).
  { induction df as [|x t IH]; simpl; intro d; [tauto|].
    rewrite IH, DictFacts.keys_set.
    split; intro H; repeat destruct H as [H|H]; subst; auto. }
  rewrite H. simpl. tauto.
Qed.

(** X10.  [get_item] answers with the last row of the table that carries
    the id, reduced to id, title and description; it answers [None]
    exactly when no row carries the id. *)
Theorem get_item_last_row (df : list Hybrid.item_row) (id : string) :
  ItemsRepo.get_item df id
  = option_map ItemsRepo.item_of
               (find (fun r => String.eqb id (Hybrid.item_id r)) (rev df))
  /\ (ItemsRepo.get_item df id = None
      <-> forall r, In r df -> Hybrid.item_id r <> id)
  /\ (forall it, ItemsRepo.get_item df id = Some it ->
                 ItemsRepo.item_id it = id).
Proof.
  unfold ItemsRepo.get_item. rewrite by_id_get.
  split; [reflexivity|]. split.
  - destruct (find _ (rev df)) as [r|] eqn:E; simpl.
    + split; [discriminate|]. intro H. exfalso.
      apply find_some in E. destruct E as [Hin Heq].
      apply String.eqb_eq in Heq. apply (H r); [|now symmetry].
      now apply in_rev.
    + split; [|reflexivity]. intros _ r Hr Hid.
      apply in_rev in Hr. apply (find_none _ _ E) in Hr.
      apply String.eqb_neq in Hr. now apply Hr.
  - intros it Hit. destruct (find _ (rev df)) as [r|] eqn:E; [|discriminate].
    injection Hit as <-. apply find_some in E. destruct E as [_ Heq].
    apply String.eqb_eq in Heq. now simpl.
Qed.

(** X11.  [all_items] lists every id of the table once, with the entry
    [get_item] returns for it. *)
Theorem all_items_once (df : list Hybrid.item_row) :
  NoDup (map ItemsRepo.item_id (ItemsRepo.all_items df))
  /\ (forall id, In id (map ItemsRepo.item_id (ItemsRepo.all_items df))
                 <-> In id (map Hybrid.item_id df))
  /\ (forall it, In it (ItemsRepo.all_items df) ->
                 ItemsRepo.get_item df (ItemsRepo.item_id it) = Some it).
Proof.
  assert (Hown : forall k r, In (k, r) (Hybrid._by_id df) ->
                             Hybrid.item_id r = k).
  { intros k r Hin.
    apply (@SimilarFacts.by_id_entries df []); [intros ? ? [=]|].
    apply DictFacts.in_get; [apply by_id_nodup|exact Hin]. }
  assert (Hids : map ItemsRepo.item_id (ItemsRepo.all_items df)
                 = Dict.keys (Hybrid._by_id df)).
  { unfold ItemsRepo.all_items, Dict.values, Dict.keys. rewrite !map_map.
    apply map_ext_in. intros [k r] Hin. simpl. now apply Hown. }
  rewrite Hids. split; [apply by_id_nodup|]. split; [apply by_id_keys|].
  intros it Hit. unfold ItemsRepo.all_items, Dict.values in Hit.
  rewrite map_map in Hit. apply in_map_iff in Hit.
  destruct Hit as ([k r] & <- & Hin). simpl.
  unfold ItemsRepo.get_item. rewrite (Hown k r Hin).
  now rewrite (@DictFacts.in_get _ _ k r (by_id_nodup df) Hin).
Qed.

End ItemsFacts.

(* ================================================================== *)
(** ** embedding_store.py: the order of the neighbours *)
(* ================================================================== *)

Module SimilarOrder.

Import Embedding.

Lemma skip_self_order (m : list (nat * string)) (idx k : nat)
      (indices : list nat) (out : list string) :
  (forall i, In i indices -> exists v, id_map_get m i = Some v) ->
  (List.length out < k)%nat ->
  exists out',
    skip_self m idx k indices out = Py.Ok out'
    /\ map Some out'
       = map Some out
         ++ map (id_map_get m)
                (firstn (k - List.length out)
                        (filter (fun i => negb (i =? idx)%nat) indices)).
Proof.
  revert out. induction indices as [|i rest IH]; simpl; intros out Hids Hlen.
  - exists out. split; [reflexivity|].
    rewrite firstn_nil. simpl. now rewrite app_nil_r.
  - destruct (i =? idx)%nat eqn:E; simpl.
    + apply IH; auto.
    + destruct (Hids i (or_introl eq_refl)) as (v & Hv). rewrite Hv.
      destruct (k <=? List.length (out ++ [v]))%nat eqn:Ek.
      * exists (out ++ [v]). split; [reflexivity|].
        apply Nat.leb_le in Ek. rewrite length_app in Ek. simpl in Ek.
        replace (k - List.length out)%nat with 1%nat by lia.
        simpl. now rewrite map_app, Hv.
      * apply Nat.leb_gt in Ek.
        destruct (IH (out ++ [v])) as (out' & Hok & Hmap); auto.
        exists out'. split; [assumption|]. rewrite Hmap.
        rewrite length_app in *. simpl in *.
        replace (k - List.length out)%nat
          with (S (k - (List.length out + 1)))%nat by lia.
        simpl. rewrite map_app, Hv, <- app_assoc. reflexivity.
Qed.

(** X12.  On a well-formed table, [similar] returns the ids of the rows
    the neighbour index ranks first for the row of the item, nearest
    first: the first [k] of the [min (k + 1) n] nearest rows that are not
    the row of the item itself. *)
Theorem similar_nearest_first (st : EmbeddingStore) (item : string)
        (k n idx : nat) (order : nat -> list nat) :
  EmbeddingModel.table_ok st = true ->
  (0 < k)%nat ->
  emb st = Some n ->
  nn st = Some order ->
  Dict.get (rev_map (id_map st)) item = Some idx ->
  exists out,
    similar st item k = Py.Ok out
    /\ map Some out
       = map (id_map_get (id_map st))
             (firstn k (filter (fun i => negb (i =? idx)%nat)
                               (firstn (Nat.min (k + 1) n) (order idx)))).
Proof.
  intros Hok Hk Hemb Hnn Hrev.
  unfold similar, EmbeddingModel.table_ok in *.
  rewrite Hemb, Hnn in *. rewrite Hrev.
  apply andb_true_iff in Hok. destruct Hok as [Hok Hord].
  apply andb_true_iff in Hok. destruct Hok as [Hok Hids].
  apply andb_true_iff in Hok. destruct Hok as [_ Hkeys].
  rewrite forallb_forall in Hkeys, Hids, Hord.
  apply SimilarFacts.rev_map_in in Hrev.
  assert (Hidx : (idx < n)%nat).
  { specialize (Hkeys _ Hrev). now apply Nat.ltb_lt in Hkeys. }
  apply Nat.ltb_lt in Hidx. rewrite Hidx. apply Nat.ltb_lt in Hidx.
  unfold kneighbors.
  assert (Hm : ((0 <? Nat.min (k + 1) n) && (Nat.min (k + 1) n <=? n))%nat
               = true).
  { apply andb_true_iff. split; [apply Nat.ltb_lt|apply Nat.leb_le]; lia. }
  rewrite Hm. simpl Py.bind.
  destruct (@skip_self_order (id_map st) idx k
              (firstn (Nat.min (k + 1) n) (order idx)) [])
    as (out & Hout & Hmap).
  - intros i Hi. apply TopK.firstn_In in Hi.
    assert (Hi' : (i < n)%nat).
    { specialize (Hord idx). rewrite forallb_forall in Hord.
      apply Nat.ltb_lt, Hord; [|assumption]. apply in_seq. lia. }
    specialize (Hids i). destruct (id_map_get (id_map st) i) as [v|].
    + now exists v.
    + assert (false = true) by (apply Hids, in_seq; lia). discriminate.
  - simpl. exact Hk.
  - exists out. split; [assumption|].
    rewrite Hmap. simpl. now rewrite Nat.sub_0_r.
Qed.

(** Witness for X12: the table of three rows with distinct ids. *)
Lemma similar_nearest_first_witness :
  exists out,
    similar SampleCatalog.store_ABC "B" 2 = Py.Ok out
    /\ map Some out
       = map (id_map_get (id_map SampleCatalog.store_ABC))
             (firstn 2
                (filter (fun i => negb (i =? 1)%nat)
                   (firstn (Nat.min (2 + 1) 3)
                      ((fun i => i :: filter (fun j => negb (j =? i)%nat)
                                             [0; 1; 2]%nat) 1%nat)))).
Proof.
  apply (@similar_nearest_first SampleCatalog.store_ABC "B" 2 3 1
           (fun i => i :: filter (fun j => negb (j =? i)%nat) [0; 1; 2]%nat));
    (reflexivity || (simpl; lia)).
Defined.

End SimilarOrder.

(* ================================================================== *)
(** ** eval.py: the hold-out pairs *)
(* ================================================================== *)

Module HoldoutPairs.

Import Ratings Eval.

Lemma string_leb_refl (x : string) : String.leb x x = true.
Proof.
  destruct (String.leb x x) eqn:E; [reflexivity|].
  pose proof (OrderFacts.string_leb_false_ltb _ _ E) as H.
  apply OrderFacts.string_ltb_leb in H. congruence.
Qed.

Lemma string_leb_trans (x y z : string) :
  String.leb x y = true -> String.leb y z = true -> String.leb x z = true.
Proof.
  intros Hxy Hyz.
  destruct (string_dec x y) as [->|Nxy]; [exact Hyz|].
  destruct (string_dec y z) as [<-|Nyz]; [exact Hxy|].
  apply OrderFacts.string_ltb_leb.
  eapply OrderFacts.string_ltb_trans;
    apply OrderFacts.string_leb_neq_ltb; eassumption.
Qed.

Lemma ts_leb_total (a b : row) : ts_leb a b = false -> ts_leb b a = true.
Proof.
  unfold ts_leb. destruct (timestamp a) as [x|], (timestamp b) as [y|];
    try (discriminate || reflexivity).
  intro H. apply OrderFacts.string_ltb_leb.
  now apply OrderFacts.string_leb_false_ltb.
Qed.

Lemma ts_leb_trans (a b c : row) :
  ts_leb a b = true -> ts_leb b c = true -> ts_leb a c = true.
Proof.
  unfold ts_leb.
  destruct (timestamp a) as [x|], (timestamp b) as [y|],
    (timestamp c) as [z|]; try (discriminate || reflexivity).
  apply string_leb_trans.
Qed.

Lemma sorted_last_max (A : Type) (R : A -> A -> Prop) (l : list A) (r : A) :
  StronglySorted R l -> last (map Some l) None = Some r ->
  forall x, In x l -> x = r \/ R x r.
Proof.
  induction 1 as [|y t Ht IH Hy]; [discriminate|].
  intros Hlast x Hx. destruct t as [|z t'].
  - simpl in Hlast. injection Hlast as <-. destruct Hx as [->|[]]. now left.
  - change (last (map Some (z :: t')) None = Some r) in Hlast.
    assert (Hr : In r (z :: t')).
    { destruct (@HoldoutFacts.last_some _ (z :: t')) as (w & Hw & Hin);
        [discriminate|]. congruence. }
    destruct Hx as [->|Hx]; [|now apply IH].
    right. exact (proj1 (Forall_forall _ _) Hy r Hr).
Qed.

(** The row the timestamp branch takes is last in the order of the
    column. *)
Lemma latest_row_max (g : list row) (r : row) :
  last (map Some (Py.sorted ts_leb g)) None = Some r ->
  In r g /\ forall x, In x g -> ts_leb x r = true.
Proof.
  intro Hlast.
  assert (Hs : StronglySorted (fun x y => ts_leb x y = true)
                              (Py.sorted ts_leb g)).
  { apply (@SortFacts.sorted_sorted _ _ (fun _ _ => True)).
    - apply ts_leb_trans.
    - auto.
    - intros x y _. apply ts_leb_total.
    - clear Hlast. induction g as [|a t IHt]; constructor; [exact IHt|].
      now apply Forall_forall. }
  assert (Hin : In r (Py.sorted ts_leb g)).
  { destruct (Py.sorted ts_leb g) as [|y t] eqn:E; [discriminate|].
    destruct (@HoldoutFacts.last_some _ (y :: t)) as (w & Hw & Hw');
      [discriminate|]. congruence. }
  split; [now apply SortFacts.sorted_in in Hin|].
  intros x Hx. apply (SortFacts.sorted_in ts_leb) in Hx.
  destruct (sorted_last_max Hs Hlast x Hx) as [->|H]; [|exact H].
  destruct (ts_leb r r) eqn:E; [reflexivity|].
  pose proof (ts_leb_total _ _ E). congruence.
Qed.

Lemma holdout_in (pick : nat -> nat) (df : frame) (u i : string) :
  In (u, i) (_choose_holdout pick df)
  <-> In u (user_keys (rows df))
      /\ (2 <= List.length (filter (row_of_user u) (rows df)))%nat
      /\ exists r, test_row pick df (filter (row_of_user u) (rows df)) = Some r
                   /\ str (item_id r) = i.
Proof.
  unfold _choose_holdout, groupby_user. rewrite in_flat_map. split.
  - intros ([u' g] & Hug & Hin). apply in_map_iff in Hug.
    destruct Hug as (u0 & [= <- <-] & Hu0). simpl in Hin.
    destruct (List.length (filter (row_of_user u0) (rows df)) <? 2)%nat eqn:E;
      [destruct Hin|].
    apply Nat.ltb_ge in E.
    destruct (test_row pick df (filter (row_of_user u0) (rows df)))
      as [r|] eqn:Hr; [|destruct Hin].
    destruct Hin as [Heq|[]]. injection Heq as -> <-.
    split; [assumption|]. split; [assumption|]. now exists r.
  - intros (Hu & Hlen & r & Hr & <-).
    exists (u, filter (row_of_user u) (rows df)). split.
    + apply in_map_iff. now exists u.
    + simpl. apply Nat.ltb_ge in Hlen. rewrite Hlen, Hr. now left.
Qed.

Lemma row_of_user_id (u : string) (r : row) :
  row_of_user u r = true <-> user_id r = Some u.
Proof.
  unfold row_of_user. destruct (user_id r) as [u'|].
  - rewrite String.eqb_eq. split; [now intros ->|now intros [= ->]].
  - split; discriminate.
Qed.

Lemma strongly_sorted_filter (A : Type) (R : A -> A -> Prop)
      (p : A -> bool) (l : list A) :
  StronglySorted R l -> StronglySorted R (filter p l).
Proof.
  induction 1 as [|x t Ht IH Hx]; simpl; [constructor|].
  destruct (p x); [|exact IH]. constructor; [exact IH|].
  apply Forall_forall. intros y Hy. apply filter_In in Hy.
  revert y Hy. intros y [Hy _]. revert y Hy. now apply Forall_forall.
Qed.

Lemma user_keys_sorted (rs : list row) :
  StronglySorted (fun a b => String.ltb a b = true) (user_keys rs).
Proof.
  unfold user_keys.
  apply (@SortFacts.sorted_sorted _ _ (fun x y => x <> y)).
  - apply OrderFacts.string_ltb_trans.
  - intros x y Hne H. now apply OrderFacts.string_leb_neq_ltb.
  - intros x y _ H. now apply OrderFacts.string_leb_false_ltb.
  - apply SortFacts.strongly_sorted_nodup, DictFacts.set_of_nodup.
Qed.

(** X13.  The hold-out has one pair for every user with at least two
    rows and none for any other, in ascending order of the user ids, and
    the item of a pair is the item of one of that user's rows. *)
Theorem holdout_one_pair_per_user (pick : nat -> nat) (df : frame) :
  (forall n, (0 < n)%nat -> (pick n < n)%nat) ->
  map fst (_choose_holdout pick df)
  = filter (Design.eligible (rows df)) (user_keys (rows df))
  /\ NoDup (map fst (_choose_holdout pick df))
  /\ StronglySorted (fun a b => String.ltb a b = true)
                    (map fst (_choose_holdout pick df))
  /\ (forall u i, In (u, i) (_choose_holdout pick df) ->
        exists r, In r (rows df) /\ user_id r = Some u
                  /\ str (item_id r) = i).
Proof.
  intro Hp. pose proof (@HoldoutFacts.choose_holdout_users pick df Hp) as Hu.
  split; [exact Hu|]. rewrite Hu. split; [|split].
  - apply NoDup_filter, UserFacts.user_keys_nodup.
  - apply strongly_sorted_filter, user_keys_sorted.
  - intros u i Hin. apply holdout_in in Hin.
    destruct Hin as (_ & Hlen & r & Hr & Hi).
    destruct (@HoldoutFacts.test_row_some
                pick df (filter (row_of_user u) (rows df)) Hp)
      as (r' & Hr' & Hin').
    + intro E. rewrite E in Hlen. simpl in Hlen. lia.
    + rewrite Hr in Hr'. injection Hr' as <-.
      apply filter_In in Hin'. destruct Hin' as [Hin' Hrow].
      exists r. split; [assumption|]. split; [|assumption].
      now apply row_of_user_id.
Qed.

(** Witness for X13: the table of three users, all with two rows or more. *)
Lemma holdout_one_pair_per_user_witness :
  map fst (_choose_holdout (fun _ => 0%nat)
             {| has_rating := false; has_timestamp := false;
                rows := SampleArtifacts.ratings_co |})
  = filter (Design.eligible SampleArtifacts.ratings_co)
           (user_keys SampleArtifacts.ratings_co)
  /\ NoDup (map fst (_choose_holdout (fun _ => 0%nat)
                       {| has_rating := false; has_timestamp := false;
                          rows := SampleArtifacts.ratings_co |}))
  /\ StronglySorted (fun a b => String.ltb a b = true)
       (map fst (_choose_holdout (fun _ => 0%nat)
                   {| has_rating := false; has_timestamp := false;
                      rows := SampleArtifacts.ratings_co |}))
  /\ (forall u i,
        In (u, i) (_choose_holdout (fun _ => 0%nat)
                     {| has_rating := false; has_timestamp := false;
                        rows := SampleArtifacts.ratings_co |}) ->
        exists r, In r SampleArtifacts.ratings_co /\ user_id r = Some u
                  /\ str (item_id r) = i).
Proof.
  apply (@holdout_one_pair_per_user (fun _ => 0%nat)
           {| has_rating := false; has_timestamp := false;
              rows := SampleArtifacts.ratings_co |}).
  intros n Hn. exact Hn.
Defined.

(** X14.  Without a timestamp column and with a rating column, a user
    who has a row rated 4.0 or more has such a row held out. *)
Theorem holdout_prefers_positive (pick : nat -> nat) (df : frame)
        (u i : string) :
  has_timestamp df = false ->
  has_rating df = true ->
  In (u, i) (_choose_holdout pick df) ->
  (exists r, In r (rows df) /\ user_id r = Some u /\ rating_ge4 r = true) ->
  exists r, In r (rows df) /\ user_id r = Some u /\ str (item_id r) = i
            /\ rating_ge4 r = true.
Proof.
  intros Hts Hrt Hin (r0 & Hr0 & Hu0 & Hge0).
  apply holdout_in in Hin. destruct Hin as (_ & _ & r & Hr & Hi).
  unfold test_row in Hr. rewrite Hts, Hrt in Hr. simpl andb in Hr.
  set (g := filter (row_of_user u) (rows df)) in *.
  assert (Hg0 : In r0 g).
  { apply filter_In. split; [assumption|now apply row_of_user_id]. }
  assert (Hna : existsb rating_notna g = true).
  { apply existsb_exists. exists r0. split; [assumption|].
    unfold rating_ge4 in Hge0. unfold rating_notna.
    now destruct (rating r0). }
  assert (Hge : existsb rating_ge4 g = true).
  { apply existsb_exists. now exists r0. }
  rewrite Hna, Hge in Hr. apply nth_error_In in Hr.
  apply filter_In in Hr. destruct Hr as [Hr Hge4].
  apply filter_In in Hr. destruct Hr as [Hr Hrow].
  exists r. split; [assumption|]. split; [now apply row_of_user_id|].
  split; assumption.
Qed.

(** Witness for X14: a user with one row rated 3 and one rated 5. *)
Lemma holdout_prefers_positive_witness :
  exists r,
    In r [ {| user_id := Some "u"; item_id := Some "A"; rating := Some 3;
              timestamp := None |};
           {| user_id := Some "u"; item_id := Some "B"; rating := Some 5;
              timestamp := None |} ]
    /\ user_id r = Some "u" /\ str (item_id r) = "B"
    /\ rating_ge4 r = true.
Proof.
  apply (@holdout_prefers_positive (fun _ => 0%nat)
           {| has_rating := true; has_timestamp := false;
              rows := [ {| user_id := Some "u"; item_id := Some "A";
                           rating := Some 3; timestamp := None |};
                        {| user_id := Some "u"; item_id := Some "B";
                           rating := Some 5; timestamp := None |} ] |}
           "u" "B").
  - reflexivity.
  - reflexivity.
  - vm_compute. now left.
  - eexists. split; [right; left; reflexivity|]. split; reflexivity.
Defined.

(** X15.  With a timestamp column no sampling takes place: the row held
    out for a user is one whose timestamp is last among the user's rows
    in the order of the column, text order with missing values after
    all others.  So a user with a row without a timestamp has such a row
    held out. *)
Theorem holdout_last_timestamp (pick : nat -> nat) (df : frame)
        (u i : string) :
  has_timestamp df = true ->
  In (u, i) (_choose_holdout pick df) ->
  (forall pick', _choose_holdout pick' df = _choose_holdout pick df)
  /\ exists r,
       In r (rows df) /\ user_id r = Some u /\ str (item_id r) = i
       /\ (forall r', In r' (rows df) -> user_id r' = Some u ->
                      ts_leb r' r = true)
       /\ ((exists r', In r' (rows df) /\ user_id r' = Some u
                       /\ timestamp r' = None) ->
           timestamp r = None).
Proof.
  intros Hts Hin. split.
  - intro pick'. unfold _choose_holdout, test_row. now rewrite Hts.
  - apply holdout_in in Hin. destruct Hin as (_ & _ & r & Hr & Hi).
    unfold test_row in Hr. rewrite Hts in Hr.
    apply latest_row_max in Hr. destruct Hr as [Hr Hmax].
    apply filter_In in Hr. destruct Hr as [Hr Hrow].
    assert (Hall : forall r', In r' (rows df) -> user_id r' = Some u ->
                              ts_leb r' r = true).
    { intros r' Hr' Hu'. apply Hmax. apply filter_In.
      split; [assumption|now apply row_of_user_id]. }
    exists r. split; [assumption|]. split; [now apply row_of_user_id|].
    split; [assumption|]. split; [exact Hall|].
    intros (r' & Hr' & Hu' & Hnone).
    specialize (Hall r' Hr' Hu'). unfold ts_leb in Hall.
    rewrite Hnone in Hall. now destruct (timestamp r).
Qed.

(** Witness for X15: the two stamped rows of one user. *)
Lemma holdout_last_timestamp_witness :
  (forall pick',
      _choose_holdout pick' SampleRatings.stamped_frame
      = _choose_holdout (fun _ => 0%nat) SampleRatings.stamped_frame)
  /\ exists r,
       In r (rows SampleRatings.stamped_frame)
       /\ user_id r = Some "u1" /\ str (item_id r) = "A"
       /\ (forall r', In r' (rows SampleRatings.stamped_frame) ->
                      user_id r' = Some "u1" -> ts_leb r' r = true)
       /\ ((exists r', In r' (rows SampleRatings.stamped_frame)
                       /\ user_id r' = Some "u1" /\ timestamp r' = None) ->
           timestamp r = None).
Proof.
  apply (@holdout_last_timestamp (fun _ => 0%nat)
           SampleRatings.stamped_frame "u1" "A").
  - reflexivity.
  - vm_compute. now left.
Defined.

(** X16.  The evaluation stops with ValueError exactly when no user has
    two rows; otherwise it goes on with the whole hold-out. *)
Theorem evaluate_needs_two_rows (pick : nat -> nat) (df : frame) :
  (forall n, (0 < n)%nat -> (pick n < n)%nat) ->
  (evaluate_cf_holdout pick df = Py.Raise Py.ValueError
   <-> forall r u, In r (rows df) -> user_id r = Some u ->
                   (List.length (filter (row_of_user u) (rows df)) < 2)%nat)
  /\ (forall e, evaluate_cf_holdout pick df = Py.Raise e -> e = Py.ValueError)
  /\ (forall h, evaluate_cf_holdout pick df = Py.Ok h ->
                h = _choose_holdout pick df /\ h <> []).
Proof.
  intro Hp. split; [|split].
  - rewrite (@HoldoutFacts.evaluate_raises_iff pick df Hp). split.
    + intros H r u Hr Hu. apply Nat.leb_gt. apply (H u).
      apply UserFacts.user_keys_in. now exists r.
    + intros H u Hu. apply UserFacts.user_keys_in in Hu.
      destruct Hu as (r & Hr & Hu). apply Nat.leb_gt. now apply (H r).
  - unfold evaluate_cf_holdout.
    destruct (_choose_holdout pick df); [now intros e [= <-]|discriminate].
  - unfold evaluate_cf_holdout.
    destruct (_choose_holdout pick df); [discriminate|].
    intros h [= <-]. split; [reflexivity|discriminate].
Qed.

(** Witness for X16: two users with one row each. *)
Lemma evaluate_needs_two_rows_witness :
  evaluate_cf_holdout (fun _ => 0%nat)
    {| has_rating := false; has_timestamp := false;
       rows := [Sample.interaction "u" "A"; Sample.interaction "v" "A"] |}
  = Py.Raise Py.ValueError.
Proof.
  apply (proj1 (@evaluate_needs_two_rows (fun _ => 0%nat)
                  {| has_rating := false; has_timestamp := false;
                     rows := [Sample.interaction "u" "A";
                              Sample.interaction "v" "A"] |}
                  (fun n Hn => Hn))).
  intros r u [<-|[<-|[]]] [= <-]; simpl; lia.
Defined.

End HoldoutPairs.

(* ================================================================== *)
(** ** eval.py and common/metrics.py: per-user metrics *)
(* ================================================================== *)

Module MetricFacts.

Import EvalMetrics.

Lemma ratio_unit (h i : Z) : (0 < h <= i)%Z -> 0 < inject_Z h / inject_Z i <= 1.
Proof.
  intros [Hh Hi].
  assert (Hi' : 0 < inject_Z i).
  { change 0 with (inject_Z 0). rewrite <- Zlt_Qlt. lia. }
  split.
  - apply Qlt_shift_div_l; [exact Hi'|]. rewrite Qmult_0_l.
    change 0 with (inject_Z 0). now rewrite <- Zlt_Qlt.
  - apply Qle_shift_div_r; [exact Hi'|]. rewrite Qmult_1_l.
    now rewrite <- Zle_Qle.
Qed.

(** What the loop keeps: the hit count is below the position, the score
    is between 0 and the hit count, and both grow exactly at a hit. *)
Lemma ap_loop_inv (t : string) (recs : list string) (i : Z) (s : Q) (h : Z) :
  (0 <= h < i)%Z -> 0 <= s <= inject_Z h ->
  (h <= snd (ap_loop t recs i s h))%Z
  /\ s <= fst (ap_loop t recs i s h) <= inject_Z (snd (ap_loop t recs i s h))
  /\ (In t recs ->
      (h < snd (ap_loop t recs i s h))%Z /\ s < fst (ap_loop t recs i s h))
  /\ (~ In t recs -> ap_loop t recs i s h = (s, h)).
Proof.
  revert i s h. induction recs as [|r rest IH]; simpl; intros i s h Hh Hs.
  - split; [lia|]. split; [split; [apply Qle_refl|apply Hs]|].
    split; [intros []|reflexivity].
  - destruct (String.eqb r t) eqn:E.
    + apply String.eqb_eq in E. subst r.
      destruct (@ratio_unit (h + 1) i) as [Hpos Hle]; [lia|].
      destruct (IH (i + 1)%Z (s + inject_Z (h + 1) / inject_Z i) (h + 1)%Z)
        as (H1 & [H2 H3] & _ & _); [lia| |].
      * split.
        -- apply Qle_trans with s; [apply Hs|].
           rewrite <- (Qplus_0_r s) at 1. apply Qplus_le_r, Qlt_le_weak, Hpos.
        -- apply Qle_trans with (inject_Z h + 1);
             [apply Qplus_le_compat; [apply Hs|exact Hle]|].
           rewrite inject_Z_plus. apply Qle_refl.
      * assert (Hlt : s < s + inject_Z (h + 1) / inject_Z i).
        { rewrite <- (Qplus_0_r s) at 1. now apply Qplus_lt_r. }
        split; [lia|]. split; [split; [|exact H3]|].
        -- eapply Qle_trans; [apply Qlt_le_weak, Hlt|exact H2].
        -- split; [|intro Hn; exfalso; apply Hn; now left].
           intros _. split; [lia|]. eapply Qlt_le_trans; eassumption.
    + apply String.eqb_neq in E.
      destruct (IH (i + 1)%Z s h) as (H1 & H2 & H3 & H4); [lia|exact Hs|].
      split; [exact H1|]. split; [exact H2|]. split.
      * intros [Hin|Hin]; [congruence|now apply H3].
      * intro Hn. apply H4. intro Hin. apply Hn. now right.
Qed.

(** X17.  The average precision of a list lies between 0 and 1, and it
    is positive exactly when the held-out item is among the first [k]
    recommendations, that is, when the hit flag of the evaluation is
    1. *)
Theorem ap_unit_interval (true_item : string) (recs : list string) (k : nat) :
  0 <= _ap_at_k true_item recs k <= 1
  /\ (0 < _ap_at_k true_item recs k
      <-> Py.mem true_item (Py.take k recs) = true).
Proof.
  unfold _ap_at_k.
  destruct (@ap_loop_inv true_item (Py.take k recs) 1 0 0)
    as (H1 & [H2 H3] & H4 & H5); [lia|split; apply Qle_refl|].
  destruct (ap_loop true_item (Py.take k recs) 1 0 0) as [s h] eqn:E.
  simpl in H1, H2, H3, H4, H5. rewrite DictFacts.mem_in.
  destruct (h =? 0)%Z eqn:Eh.
  - apply Z.eqb_eq in Eh. subst h.
    split; [split; [apply Qle_refl|discriminate]|].
    split; [intro H; discriminate H|].
    intro Hin. destruct (H4 Hin) as [Hlt _]. lia.
  - apply Z.eqb_neq in Eh.
    assert (Hh : 0 < inject_Z h).
    { change 0 with (inject_Z 0). rewrite <- Zlt_Qlt. lia. }
    split; [split|].
    + apply Qle_shift_div_l; [exact Hh|]. now rewrite Qmult_0_l.
    + apply Qle_shift_div_r; [exact Hh|]. now rewrite Qmult_1_l.
    + assert (Hin : In true_item (Py.take k recs)).
      { destruct (in_dec string_dec true_item (Py.take k recs)) as [Hin|Hn];
          [exact Hin|].
        specialize (H5 Hn). injection H5 as _ Hh0. lia. }
      split; [intros _; exact Hin|intros _].
      apply Qlt_shift_div_l; [exact Hh|]. rewrite Qmult_0_l.
      now apply H4.
Qed.

Lemma ap_loop_miss (t : string) (l1 l2 : list string) (i : Z) (s : Q) (h : Z) :
  ~ In t l1 ->
  ap_loop t (l1 ++ l2) i s h = ap_loop t l2 (i + Z.of_nat (List.length l1)) s h.
Proof.
  revert i. induction l1 as [|r rest IH]; simpl; intros i Hn.
  - now rewrite Z.add_0_r.
  - destruct (String.eqb r t) eqn:E.
    + apply String.eqb_eq in E. exfalso. apply Hn. now left.
    + rewrite IH by (intro H; apply Hn; now right).
      f_equal. lia.
Qed.

Lemma ap_loop_hit (t : string) (rest : list string) (i : Z) (s : Q) (h : Z) :
  ap_loop t (t :: rest) i s h
  = ap_loop t rest (i + 1) (s + inject_Z (h + 1) / inject_Z i) (h + 1).
Proof. simpl. now rewrite String.eqb_refl. Qed.

(** X18.  When the held-out item occurs once among the first [k]
    recommendations, the average precision is the reciprocal of its
    rank. *)
Theorem ap_reciprocal_rank (true_item : string) (recs before after : list string)
        (k : nat) :
  Py.take k recs = before ++ true_item :: after ->
  ~ In true_item before ->
  ~ In true_item after ->
  _ap_at_k true_item recs k
  == 1 / inject_Z (Z.of_nat (S (List.length before))).
Proof.
  intros Htake Hb Ha. unfold _ap_at_k. rewrite Htake.
  rewrite (ap_loop_miss true_item before (true_item :: after) 1 0 0 Hb).
  rewrite ap_loop_hit.
  destruct (@ap_loop_inv true_item after
              (1 + Z.of_nat (List.length before) + 1)
              (0 + inject_Z (0 + 1) / inject_Z (1 + Z.of_nat (List.length before)))
              (0 + 1)) as (_ & _ & _ & H).
  - lia.
  - destruct (@ratio_unit 1 (1 + Z.of_nat (List.length before))) as [H1 H2];
      [lia|].
    rewrite Qplus_0_l. split; [apply Qlt_le_weak, H1|exact H2].
  - rewrite (H Ha). simpl Z.eqb. cbv iota.
    replace (1 + Z.of_nat (List.length before))%Z
      with (Z.of_nat (S (List.length before))) by lia.
    change (inject_Z (0 + 1)) with 1. rewrite Qplus_0_l.
    unfold Qdiv at 1. change (/ 1) with 1. now rewrite Qmult_1_r.
Qed.

(** Witness for X18: the held-out item at rank 3. *)
Lemma ap_reciprocal_rank_witness :
  _ap_at_k "C" ["A"; "B"; "C"; "D"] 3 == 1 / inject_Z (Z.of_nat 3).
Proof.
  apply (@ap_reciprocal_rank "C" ["A"; "B"; "C"; "D"] ["A"; "B"] [] 3).
  - reflexivity.
  - intros [H|[H|[]]]; discriminate.
  - intros [].
Defined.

Lemma filter_all (A : Type) (p : A -> bool) (l : list A) :
  List.length (filter p l) = List.length l <-> forall x, In x l -> p x = true.
Proof.
  induction l as [|x t IH]; simpl; [split; [intros _ y []|reflexivity]|].
  pose proof (filter_length_le p t) as Hle.
  destruct (p x) eqn:E; simpl.
  - split.
    + intros H y [<-|Hy]; [exact E|]. apply IH; [lia|exact Hy].
    + intro H. f_equal. apply IH. intros; apply H; now right.
  - split; [intro H; lia|]. intro H.
    specialize (H x (or_introl eq_refl)). congruence.
Qed.

(** X19.  [precision_at_k] lies between 0 and 1; it is 0 for an empty
    list or [k = 0], where the divisor is 1; and it is 1 exactly when the
    first [k] recommendations are not empty and all relevant. *)
Theorem precision_unit_interval (recommended relevant : list string)
        (k : nat) :
  0 <= Metrics.precision_at_k recommended relevant k <= 1
  /\ (recommended = [] \/ k = 0%nat ->
      Metrics.precision_at_k recommended relevant k == 0)
  /\ (Metrics.precision_at_k recommended relevant k == 1
      <-> Py.take k recommended <> []
          /\ forall x, In x (Py.take k recommended) ->
                       Py.mem x relevant = true).
Proof.
  unfold Metrics.precision_at_k.
  set (rec := Py.take k recommended).
  set (hits := List.length (filter (fun x => Py.mem x relevant) rec)).
  assert (Hle : (hits <= List.length rec)%nat) by apply filter_length_le.
  assert (Hd : 0 < inject_Z (Z.of_nat (Nat.max 1 (List.length rec)))).
  { change 0 with (inject_Z 0). rewrite <- Zlt_Qlt. lia. }
  split; [split|split].
  - apply Qle_shift_div_l; [exact Hd|]. rewrite Qmult_0_l.
    change 0 with (inject_Z 0). rewrite <- Zle_Qle. lia.
  - apply Qle_shift_div_r; [exact Hd|]. rewrite Qmult_1_l.
    rewrite <- Zle_Qle. lia.
  - intro H. assert (E : rec = []).
    { unfold rec, Py.take. destruct H as [-> | ->];
        [now rewrite firstn_nil|apply firstn_O]. }
    unfold hits. rewrite E. reflexivity.
  - split.
    + intro H.
      assert (E : Z.of_nat hits = Z.of_nat (Nat.max 1 (List.length rec))).
      { apply inject_Z_injective. rewrite <- (Qmult_1_l (inject_Z (Z.of_nat (Nat.max _ _)))).
        rewrite <- H. field. intro H0. rewrite H0 in Hd. discriminate Hd. }
      assert (El : hits = List.length rec) by lia.
      split; [|now apply filter_all].
      intro Hnil. rewrite Hnil in *. simpl in *. lia.
    + intros [Hne Hall]. apply filter_all in Hall. fold hits in Hall.
      rewrite Hall.
      assert (Hpos : (0 < List.length rec)%nat)
        by (destruct rec; [congruence|simpl; lia]).
      replace (Nat.max 1 (List.length rec)) with (List.length rec) by lia.
      field. intro H0.
      replace (Nat.max 1 (List.length rec)) with (List.length rec) in Hd
        by lia.
      rewrite H0 in Hd. discriminate Hd.
Qed.

End MetricFacts.

(* ================================================================== *)
(** ** The column normalizers *)
(* ================================================================== *)

Module ColumnFacts.

Import Columns.

Lemma lower_to_orig_fold (columns : list string) (d : Dict.t string)
      (k c : string) :
  Dict.get (fold_left (fun d c => Dict.set d (Hybrid.lower c) c) columns d) k
  = Some c ->
  (In c columns /\ Hybrid.lower c = k) \/ Dict.get d k = Some c.
Proof.
  revert d. induction columns as [|x t IH]; simpl; intros d H; [now right|].
  apply IH in H. destruct H as [[H1 H2]|H]; [left; auto|].
  rewrite DictFacts.get_set in H.
  destruct (String.eqb k (Hybrid.lower x)) eqn:E; [|now right].
  apply String.eqb_eq in E. injection H as <-. left. auto.
Qed.

Lemma lower_to_orig_some (columns : list string) (k c : string) :
  Dict.get (lower_to_orig columns) k = Some c ->
  In c columns /\ Hybrid.lower c = k.
Proof.
  intro H. apply lower_to_orig_fold in H.
  destruct H as [H|H]; [exact H|discriminate].
Qed.

Lemma lower_to_orig_keys (columns : list string) (k : string) :
  In k (Dict.keys (lower_to_orig columns))
  <-> In k (map Hybrid.lower columns).
Proof.
  unfold lower_to_orig.
  assert (H : forall d : Dict.t string,
             In k (Dict.keys
                     (fold_left (fun d c => Dict.set d (Hybrid.lower c) c)
                                columns d))
             <-> In k (Dict.keys d) \/ In k (map Hybrid.lower columns)).
  { induction columns as [|x t IH]; simpl; intro d; [tauto|].
    rewrite IH, DictFacts.keys_set.
    split; intro H; repeat destruct H as [H|H]; subst; auto. }
  rewrite H. simpl. tauto.
Qed.

Lemma lower_to_orig_none (columns : list string) (k : string) :
  Dict.get (lower_to_orig columns) k = None
  <-> forall c, In c columns -> Hybrid.lower c <> k.
Proof.
  rewrite DictFacts.get_none, lower_to_orig_keys, in_map_iff. split.
  - intros H c Hc E. apply H. now exists c.
  - intros H (c & E & Hc). now apply (H c).
Qed.

Lemma pick_none (m : Dict.t string) (cands : list string) :
  pick m cands = None
  <-> forall c, In c cands -> Dict.get m (Hybrid.lower c) = None.
Proof.
  induction cands as [|c t IH]; simpl; [split; [intros _ ? []|reflexivity]|].
  destruct (Dict.get m (Hybrid.lower c)) as [o|] eqn:E.
  - split; [discriminate|]. intro H.
    specialize (H c (or_introl eq_refl)). congruence.
  - rewrite IH. split.
    + intros H c' [<-|Hc']; auto.
    + intros H c' Hc'. apply H. now right.
Qed.

Lemma pick_some (m : Dict.t string) (cands : list string) (col : string) :
  pick m cands = Some col ->
  exists c, In c cands /\ Dict.get m (Hybrid.lower c) = Some col.
Proof.
  induction cands as [|c t IH]; simpl; [discriminate|].
  destruct (Dict.get m (Hybrid.lower c)) as [o|] eqn:E.
  - intros [= <-]. exists c. auto.
  - intro H. destruct (IH H) as (c' & Hc' & Hg). exists c'. auto.
Qed.

(** A column is found for a list of candidates exactly when the lowered
    name of some column is the lowered name of a candidate, and the
    column found is such a column. *)
Lemma pick_found (columns cands : list string) :
  (pick (lower_to_orig columns) cands = None
   <-> forall c, In c columns ->
                 ~ In (Hybrid.lower c) (map Hybrid.lower cands))
  /\ (forall col, pick (lower_to_orig columns) cands = Some col ->
        In col columns /\ In (Hybrid.lower col) (map Hybrid.lower cands)).
Proof.
  split.
  - rewrite pick_none. split.
    + intros H c Hc Hin. apply in_map_iff in Hin.
      destruct Hin as (cand & E & Hcand).
      apply (proj1 (lower_to_orig_none columns _) (H cand Hcand) c Hc).
      now symmetry.
    + intros H cand Hcand. apply lower_to_orig_none. intros c Hc E.
      apply (H c Hc). rewrite E. now apply in_map.
  - intros col H. apply pick_some in H. destruct H as (cand & Hcand & Hg).
    apply lower_to_orig_some in Hg. destruct Hg as [Hin E].
    split; [exact Hin|]. rewrite E. now apply in_map.
Qed.

Lemma user_aliases (x : string) :
  In x (map Hybrid.lower user_cands) <-> In x ["user_id"; "userid"; "user"].
Proof. simpl. tauto. Qed.

Lemma item_aliases (x : string) :
  In x (map Hybrid.lower item_cands)
  <-> In x ["item_id"; "itemid"; "movieid"; "movie_id"; "book_id";
            "productid"; "product_id"; "item"].
Proof. simpl. tauto. Qed.

Lemma rating_aliases (x : string) :
  In x (map Hybrid.lower rating_cands) <-> In x ["rating"; "score"; "stars"].
Proof. simpl. tauto. Qed.

Lemma ts_aliases (x : string) :
  In x (map Hybrid.lower ts_cands) <-> In x ["timestamp"; "time"; "ts"].
Proof. simpl. tauto. Qed.

(** X20.  Both normalizers raise ValueError exactly when no column is a
    user id column or no column is an item id column, the names compared
    without regard to case. *)
Theorem normalize_raises_iff (columns : list string) :
  let missing :=
    (forall c, In c columns ->
               ~ In (Hybrid.lower c) ["user_id"; "userid"; "user"])
    \/ (forall c, In c columns ->
                  ~ In (Hybrid.lower c)
                       ["item_id"; "itemid"; "movieid"; "movie_id"; "book_id";
                        "productid"; "product_id"; "item"]) in
  (EvalColumns._normalize_ratings_columns columns = Py.Raise Py.ValueError
   <-> missing)
  /\ (CFColumns._normalize_ratings_columns columns = Py.Raise Py.ValueError
      <-> missing).
Proof.
  intro missing.
  assert (Hm : pick (lower_to_orig columns) user_cands = None
               \/ pick (lower_to_orig columns) item_cands = None
               <-> missing).
  { unfold missing.
    rewrite (proj1 (pick_found columns user_cands)).
    rewrite (proj1 (pick_found columns item_cands)).
    split; (intros [H|H]; [left|right]); intros c Hc Hin; apply (H c Hc).
    - now apply user_aliases.
    - now apply item_aliases.
    - now apply user_aliases.
    - now apply item_aliases. }
  rewrite <- Hm.
  unfold EvalColumns._normalize_ratings_columns,
    CFColumns._normalize_ratings_columns.
  destruct (pick (lower_to_orig columns) user_cands) as [u|],
    (pick (lower_to_orig columns) item_cands) as [i|]; cbv zeta;
    split; split; try discriminate; try (intros [H|H]; discriminate); auto.
Qed.

Lemma rename_nth (rename_map : Dict.t string) (columns : list string)
      (j : nat) (c' : string) :
  nth_error (rename rename_map columns) j = Some c' <->
  exists c, nth_error columns j = Some c /\ c' = Dict.get_or rename_map c c.
Proof.
  unfold rename. rewrite nth_error_map.
  destruct (nth_error columns j) as [c|]; simpl.
  - split; [intros [= <-]; now exists c|intros (c0 & [= <-] & ->); reflexivity].
  - split; [discriminate|intros (c0 & H & _); discriminate].
Qed.

Lemma rename_in (rename_map : Dict.t string) (columns : list string)
      (c' : string) :
  In c' (rename rename_map columns)
  <-> exists c, In c columns /\ c' = Dict.get_or rename_map c c.
Proof.
  unfold rename. rewrite in_map_iff.
  split; intros (c & H1 & H2); exists c; auto.
Qed.

Lemma get_or_set_found (rename_map : Dict.t string) (col : option string)
      (name c : string) :
  Dict.get_or (set_found rename_map col name) c c
  = if match col with
       | Some x => String.eqb c x
       | None => false
       end
    then name else Dict.get_or rename_map c c.
Proof.
  destruct col as [x|]; simpl; [|reflexivity].
  now rewrite DictFacts.get_or_set.
Qed.

(** Columns found for lists of candidates that share no lowered name are
    different columns. *)
Lemma picked_apart (columns cands cands' : list string) (a : string) :
  pick (lower_to_orig columns) cands = Some a ->
  (forall x, In x (map Hybrid.lower cands) ->
             In x (map Hybrid.lower cands') -> False) ->
  match pick (lower_to_orig columns) cands' with
  | Some x => String.eqb a x
  | None => false
  end = false.
Proof.
  intros Ha Hd.
  destruct (pick (lower_to_orig columns) cands') as [b|] eqn:Eb;
    [|reflexivity].
  apply String.eqb_neq. intros <-.
  apply (proj2 (pick_found columns cands)) in Ha.
  apply (proj2 (pick_found columns cands')) in Eb.
  apply (Hd (Hybrid.lower a)); [apply Ha|apply Eb].
Qed.

Lemma picked_is (columns cands : list string) (c : string) :
  match pick (lower_to_orig columns) cands with
  | Some x => String.eqb c x
  | None => false
  end = true ->
  pick (lower_to_orig columns) cands = Some c
  /\ In c columns /\ In (Hybrid.lower c) (map Hybrid.lower cands).
Proof.
  destruct (pick (lower_to_orig columns) cands) as [x|] eqn:E;
    [|discriminate].
  intro H. apply String.eqb_eq in H. subst x.
  split; [reflexivity|]. now apply (proj2 (pick_found columns cands)).
Qed.

Lemma apart_user_item (x : string) :
  In x (map Hybrid.lower user_cands) -> In x (map Hybrid.lower item_cands) ->
  False.
Proof.
  simpl. intros Hx Hy. repeat destruct Hx as [Hx|Hx]; subst;
    repeat destruct Hy as [Hy|Hy]; try discriminate; auto.
Qed.

Lemma apart_user_rating (x : string) :
  In x (map Hybrid.lower user_cands) -> In x (map Hybrid.lower rating_cands) ->
  False.
Proof.
  simpl. intros Hx Hy. repeat destruct Hx as [Hx|Hx]; subst;
    repeat destruct Hy as [Hy|Hy]; try discriminate; auto.
Qed.

Lemma apart_user_ts (x : string) :
  In x (map Hybrid.lower user_cands) -> In x (map Hybrid.lower ts_cands) ->
  False.
Proof.
  simpl. intros Hx Hy. repeat destruct Hx as [Hx|Hx]; subst;
    repeat destruct Hy as [Hy|Hy]; try discriminate; auto.
Qed.

Lemma apart_item_rating (x : string) :
  In x (map Hybrid.lower item_cands) -> In x (map Hybrid.lower rating_cands) ->
  False.
Proof.
  simpl. intros Hx Hy. repeat destruct Hx as [Hx|Hx]; subst;
    repeat destruct Hy as [Hy|Hy]; try discriminate; auto.
Qed.

Lemma apart_item_ts (x : string) :
  In x (map Hybrid.lower item_cands) -> In x (map Hybrid.lower ts_cands) ->
  False.
Proof.
  simpl. intros Hx Hy. repeat destruct Hx as [Hx|Hx]; subst;
    repeat destruct Hy as [Hy|Hy]; try discriminate; auto.
Qed.

(** X21.  When the normalizer of eval.py succeeds on a header of ASCII
    names, the header keeps its length and holds a [user_id] and an
    [item_id] column; every column either keeps its name or is renamed to
    one of the four expected names, and only a column whose lowered name
    is one of the known variants is renamed (such a column can also keep
    its name: one column is picked for each role); and the header holds a
    [timestamp] column exactly when the lowered name of some column is
    timestamp, time or ts. *)
Theorem normalize_header (columns header : list string) :
  EvalColumns._normalize_ratings_columns columns = Py.Ok header ->
  List.length header = List.length columns
  /\ In "user_id" header
  /\ In "item_id" header
  /\ (forall j c c', nth_error columns j = Some c ->
        nth_error header j = Some c' ->
        c' = c
        \/ (In c' ["user_id"; "item_id"; "rating"; "timestamp"]
            /\ In (Hybrid.lower c)
                  (map Hybrid.lower
                       (user_cands ++ item_cands ++ rating_cands ++ ts_cands))))
  /\ (In "timestamp" header
      <-> exists c, In c columns
                    /\ In (Hybrid.lower c) ["timestamp"; "time"; "ts"]).
Proof.
  unfold EvalColumns._normalize_ratings_columns.
  destruct (pick (lower_to_orig columns) user_cands) as [u|] eqn:Eu;
    [|discriminate].
  destruct (pick (lower_to_orig columns) item_cands) as [i|] eqn:Ei;
    [|discriminate].
  cbv zeta. intro H.
  apply (f_equal (fun r => match r with
                           | Py.Ok a => a
                           | Py.Raise _ => []
                           end)) in H.
  cbv beta iota in H. subst header.
  destruct (proj2 (pick_found columns user_cands) u Eu) as [Hu Hlu].
  destruct (proj2 (pick_found columns item_cands) i Ei) as [Hi Hli].
  assert (Hfinal : forall c,
             Dict.get_or
               (set_found
                  (set_found (Dict.set (Dict.set [] u "user_id") i "item_id")
                             (pick (lower_to_orig columns) rating_cands) "rating")
                  (pick (lower_to_orig columns) ts_cands) "timestamp") c c
             = if match pick (lower_to_orig columns) ts_cands with
                  | Some x => String.eqb c x
                  | None => false
                  end then "timestamp"
               else if match pick (lower_to_orig columns) rating_cands with
                       | Some x => String.eqb c x
                       | None => false
                       end then "rating"
               else if String.eqb c i then "item_id"
               else if String.eqb c u then "user_id" else c).
  { intro c. rewrite !get_or_set_found, !DictFacts.get_or_set. reflexivity. }
  assert (Hui : String.eqb u i = false).
  { apply String.eqb_neq. intros <-.
    apply (@apart_user_item (Hybrid.lower u)); assumption. }
  split; [unfold rename; apply length_map|].
  split; [|split; [|split]].
  - apply rename_in. exists u. split; [exact Hu|]. rewrite Hfinal.
    rewrite (@picked_apart columns user_cands ts_cands u Eu apart_user_ts).
    rewrite (@picked_apart columns user_cands rating_cands u Eu apart_user_rating).
    now rewrite Hui, String.eqb_refl.
  - apply rename_in. exists i. split; [exact Hi|]. rewrite Hfinal.
    rewrite (@picked_apart columns item_cands ts_cands i Ei apart_item_ts).
    rewrite (@picked_apart columns item_cands rating_cands i Ei apart_item_rating).
    now rewrite String.eqb_refl.
  - intros j c c' Hc Hc'. apply rename_nth in Hc'.
    destruct Hc' as (c0 & Hc0 & ->). rewrite Hc in Hc0. injection Hc0 as <-.
    rewrite Hfinal, !map_app.
    destruct (match pick (lower_to_orig columns) ts_cands with Some x => String.eqb c x | None => false end)
      eqn:Et.
    { right. split; [simpl; tauto|].
      apply picked_is in Et. rewrite !in_app_iff. tauto. }
    destruct (match pick (lower_to_orig columns) rating_cands with Some x => String.eqb c x | None => false end)
      eqn:Er.
    { right. split; [simpl; tauto|].
      apply picked_is in Er. rewrite !in_app_iff. tauto. }
    destruct (String.eqb c i) eqn:Eci.
    { right. split; [simpl; tauto|].
      apply String.eqb_eq in Eci. subst c. rewrite !in_app_iff. tauto. }
    destruct (String.eqb c u) eqn:Ecu; [|now left].
    right. split; [simpl; tauto|].
    apply String.eqb_eq in Ecu. subst c. rewrite !in_app_iff. tauto.
  - split.
    + intro Hin. apply rename_in in Hin. destruct Hin as (c & Hcin & Hc).
      rewrite Hfinal in Hc.
      destruct (match pick (lower_to_orig columns) ts_cands with Some x => String.eqb c x | None => false end)
        eqn:Et.
      { apply picked_is in Et. destruct Et as (_ & H1 & H2).
        exists c. split; [exact H1|now apply ts_aliases]. }
      destruct (match pick (lower_to_orig columns) rating_cands with Some x => String.eqb c x | None => false end);
        [discriminate|].
      destruct (String.eqb c i); [discriminate|].
      destruct (String.eqb c u); [discriminate|].
      subst c. exists "timestamp". split; [exact Hcin|simpl; tauto].
    + intros (c & Hc & Hl).
      destruct (pick (lower_to_orig columns) ts_cands) as [t|] eqn:Et.
      * destruct (proj2 (pick_found columns ts_cands) t Et) as [Htin _].
        apply rename_in. exists t. split; [exact Htin|].
        now rewrite Hfinal, String.eqb_refl.
      * exfalso.
        apply (proj1 (proj1 (pick_found columns ts_cands)) Et c Hc).
        now apply ts_aliases.
Qed.

(** Witness for X21: the header of the MovieLens tables. *)
Lemma normalize_header_witness :
  List.length ["user_id"; "item_id"; "rating"; "timestamp"]
  = List.length ["userId"; "movieId"; "rating"; "timestamp"]
  /\ In "user_id" ["user_id"; "item_id"; "rating"; "timestamp"]
  /\ In "item_id" ["user_id"; "item_id"; "rating"; "timestamp"]
  /\ (forall j c c',
        nth_error ["userId"; "movieId"; "rating"; "timestamp"] j = Some c ->
        nth_error ["user_id"; "item_id"; "rating"; "timestamp"] j = Some c' ->
        c' = c
        \/ (In c' ["user_id"; "item_id"; "rating"; "timestamp"]
            /\ In (Hybrid.lower c)
                  (map Hybrid.lower
                       (user_cands ++ item_cands ++ rating_cands ++ ts_cands))))
  /\ (In "timestamp" ["user_id"; "item_id"; "rating"; "timestamp"]
      <-> exists c, In c ["userId"; "movieId"; "rating"; "timestamp"]
                    /\ In (Hybrid.lower c) ["timestamp"; "time"; "ts"]).
Proof.
  apply (@normalize_header ["userId"; "movieId"; "rating"; "timestamp"]
           ["user_id"; "item_id"; "rating"; "timestamp"]).
  reflexivity.
Defined.

Lemma rename_in_step (rename_map : Dict.t string) (tcol : option string)
      (columns : list string) :
  Forall2 (fun x y => x = y \/ x = "timestamp")
          (rename (set_found rename_map tcol "timestamp") columns)
          (rename rename_map columns).
Proof.
  unfold rename. induction columns as [|c rest IH]; simpl; constructor;
    [|exact IH].
  rewrite get_or_set_found.
  destruct (match tcol with Some x => String.eqb c x | None => false end);
    auto.
Qed.

Lemma ok_inj (A : Type) (a b : A) : Py.Ok a = Py.Ok b -> a = b.
Proof. now intros [= ->]. Qed.

(** X22.  The normalizer of cf_inference.py is in step with the one of
    eval.py: they fail on the same headers, and on any other header they
    give the same names to all columns but the one eval.py renames to
    [timestamp]. *)
Theorem normalizers_in_step (columns : list string) :
  (EvalColumns._normalize_ratings_columns columns = Py.Raise Py.ValueError
   <-> CFColumns._normalize_ratings_columns columns = Py.Raise Py.ValueError)
  /\ (forall a b,
        EvalColumns._normalize_ratings_columns columns = Py.Ok a ->
        CFColumns._normalize_ratings_columns columns = Py.Ok b ->
        Forall2 (fun x y => x = y \/ x = "timestamp") a b)
  /\ ((forall c, In c columns ->
                 ~ In (Hybrid.lower c) ["timestamp"; "time"; "ts"]) ->
      EvalColumns._normalize_ratings_columns columns
      = CFColumns._normalize_ratings_columns columns).
Proof.
  unfold EvalColumns._normalize_ratings_columns,
    CFColumns._normalize_ratings_columns.
  destruct (pick (lower_to_orig columns) user_cands) as [u|];
    [|split; [tauto|split; [discriminate|reflexivity]]].
  destruct (pick (lower_to_orig columns) item_cands) as [i|];
    [|split; [tauto|split; [discriminate|reflexivity]]].
  cbv zeta.
  set (rm := set_found (Dict.set (Dict.set [] u "user_id") i "item_id")
                       (pick (lower_to_orig columns) rating_cands) "rating").
  split; [split; discriminate|]. split.
  - intros a b Ha Hb. apply ok_inj in Ha, Hb. subst a b.
    apply rename_in_step.
  - intro Hno.
    assert (E : pick (lower_to_orig columns) ts_cands = None).
    { apply (proj1 (pick_found columns ts_cands)). intros c Hc Hin.
      apply (Hno c Hc). now apply ts_aliases. }
    now rewrite E.
Qed.

End ColumnFacts.

(* ================================================================== *)
(** ** cf_inference.py: the artifact path and what is never returned *)
(* ================================================================== *)

Module IndexFacts.

Import CF.

Lemma fold_set_keys (V X : Type) (key : X -> string) (val : X -> V)
      (l : list X) (d : Dict.t V) (k : string) :
  In k (Dict.keys (fold_left (fun d x => Dict.set d (key x) (val x)) l d))
  <-> In k (Dict.keys d) \/ In k (map key l).
Proof.
  revert d. induction l as [|x t IH]; simpl; intro d; [tauto|].
  rewrite IH, DictFacts.keys_set.
  split; intro H; repeat destruct H as [H|H]; subst; auto.
Qed.

Lemma fold_set_nodup (V X : Type) (key : X -> string) (val : X -> V)
      (l : list X) (d : Dict.t V) :
  NoDup (Dict.keys d) ->
  NoDup (Dict.keys (fold_left (fun d x => Dict.set d (key x) (val x)) l d)).
Proof.
  revert d. induction l as [|x t IH]; simpl; intros d Hd; [exact Hd|].
  apply IH. now apply DictFacts.nodup_set.
Qed.

Lemma index_of_ids_keys (ids : list string) (k : string) :
  In k (Dict.keys (index_of_ids ids)) <-> In k ids.
Proof.
  unfold index_of_ids.
  rewrite (fold_set_keys (@snd nat string) (@fst nat string)
                         (Py.enumerate ids) [] k).
  rewrite ArgsortFacts.enumerate_snd. simpl. tauto.
Qed.

(** The map has one entry for every distinct id of the list. *)
Lemma index_of_ids_length (ids : list string) :
  List.length (index_of_ids ids) = List.length (Py.set_of ids).
Proof.
  rewrite <- (length_map fst (index_of_ids ids)).
  apply Permutation_length, NoDup_Permutation.
  - apply (fold_set_nodup (@snd nat string) (@fst nat string)). constructor.
  - apply DictFacts.set_of_nodup.
  - intro k. fold (Dict.keys (index_of_ids ids)).
    now rewrite index_of_ids_keys, DictFacts.set_of_in.
Qed.

Lemma set_of_nodup_id (l : list string) : NoDup l -> Py.set_of l = l.
Proof.
  induction 1 as [|x t Hx Ht IH]; simpl; [reflexivity|].
  apply DictFacts.mem_not_in in Hx. now rewrite Hx, IH.
Qed.

Lemma nodup_not_later (ids : list string) (j : nat) (it : string) :
  NoDup ids -> nth_error ids j = Some it -> ~ In it (skipn (S j) ids).
Proof.
  revert j. induction ids as [|x t IH]; intros j Hnd Hj;
    [destruct j; discriminate|].
  inversion Hnd as [|? ? Hx Ht]; subst. destruct j as [|j'].
  - simpl in Hj. injection Hj as <-. exact Hx.
  - simpl in Hj. now apply IH.
Qed.

End IndexFacts.

Module ArtifactPath.

Import Ratings CF.

Lemma init_files (f : cf_files) (rs : list row) :
  has_artifacts (__init__ f rs) = true ->
  exists sc user_ids ids,
    scores_npy f = Some sc /\ user_ids_json f = Some user_ids
    /\ item_ids_json f = Some ids
    /\ scores (__init__ f rs) = Some sc
    /\ user_to_idx (__init__ f rs) = Some (index_of_ids user_ids)
    /\ idx_to_item (__init__ f rs) = Some ids
    /\ item_to_idx (__init__ f rs) = Some (index_of_ids ids)
    /\ Np.shape sc
       = [List.length (index_of_ids user_ids); List.length ids].
Proof.
  unfold __init__. simpl.
  destruct (_try_load_artifacts f) as [[[sc u2i] ids]|] eqn:E; [|discriminate].
  intros _. apply LoadFacts.try_load_some in E.
  destruct E as (us & H1 & H2 & H3 & -> & Hshape).
  exists sc, us, ids. simpl. auto 10.
Qed.

(** X23.  The artifacts are accepted exactly when the three files are
    there and the matrix has one row for every distinct id of the user
    list and one column for every entry of the item list. *)
Theorem artifacts_accepted_iff (f : cf_files) (rs : list row) :
  has_artifacts (__init__ f rs) = true
  <-> exists sc user_ids item_ids,
        scores_npy f = Some sc /\ user_ids_json f = Some user_ids
        /\ item_ids_json f = Some item_ids
        /\ Np.shape sc
           = [List.length (Py.set_of user_ids); List.length item_ids].
Proof.
  split.
  - intro H. destruct (init_files f rs H)
      as (sc & us & ids & H1 & H2 & H3 & _ & _ & _ & _ & Hshape).
    exists sc, us, ids. rewrite <- IndexFacts.index_of_ids_length. auto.
  - intros (sc & us & ids & H1 & H2 & H3 & Hshape).
    unfold __init__. simpl. unfold _try_load_artifacts.
    rewrite H1, H2, H3. unfold Np.ndim. rewrite Hshape.
    rewrite IndexFacts.index_of_ids_length.
    assert (E : shape_eqb [List.length (Py.set_of us); List.length ids]
                          [List.length (Py.set_of us); List.length ids]
                = true) by now apply LoadFacts.shape_eqb_eq.
    rewrite E. reflexivity.
Qed.

(** X24.  How the artifact path ends for a user of the user map and a
    positive [k]: with IndexError when the row of the user is outside the
    matrix; otherwise with OverflowError when the matrix holds integers
    and the user has seen an item of the item list; otherwise with
    ValueError when [k] is larger than the number of columns, and with a
    list of at most [k] items when it is not.  The row is in the matrix
    whenever the user list names no id twice. *)
Theorem artifact_path_errors (f : cf_files) (rs : list row) (uid : string)
        (k uidx : nat) (u2i : Dict.t nat) :
  has_artifacts (__init__ f rs) = true ->
  user_to_idx (__init__ f rs) = Some u2i ->
  Dict.get u2i uid = Some uidx ->
  (0 < k)%nat ->
  exists sc ids n,
    scores (__init__ f rs) = Some sc
    /\ idx_to_item (__init__ f rs) = Some ids
    /\ Np.shape sc = [n; List.length ids]
    /\ ((n <= uidx)%nat ->
        _recs_from_artifacts (__init__ f rs) uid k = Py.Raise Py.IndexError)
    /\ ((uidx < n)%nat ->
        Np.dtype sc = Np.integer ->
        Masking.any_masked ids (Design.seen_items rs uid) = true ->
        _recs_from_artifacts (__init__ f rs) uid k = Py.Raise Py.OverflowError)
    /\ ((uidx < n)%nat ->
        Np.dtype sc = Np.floating
        \/ Masking.any_masked ids (Design.seen_items rs uid) = false ->
        (List.length ids < k)%nat ->
        _recs_from_artifacts (__init__ f rs) uid k = Py.Raise Py.ValueError)
    /\ ((uidx < n)%nat ->
        Np.dtype sc = Np.floating
        \/ Masking.any_masked ids (Design.seen_items rs uid) = false ->
        (k <= List.length ids)%nat ->
        exists r, _recs_from_artifacts (__init__ f rs) uid k = Py.Ok r
                  /\ (List.length r <= k)%nat)
    /\ ((forall user_ids, user_ids_json f = Some user_ids -> NoDup user_ids) ->
        (uidx < n)%nat).
Proof.
  intros Hart Hu2i Hget Hk.
  destruct (init_files f rs Hart)
    as (sc & us & ids & _ & Hus & _ & Hsc & Hu2i' & Hids & Hi2i & Hshape).
  exists sc, ids, (List.length (index_of_ids us)).
  split; [exact Hsc|]. split; [exact Hids|]. split; [exact Hshape|].
  split; [|split; [|split; [|split]]].
  - intros Hge.
    now apply (@ArtifactFacts.recs_row_outside
                 (__init__ f rs) uid k u2i sc uidx
                 (List.length (index_of_ids us)) (List.length ids)).
  - intros Hlt Hdt Hany.
    apply (@ArtifactFacts.recs_overflow (__init__ f rs) uid k u2i sc ids uidx
             (List.length (index_of_ids us))); auto.
    now rewrite UserFacts.user_items_seen.
  - intros Hlt Hdt Hgt.
    apply (@ArtifactFacts.recs_too_many (__init__ f rs) uid k u2i sc ids uidx
             (List.length (index_of_ids us))); auto.
    now rewrite UserFacts.user_items_seen.
  - intros Hlt Hdt Hle.
    destruct (@ArtifactFacts.recs_from_artifacts_known
                (__init__ f rs) uid k u2i (index_of_ids ids) sc ids uidx _
                Hu2i Hget Hsc Hshape Hlt Hi2i
                (MaskFacts.index_of_ids_range ids) Hids (conj Hk Hle))
      as (row & Hlen & _ & Hrecs).
    { now rewrite ArtifactFacts.writes_any_masked, UserFacts.user_items_seen. }
    eexists. split; [exact Hrecs|].
    rewrite length_map.
    eapply Nat.le_trans; [apply filter_length_le|].
    destruct (@ArtifactFacts.selection_spec row k) as (H1 & _); [lia|].
    now rewrite H1.
  - intro Hnd. specialize (Hnd us Hus).
    rewrite IndexFacts.index_of_ids_length, (IndexFacts.set_of_nodup_id Hnd).
    rewrite Hu2i' in Hu2i. injection Hu2i as <-.
    eapply MaskFacts.index_of_ids_range, Hget.
Qed.

(** Witness for X24: the user "v" has seen A and B, the items of an
    artifact whose matrix holds integers; the masking loop raises
    OverflowError. *)
Lemma artifact_path_errors_witness :
  _recs_from_artifacts
    (__init__ SampleArtifacts.files_int Sample.ratings_A_popular) "v" 1
  = Py.Raise Py.OverflowError.
Proof.
  destruct (@artifact_path_errors SampleArtifacts.files_int
              Sample.ratings_A_popular "v" 1 0 (index_of_ids ["v"]))
    as (sc & ids & n & Hsc & Hids & Hshape & _ & Hover & _);
    [reflexivity|reflexivity|reflexivity|lia|].
  injection Hsc as <-. injection Hids as <-. injection Hshape as <-.
  apply Hover; [lia|reflexivity|reflexivity].
Defined.

Lemma fallback_unseen (f : cf_files) (rs : list row) (uid : string) (k : nat)
      (it : string) :
  In it (_cooccurrence_recs (__init__ f rs) uid k) ->
  Design.interacted rs uid it = false.
Proof.
  unfold _cooccurrence_recs. rewrite UserFacts.user_items_seen.
  destruct (Design.seen_items rs uid) as [|s0 ss] eqn:E.
  - intros _. destruct (Design.interacted rs uid it) eqn:Ei; [|reflexivity].
    apply UserFacts.seen_items_in in Ei. rewrite E in Ei. destruct Ei.
  - rewrite <- E. intro Hin. apply TopK.top_in in Hin.
    apply FallbackFacts.scores_keys in Hin. destruct Hin as [Hm _].
    now rewrite CoFacts.mem_seen_interacted in Hm.
Qed.

(** X25.  Without artifacts, and with artifacts for every user of the
    user map, an item the user has interacted with is never recommended,
    provided the item list of the artifact names no id twice. *)
Theorem never_recommends_seen (f : cf_files) (rs : list row) (uid : string)
        (k : nat) (it : string) :
  (forall ids, item_ids_json f = Some ids -> NoDup ids) ->
  (has_artifacts (__init__ f rs) = false
   \/ exists u2i uidx, user_to_idx (__init__ f rs) = Some u2i
                       /\ Dict.get u2i uid = Some uidx) ->
  In it (item_ids_of (recommend_for_user (__init__ f rs) uid k)) ->
  Design.interacted rs uid it = false.
Proof.
  intros Hfiles Hmode. unfold recommend_for_user.
  rewrite ColdStart.item_ids_of_map. intro Hin.
  destruct k as [|k']; [destruct Hin|].
  apply TopK.firstn_In in Hin.
  destruct (has_artifacts (__init__ f rs)) eqn:Hart;
    [|now apply (fallback_unseen f rs uid (S k'))].
  destruct (_recs_from_artifacts (__init__ f rs) uid (S k')) as [r|e]
    eqn:Hrecs;
    [|now apply (fallback_unseen f rs uid (S k'))].
  destruct Hmode as [Hno|(u2i & uidx & Hu2i & Hget)]; [discriminate|].
  destruct (init_files f rs Hart)
    as (sc & us & ids & _ & _ & Hfile & Hsc & _ & Hids & Hi2i & Hshape).
  pose proof (Hfiles ids Hfile) as Hnd.
  set (n := List.length (index_of_ids us)) in *.
  destruct (Nat.le_gt_cases n uidx) as [Hge|Hlt].
  { rewrite (@ArtifactFacts.recs_row_outside
               (__init__ f rs) uid (S k') u2i sc uidx n
               (List.length ids) Hu2i Hget Hsc Hshape Hge) in Hrecs.
    discriminate. }
  assert (Hdt : Np.dtype sc = Np.floating
                \/ Masking.writes (index_of_ids ids)
                     (Dict.get_or (user_items (__init__ f rs)) uid [])
                   = false).
  { pose proof Hrecs as Hok.
    rewrite (@ArtifactFacts.recs_masked_row
               (__init__ f rs) uid (S k') u2i (index_of_ids ids) sc uidx n
               (List.length ids) Hu2i Hget Hsc Hshape Hlt Hi2i) in Hok.
    destruct (mask_seen (Np.dtype sc) (index_of_ids ids)
                (Dict.get_or (user_items (__init__ f rs)) uid [])
                (map (Np.at2 sc uidx) (seq 0 (List.length ids))))
      as [row|e] eqn:Hmask; [|discriminate].
    apply MaskFacts.mask_seen_ok in Hmask; [tauto|].
    intros it' j H. rewrite length_map, length_seq.
    eapply MaskFacts.index_of_ids_range, H. }
  destruct (Nat.le_gt_cases (S k') (List.length ids)) as [Hle|Hgt].
  2:{ pose proof Hdt as Hdt'.
      rewrite ArtifactFacts.writes_any_masked in Hdt'.
      rewrite (@ArtifactFacts.recs_too_many
                 (__init__ f rs) uid (S k') u2i sc ids uidx n
                 Hu2i Hget Hsc Hshape Hlt Hi2i Hdt' Hgt) in Hrecs.
      discriminate. }
  destruct (@ArtifactFacts.recs_from_artifacts_known
              (__init__ f rs) uid (S k') u2i (index_of_ids ids) sc ids uidx n
              Hu2i Hget Hsc Hshape Hlt Hi2i
              (MaskFacts.index_of_ids_range ids) Hids
              (conj (Nat.lt_0_succ k') Hle) Hdt)
    as (row & Hlen & Hnth & Hrecs').
  rewrite Hrecs' in Hrecs. injection Hrecs as <-.
  apply in_map_iff in Hin. destruct Hin as (j & Hj & Hjin).
  apply filter_In in Hjin. destruct Hjin as [Hjtop Hfin].
  destruct (@ArtifactFacts.selection_spec row (S k')) as (_ & _ & H3 & _);
    [lia|].
  assert (Hjlt : (j < List.length ids)%nat)
    by (rewrite <- Hlen; now apply H3).
  rewrite (Hnth j Hjlt), UserFacts.user_items_seen in Hfin.
  rewrite MaskFacts.hit_masked in Hfin.
  destruct (Masking.masked ids (Design.seen_items rs uid) j) eqn:Em;
    [discriminate|].
  unfold Masking.masked in Em.
  assert (Hnth' : nth_error ids j = Some it).
  { rewrite <- Hj. now apply nth_error_nth'. }
  rewrite Hnth' in Em.
  pose proof (@IndexFacts.nodup_not_later ids j it Hnd Hnth') as Hlater.
  apply DictFacts.mem_not_in in Hlater. rewrite Hlater in Em.
  simpl in Em. rewrite andb_true_r in Em.
  now rewrite CoFacts.mem_seen_interacted in Em.
Qed.

(** Witness for X25: the table of three users without artifacts. *)
Lemma never_recommends_seen_witness :
  Design.interacted SampleArtifacts.ratings_co "u1" "C" = false.
Proof.
  apply (@never_recommends_seen Sample.no_files SampleArtifacts.ratings_co
           "u1" 3 "C").
  - intros ids [=].
  - left. reflexivity.
  - vm_compute. now left.
Defined.

(** X26.  The co-occurrence table is symmetric, counts no item with
    itself and holds no negative count. *)
Theorem co_counts_symmetric (f : cf_files) (rs : list row) (a b : string) :
  CoTable.count (co_counts (__init__ f rs)) a b
  = CoTable.count (co_counts (__init__ f rs)) b a
  /\ CoTable.count (co_counts (__init__ f rs)) a a = 0%Z
  /\ (0 <= CoTable.count (co_counts (__init__ f rs)) a b)%Z.
Proof.
  rewrite !CoFacts.co_counts_spec. rewrite String.eqb_refl.
  rewrite (String.eqb_sym b a).
  split; [|split; [reflexivity|]].
  - destruct (String.eqb a b); [reflexivity|].
    unfold Design.co_occurrence. f_equal. f_equal.
    apply filter_ext. intro u. apply andb_comm.
  - destruct (String.eqb a b); [lia|].
    unfold Design.co_occurrence. lia.
Qed.

End ArtifactPath.

(* ================================================================== *)
(** ** cf_inference.py: the id maps of the artifact *)
(* ================================================================== *)

Module IdMaps.

Import CF.

(** X27.  The map from ids to positions that the loader builds from a
    list of ids: what it returns for an id is a position of the list that
    carries the id; every id of the list has an entry; the map has one
    entry for every distinct id; and when the list names no id twice,
    the id at a position is mapped back to that position. *)
Theorem index_round_trip (ids : list string) :
  (forall it j, Dict.get (index_of_ids ids) it = Some j ->
                nth_error ids j = Some it)
  /\ (forall it, In it ids -> exists j, Dict.get (index_of_ids ids) it = Some j)
  /\ List.length (index_of_ids ids) = List.length (Py.set_of ids)
  /\ (NoDup ids ->
      forall j it, nth_error ids j = Some it ->
                   Dict.get (index_of_ids ids) it = Some j).
Proof.
  split; [|split; [|split]].
  - intros it j H. now apply MaskFacts.index_of_ids_spec in H.
  - intros it Hin. apply IndexFacts.index_of_ids_keys in Hin.
    destruct (Dict.get (index_of_ids ids) it) as [j|] eqn:E;
      [now exists j|].
    apply DictFacts.get_none in E. contradiction.
  - apply IndexFacts.index_of_ids_length.
  - intros Hnd j it Hj. apply MaskFacts.index_of_ids_spec.
    split; [exact Hj|]. now apply IndexFacts.nodup_not_later.
Qed.

(** Witness for X27: a list of three distinct ids. *)
Lemma index_round_trip_witness :
  Dict.get (index_of_ids ["A"; "B"; "C"]) "B" = Some 1%nat.
Proof.
  apply (proj2 (proj2 (proj2 (index_round_trip ["A"; "B"; "C"])))).
  - apply SimilarFacts.distinct_nodup. reflexivity.
  - reflexivity.
Defined.

End IdMaps.

(* ================================================================== *)
(** ** Asking for more results keeps the earlier ones *)
(* ================================================================== *)

Module PrefixFacts.

Import Ratings CF.

Lemma firstn_prefix (A : Type) (k k' : nat) (l : list A) :
  (k <= k')%nat -> firstn k (firstn k' l) = firstn k l.
Proof. intro H. rewrite firstn_firstn. f_equal. lia. Qed.

Lemma cooccurrence_recs_prefix (st : CFInference) (uid : string)
      (k k' : nat) :
  (k <= k')%nat ->
  _cooccurrence_recs st uid k = firstn k (_cooccurrence_recs st uid k').
Proof.
  intro H. unfold _cooccurrence_recs, _popular_only, Py.take.
  destruct (Dict.get_or (user_items st) uid []);
    now rewrite <- !firstn_map, firstn_prefix.
Qed.

Lemma cooccurrence_recs_short (st : CFInference) (uid : string) (k : nat) :
  Py.take k (_cooccurrence_recs st uid k) = _cooccurrence_recs st uid k.
Proof.
  apply ArtifactRanking.take_short.
  unfold _cooccurrence_recs, _popular_only, Py.take.
  destruct (Dict.get_or (user_items st) uid []);
    rewrite length_map; apply firstn_le_length.
Qed.

(** X28.  Without artifacts the recommendations for [k] items are the
    first [k] of the recommendations for any larger number: asking for
    more keeps the earlier ones.  (With artifacts this fails where the
    larger number exceeds the columns of the matrix.) *)
Theorem fallback_prefix_stable (f : cf_files) (rs : list row) (uid : string)
        (k k' : nat) :
  has_artifacts (__init__ f rs) = false ->
  (k <= k')%nat ->
  recommend_for_user (__init__ f rs) uid k
  = Py.take k (recommend_for_user (__init__ f rs) uid k').
Proof.
  intros Hno Hk. unfold recommend_for_user. rewrite Hno.
  rewrite !cooccurrence_recs_short.
  unfold Py.take. rewrite firstn_map. f_equal.
  now apply cooccurrence_recs_prefix.
Qed.

(** Witness for X28: one and two items for a user of the table of
    three users. *)
Lemma fallback_prefix_stable_witness :
  recommend_for_user (__init__ Sample.no_files SampleArtifacts.ratings_co)
                     "u1" 1
  = Py.take 1 (recommend_for_user
                 (__init__ Sample.no_files SampleArtifacts.ratings_co) "u1" 2).
Proof.
  apply (@fallback_prefix_stable Sample.no_files SampleArtifacts.ratings_co
           "u1" 1 2).
  - reflexivity.
  - lia.
Defined.

Lemma map_some_inj (A : Type) (l l' : list A) :
  map Some l = map Some l' -> l = l'.
Proof.
  revert l'. induction l as [|x t IH]; intros [|y t'] H; try discriminate;
    [reflexivity|].
  simpl in H. injection H as -> H. f_equal. now apply IH.
Qed.

Lemma results_prefix (df : list Hybrid.item_row) (scores : list Float.t)
      (order : list nat) (k k' : nat) (hits hits' : list Hybrid.hit) :
  (k <= k')%nat ->
  (forall i, In i order -> (i < List.length df)%nat) ->
  Hybrid.results_of df scores (Py.take k order) = Py.Ok hits ->
  Hybrid.results_of df scores (Py.take k' order) = Py.Ok hits' ->
  hits = Py.take k hits'.
Proof.
  intros Hk Hin Hok Hok'.
  destruct (SearchFacts.results_of_ok df scores (Py.take k order))
    as (h & Hh & Hm);
    [intros i Hi; apply Hin; eapply TopK.firstn_In, Hi|].
  destruct (SearchFacts.results_of_ok df scores (Py.take k' order))
    as (h' & Hh' & Hm');
    [intros i Hi; apply Hin; eapply TopK.firstn_In, Hi|].
  rewrite Hok in Hh. injection Hh as <-.
  rewrite Hok' in Hh'. injection Hh' as <-.
  apply map_some_inj. rewrite Hm. unfold Py.take.
  assert (E : map Some (firstn k hits') = firstn k (map Some hits'))
    by (symmetry; apply firstn_map).
  rewrite E, Hm'. unfold Py.take.
  now rewrite <- !firstn_map, firstn_prefix.
Qed.

(** X29.  The hits of a search for [k] results are the first [k] hits of
    the search for any larger number of results. *)
Theorem search_prefix_stable (bm : Hybrid.okapi) (df : list Hybrid.item_row)
        (store : Embedding.EmbeddingStore) (q : string) (k k' : nat) :
  (k <= k')%nat ->
  exists hits hits',
    Hybrid.search (Hybrid.__init__ bm df store) q k = Py.Ok hits
    /\ Hybrid.search (Hybrid.__init__ bm df store) q k' = Py.Ok hits'
    /\ hits = Py.take k hits'.
Proof.
  intro Hk.
  destruct (Hybrid._tokenize q) as [|t ts] eqn:Hq.
  { exists [], []. unfold Hybrid.search. rewrite Hq.
    split; [reflexivity|]. split; [reflexivity|]. now destruct k. }
  destruct df as [|r0 rs].
  { exists [], []. unfold Hybrid.search. rewrite Hq. simpl.
    split; [now destruct k|]. split; [now destruct k'|]. now destruct k. }
  set (df := r0 :: rs).
  set (corpus := map (fun r => Hybrid._tokenize (Hybrid.text r)) df).
  set (gs := fun q' : list string =>
               map (bm corpus q') (seq 0 (List.length corpus))).
  set (scores := gs (Hybrid._tokenize q)).
  assert (Hlen : List.length scores = List.length df).
  { unfold scores, gs, corpus. now rewrite length_map, length_seq, length_map. }
  assert (Hin : forall i, In i (rev (Np.argsort scores)) ->
                          (i < List.length df)%nat).
  { intros i Hi. rewrite <- Hlen. apply ArgsortFacts.argsort_in.
    now apply in_rev. }
  assert (Hs : forall n, Hybrid.search (Hybrid.__init__ bm df store) q n
                         = Hybrid.results_of df scores
                             (Py.take n (rev (Np.argsort scores)))).
  { intro n.
    rewrite (@SearchFacts.search_scored (Hybrid.__init__ bm df store) q n gs).
    - reflexivity.
    - reflexivity.
    - rewrite Hq. discriminate.
    - fold scores. intro E. rewrite E in Hlen. discriminate. }
  destruct (SearchFacts.results_of_ok df scores
              (Py.take k (rev (Np.argsort scores)))) as (hits & Hok & _);
    [intros i Hi; apply Hin; eapply TopK.firstn_In, Hi|].
  destruct (SearchFacts.results_of_ok df scores
              (Py.take k' (rev (Np.argsort scores)))) as (hits' & Hok' & _);
    [intros i Hi; apply Hin; eapply TopK.firstn_In, Hi|].
  exists hits, hits'. rewrite !Hs.
  split; [exact Hok|]. split; [exact Hok'|].
  now apply (@results_prefix df scores (rev (Np.argsort scores)) k k').
Qed.

(** Witness for X29: one and two results over the catalog of two items. *)
Lemma search_prefix_stable_witness :
  exists hits hits',
    Hybrid.search (Hybrid.__init__ SampleCatalog.okapi_no_match
                                   SampleCatalog.catalog_AB
                                   SampleCatalog.no_embeddings) "planet" 1
    = Py.Ok hits
    /\ Hybrid.search (Hybrid.__init__ SampleCatalog.okapi_no_match
                                      SampleCatalog.catalog_AB
                                      SampleCatalog.no_embeddings) "planet" 2
       = Py.Ok hits'
    /\ hits = Py.take 1 hits'.
Proof.
  apply (@search_prefix_stable SampleCatalog.okapi_no_match
           SampleCatalog.catalog_AB SampleCatalog.no_embeddings "planet" 1 2).
  lia.
Defined.

End PrefixFacts.

(* ================================================================== *)
(** ** lexical_store.py: the normalized scores of a search *)
(* ================================================================== *)

Module LexicalFacts.

Import Lexical.

Lemma fold_min_le (l : list Q) (a : Q) :
  fold_left Qmin l a <= a /\ forall x, In x l -> fold_left Qmin l a <= x.
Proof.
  revert a. induction l as [|y t IH]; simpl; intro a.
  - split; [apply Qle_refl|intros x []].
  - destruct (IH (Qmin a y)) as [H1 H2]. split.
    + eapply Qle_trans; [exact H1|apply Q.le_min_l].
    + intros x [<-|Hx]; [|now apply H2].
      eapply Qle_trans; [exact H1|apply Q.le_min_r].
Qed.

Lemma fold_min_glb (l : list Q) (a c : Q) :
  c <= a -> (forall x, In x l -> c <= x) -> c <= fold_left Qmin l a.
Proof.
  revert a. induction l as [|y t IH]; simpl; intros a Ha Hl; [exact Ha|].
  apply IH; [|intros; apply Hl; now right].
  apply Q.min_glb; [exact Ha|apply Hl; now left].
Qed.

Lemma fold_max_ge (l : list Q) (a : Q) :
  a <= fold_left Qmax l a /\ forall x, In x l -> x <= fold_left Qmax l a.
Proof.
  revert a. induction l as [|y t IH]; simpl; intro a.
  - split; [apply Qle_refl|intros x []].
  - destruct (IH (Qmax a y)) as [H1 H2]. split.
    + eapply Qle_trans; [apply Q.le_max_l|exact H1].
    + intros x [<-|Hx]; [|now apply H2].
      eapply Qle_trans; [apply Q.le_max_r|exact H1].
Qed.

(** A score between the least and the largest is normalized into
    [0, 1). *)
Lemma normalized_unit (s lo hi : Q) :
  lo <= s -> s <= hi ->
  0 <= (s - lo) / (hi - lo + (1 # 1000000000)) < 1.
Proof.
  intros Hlo Hhi.
  assert (Hd : 0 < hi - lo + (1 # 1000000000)).
  { apply Qlt_le_trans with (0 + (1 # 1000000000)); [reflexivity|].
    apply Qplus_le_l. unfold Qminus. rewrite <- (Qplus_opp_r lo).
    apply Qplus_le_l. eapply Qle_trans; eassumption. }
  split.
  - apply Qle_shift_div_l; [exact Hd|]. rewrite Qmult_0_l.
    unfold Qminus. rewrite <- (Qplus_opp_r lo). now apply Qplus_le_l.
  - apply Qlt_shift_div_r; [exact Hd|]. rewrite Qmult_1_l.
    apply Qle_lt_trans with (hi - lo).
    + unfold Qminus. now apply Qplus_le_l.
    + rewrite <- (Qplus_0_r (hi - lo)) at 1. now apply Qplus_lt_r.
Qed.

Lemma set_entries (d : Dict.t Q) (k : string) (v : Q) (e : string * Q) :
  In e (Dict.set d k v) -> e = (k, v) \/ In e d.
Proof.
  induction d as [|[k' v'] t IH]; simpl; [intros [<-|[]]; now left|].
  destruct (String.eqb k k') eqn:E; simpl.
  - apply String.eqb_eq in E. subst k'. intros [<-|H]; auto.
  - intros [<-|H]; auto. destruct (IH H); auto.
Qed.

Lemma set_length (d : Dict.t Q) (k : string) (v : Q) :
  (List.length (Dict.set d k v) <= S (List.length d))%nat.
Proof.
  induction d as [|[k' v'] t IH]; simpl; [lia|].
  destruct (String.eqb k k'); simpl; lia.
Qed.

Lemma entries_collected (ids : list string) (scores : list Q) (idx : list nat)
      (d : Dict.t Q) :
  (forall i, In i idx -> (i < List.length ids)%nat) ->
  (forall i, In i idx -> 0 <= nth i scores 0 <= 1) ->
  (forall id v, In (id, v) d -> 0 < v <= 1 /\ In id ids) ->
  exists d',
    collect ids scores idx d = Py.Ok d'
    /\ (List.length d' <= List.length d + List.length idx)%nat
    /\ (forall id v, In (id, v) d' -> 0 < v <= 1 /\ In id ids)
    /\ ((forall i, In i idx -> nth i scores 0 <= 0) -> d' = d).
Proof.
  revert d. induction idx as [|i rest IH]; simpl; intros d Hids Hsc Hd.
  - exists d. split; [reflexivity|]. split; [lia|]. split; [exact Hd|auto].
  - destruct (Qle_bool (nth i scores 0) 0) eqn:E.
    + destruct (IH d) as (d' & H1 & H2 & H3 & H4); auto.
      exists d'. split; [exact H1|]. split; [lia|]. split; [exact H3|].
      intro H. apply H4. intros; apply H; now right.
    + assert (Hpos : 0 < nth i scores 0).
      { apply Qnot_le_lt. intro H. apply Qle_bool_iff in H. congruence. }
      destruct (nth_error ids i) as [id|] eqn:En.
      2:{ apply nth_error_None in En.
          specialize (Hids i (or_introl eq_refl)). lia. }
      destruct (IH (Dict.set d id (nth i scores 0)))
        as (d' & H1 & H2 & H3 & H4); auto.
      { intros id' v' Hin. apply set_entries in Hin.
        destruct Hin as [[= -> ->]|Hin]; [|now apply Hd].
        split; [split; [exact Hpos|apply Hsc; now left]|].
        eapply nth_error_In, En. }
      exists d'. split; [exact H1|]. split.
      * pose proof (set_length d id (nth i scores 0)). lia.
      * split; [exact H3|]. intro H. exfalso.
        specialize (H i (or_introl eq_refl)).
        apply (Qlt_irrefl 0). eapply Qlt_le_trans; eassumption.
Qed.

(** X30.  A search on a loaded index whose id list covers the scored
    documents does not raise: it returns at most [2 * k] entries, each
    keyed by an id of the index and scored above 0 and at most 1;
    and it returns nothing when all documents score alike, as they do
    for a query that matches no document and for an index of one
    document. *)
Theorem lexical_search_normalized (self : LexicalStore) (query : string)
        (k : nat) (get_scores : list string -> list Q) :
  bm25 self = Some get_scores ->
  get_scores (simple_tokenize query) <> [] ->
  (List.length (get_scores (simple_tokenize query))
   <= List.length (id_list self))%nat ->
  exists d,
    search self query k = Py.Ok d
    /\ (List.length d <= k * 2)%nat
    /\ (forall id v, In (id, v) d -> 0 < v <= 1 /\ In id (id_list self))
    /\ ((forall s s', In s (get_scores (simple_tokenize query)) ->
                      In s' (get_scores (simple_tokenize query)) -> s == s') ->
        d = []).
Proof.
  intros Hbm Hne Hlen. unfold search. rewrite Hbm.
  destruct (get_scores (simple_tokenize query)) as [|s0 rest] eqn:Es;
    [congruence|].
  cbv zeta.
  set (lo := fold_left Qmin rest s0).
  set (hi := fold_left Qmax rest s0).
  set (norm := fun s => (s - lo) / (hi - lo + (1 # 1000000000))).
  set (scores := map norm (s0 :: rest)).
  set (top_idx := Py.take (k * 2) (rev (Np.argsort (map Float.Fin scores)))).
  assert (Hbounds : forall s, In s (s0 :: rest) -> lo <= s /\ s <= hi).
  { intros s [<-|Hs].
    - split; [apply (proj1 (fold_min_le rest s0))
             |apply (proj1 (fold_max_ge rest s0))].
    - split; [apply (proj2 (fold_min_le rest s0)), Hs
             |apply (proj2 (fold_max_ge rest s0)), Hs]. }
  assert (Hslen : List.length scores = List.length (s0 :: rest))
    by (unfold scores; apply length_map).
  assert (Htop : forall i, In i top_idx -> (i < List.length scores)%nat).
  { intros i Hi. unfold top_idx in Hi. apply TopK.firstn_In in Hi.
    apply in_rev in Hi. apply ArgsortFacts.argsort_in in Hi.
    now rewrite length_map in Hi. }
  assert (Hnth : forall i, (i < List.length scores)%nat ->
                           exists s, In s (s0 :: rest)
                                     /\ nth i scores 0 = norm s).
  { intros i Hi. exists (nth i (s0 :: rest) 0). split.
    - apply nth_In. now rewrite <- Hslen.
    - unfold scores. rewrite (nth_indep _ 0 (norm 0)) by exact Hi.
      apply map_nth. }
  destruct (@entries_collected (id_list self) scores top_idx [])
    as (d & H1 & H2 & H3 & H4).
  - intros i Hi. apply Htop in Hi. rewrite Hslen in Hi. lia.
  - intros i Hi. destruct (Hnth i (Htop i Hi)) as (s & Hs & ->).
    destruct (Hbounds s Hs) as [Hlo Hhi].
    destruct (normalized_unit Hlo Hhi) as [H0 H1].
    split; [exact H0|apply Qlt_le_weak, H1].
  - intros id v [].
  - exists d. split; [exact H1|]. split; [|split; [exact H3|]].
    + simpl in H2. eapply Nat.le_trans; [exact H2|].
      unfold top_idx, Py.take. apply firstn_le_length.
    + intro Heq. apply H4. intros i Hi.
      destruct (Hnth i (Htop i Hi)) as (s & Hs & ->).
      unfold norm.
      assert (Hd : 0 < hi - lo + (1 # 1000000000)).
      { apply Qlt_le_trans with (0 + (1 # 1000000000)); [reflexivity|].
        apply Qplus_le_l. unfold Qminus. rewrite <- (Qplus_opp_r lo).
        apply Qplus_le_l. destruct (Hbounds s0 (or_introl eq_refl)).
        eapply Qle_trans; eassumption. }
      apply Qle_shift_div_r; [exact Hd|]. rewrite Qmult_0_l.
      unfold Qminus. rewrite <- (Qplus_opp_r lo). apply Qplus_le_l.
      apply fold_min_glb.
      * rewrite (Heq s s0 Hs (or_introl eq_refl)). apply Qle_refl.
      * intros x Hx. rewrite (Heq s x Hs (or_intror Hx)). apply Qle_refl.
Qed.

(** Witness for X30: an index of three documents with different scores. *)
Lemma lexical_search_normalized_witness :
  exists d,
    search {| bm25 := Some (fun _ => [0; 3; 1]); id_list := ["A"; "B"; "C"] |}
           "space" 1
    = Py.Ok d
    /\ (List.length d <= 1 * 2)%nat
    /\ (forall id v, In (id, v) d -> 0 < v <= 1 /\ In id ["A"; "B"; "C"])
    /\ ((forall s s', In s [0; 3; 1] -> In s' [0; 3; 1] -> s == s') -> d = []).
Proof.
  apply (@lexical_search_normalized
           {| bm25 := Some (fun _ => [0; 3; 1]); id_list := ["A"; "B"; "C"] |}
           "space" 1 (fun _ => [0; 3; 1])).
  - reflexivity.
  - discriminate.
  - simpl. lia.
Defined.

End LexicalFacts.
